(** * NeuTTS German OpenAI API: voice cache, synthesis and WAV packaging

    A shallow embedding of [tts_service.py] (class [TTSService]) and of the
    speech endpoint of [server.py], with the properties of the design
    document stated and settled against it.

    Conventions of the embedding:
    - Python [int] is [Z]; [bytes] is [list byte]; [str] is [string].
    - A raised exception is a value of [exn]; a call that can raise returns
      [result].
    - The service object, the Python object allocator and the sequence of
      calls made to the collaborators (file system, engine) are threaded
      through a state monad [M]; a raised exception keeps the state reached
      so far, as in Python.
    - numpy floating point numbers are IEEE-754 values of the Standard
      Library's [spec_float], with the precision of the array's dtype. *)

From Stdlib Require Import ZArith List String Ascii Bool Lia.
From Stdlib Require Import Strings.Byte.
From Stdlib Require Import Floats.SpecFloat.
Import ListNotations.

Local Open Scope string_scope.
Local Open Scope list_scope.
Local Open Scope Z_scope.

Set Implicit Arguments.

(* ================================================================== *)
(** * Exceptions and results *)

(** The exception classes that occur in the modelled code.  All of them are
    subclasses of Python's [Exception]. *)
Inductive exn : Type :=
| ValueError (msg : string)
| AttributeError (msg : string)
| TypeError (msg : string)
| StructError (msg : string)       (* struct.error *)
| OSError (msg : string)
| RuntimeError (msg : string)
| HTTPException (status_code : Z) (detail : string).

Inductive result (A : Type) : Type :=
| Ok (a : A)
| Raise (e : exn).

Arguments Ok {A} a.
Arguments Raise {A} e.

Definition is_AttributeError (e : exn) : bool :=
  match e with AttributeError _ => true | _ => false end.

(** [str(e)] *)
Definition exn_message (e : exn) : string :=
  match e with
  | ValueError m | AttributeError m | TypeError m
  | StructError m | OSError m | RuntimeError m => m
  | HTTPException _ d => d
  end.

(* ================================================================== *)
(** * Bytes and [struct.pack] *)

Definition byte_of_Z (z : Z) : byte :=
  match Byte.of_N (Z.to_N (z mod 256)) with
  | Some b => b
  | None => x00
  end.

Definition Z_of_byte (b : byte) : Z := Z.of_N (Byte.to_N b).

(** [le_bytes n v]: the [n] low bytes of [v], least significant first. *)
Fixpoint le_bytes (n : nat) (v : Z) : list byte :=
  match n with
  | O => []
  | S n' => byte_of_Z v :: le_bytes n' (v / 256)
  end.

(** The unsigned integer a little-endian byte string stands for. *)
Fixpoint le_decode (bs : list byte) : Z :=
  match bs with
  | [] => 0
  | b :: bs' => Z_of_byte b + 256 * le_decode bs'
  end.

(** [struct.pack('<I', v)]: raises [struct.error] outside [0, 2^32).
    The messages are those of CPython 3.11 on a 64-bit host: the value is
    first converted to an unsigned long, then compared with the width of
    the field. *)
Definition struct_pack_I (v : Z) : result (list byte) :=
  if (0 <=? v) && (v <? 2 ^ 32) then Ok (le_bytes 4 v)
  else if (0 <=? v) && (v <? 2 ^ 64)
  then Raise (StructError "'I' format requires 0 <= number <= 4294967295")
  else Raise (StructError "argument out of range").

(** [struct.pack('<H', v)]: raises [struct.error] outside [0, 2^16).
    Here the value is first converted to a signed long. *)
Definition struct_pack_H (v : Z) : result (list byte) :=
  if (0 <=? v) && (v <? 2 ^ 16) then Ok (le_bytes 2 v)
  else if (- 2 ^ 63 <=? v) && (v <? 2 ^ 63)
  then Raise (StructError "ushort format requires 0 <= number <= 65535")
  else Raise (StructError "argument out of range").

(** Sequencing of fallible pure computations. *)
Definition rbind {A B : Type} (r : result A) (k : A -> result B) : result B :=
  match r with
  | Ok a => k a
  | Raise e => Raise e
  end.

Declare Scope result_scope.
Delimit Scope result_scope with result.
Notation "'let?' x ':=' r 'in' k" := (rbind r (fun x => k))
  (at level 10, x name, r at level 200, k at level 200) : result_scope.
Local Open Scope result_scope.

(** [TTSService._create_wav_header].  The header is assembled left to right,
    so the first field that does not fit its width raises. *)
Definition _create_wav_header
    (sample_rate num_channels bits_per_sample data_size : Z)
  : result (list byte) :=
  let header := list_byte_of_string "RIFF" in
  let? f := struct_pack_I (36 + data_size) in
  let header := header ++ f in
  let header := header ++ list_byte_of_string "WAVE" in
  let header := header ++ list_byte_of_string "fmt " in
  let? f := struct_pack_I 16 in
  let header := header ++ f in
  let? f := struct_pack_H 1 in
  let header := header ++ f in
  let? f := struct_pack_H num_channels in
  let header := header ++ f in
  let? f := struct_pack_I sample_rate in
  let header := header ++ f in
  let? f := struct_pack_I (sample_rate * num_channels * bits_per_sample / 8) in
  let header := header ++ f in
  let? f := struct_pack_H (num_channels * bits_per_sample / 8) in
  let header := header ++ f in
  let? f := struct_pack_H bits_per_sample in
  let header := header ++ f in
  let header := header ++ list_byte_of_string "data" in
  let? f := struct_pack_I data_size in
  let header := header ++ f in
  Ok header.

(* ================================================================== *)
(** * numpy arrays of floats *)

(** A floating point dtype: precision (bits of significand) and maximal
    exponent, as [spec_float]'s operations expect them. *)
Record dtype : Type := { prec : Z; emax : Z }.

Definition float32 : dtype := {| prec := 24; emax := 128 |}.
Definition float64 : dtype := {| prec := 53; emax := 1024 |}.

(** An array: dtype, shape and the elements in C (row-major) order. *)
Record ndarray : Type := {
  arr_dtype : dtype;
  shape : list nat;
  data : list spec_float
}.

Definition ndim (a : ndarray) : Z := Z.of_nat (List.length (shape a)).

Definition flatten (a : ndarray) : ndarray :=
  {| arr_dtype := arr_dtype a;
     shape := [List.length (data a)];
     data := data a |}.

(** [len(a)]: the first dimension; a 0-d array has no length. *)
Definition len (a : ndarray) : result Z :=
  match shape a with
  | [] => Raise (TypeError "len() of unsized object")
  | n :: _ => Ok (Z.of_nat n)
  end.

(** A Python [int] scalar converted to the array's dtype. *)
Definition float_of_int (d : dtype) (z : Z) : spec_float :=
  binary_normalize (prec d) (emax d) z 0 false.

(** [a * k] for a Python int [k]: the scalar takes the array's dtype, the
    product is rounded to nearest even in that dtype. *)
Definition mul_scalar (d : dtype) (x : spec_float) (k : Z) : spec_float :=
  SFmul (prec d) (emax d) x (float_of_int d k).

(** The integer part of a finite float, rounding toward zero (the C
    conversion from floating point to integer). *)
Definition SFtrunc (x : spec_float) : option Z :=
  match x with
  | S754_zero _ => Some 0
  | S754_finite s m e =>
      let a := match e with
               | Z0 => Zpos m
               | Zpos _ => Zpos m * 2 ^ e
               | Zneg _ => Zpos m / 2 ^ (- e)
               end in
      Some (if s then - a else a)
  | _ => None
  end.

(** Reduction of an integer to the signed 16-bit range (two's complement
    truncation to the low 16 bits). *)
Definition wrap16 (z : Z) : Z := (z + 2 ^ 15) mod 2 ^ 16 - 2 ^ 15.

(** [x.astype(np.int16)] on one element.  numpy performs the C cast: the
    value is truncated toward zero, and nothing clamps it.  A truncated
    value outside the int16 range keeps its low 16 bits; where the
    truncated value does not even fit 32 bits, or the float is NaN or
    infinite, the conversion instruction of the usual x86-64 hosts yields
    the "integer indefinite" [-2^31], whose low 16 bits are 0. *)
Definition astype_int16 (x : spec_float) : Z :=
  match SFtrunc x with
  | Some t =>
      if (- 2 ^ 31 <=? t) && (t <? 2 ^ 31) then wrap16 t
      else wrap16 (- 2 ^ 31)
  | None => wrap16 (- 2 ^ 31)
  end.

(** The quantization expression [(x * 32767).astype(np.int16)] that both
    [_numpy_to_wav] and [synthesize_streaming] apply, on one element. *)
Definition quantize (d : dtype) (x : spec_float) : Z :=
  astype_int16 (mul_scalar d x 32767).

(** [(a * 32767).astype(np.int16)] on an array. *)
Definition quantize_array (a : ndarray) : list Z :=
  map (quantize (arr_dtype a)) (data a).

(** [.tobytes()] of an int16 array on a little-endian host: two bytes per
    element, low byte first. *)
Definition int16_tobytes (l : list Z) : list byte :=
  flat_map (fun v => le_bytes 2 (v mod 2 ^ 16)) l.

(** [TTSService._numpy_to_wav]. *)
Definition _numpy_to_wav (audio : ndarray) (sample_rate : Z)
  : result (list byte) :=
  let audio := if 1 <? ndim audio then flatten audio else audio in
  let audio_int16 := quantize_array audio in
  let audio_bytes := int16_tobytes audio_int16 in
  let data_size := Z.of_nat (List.length audio_bytes) in
  let? wav_header := _create_wav_header sample_rate 1 16 data_size in
  Ok (wav_header ++ audio_bytes).

(* ================================================================== *)
(** * Python strings and paths *)

Definition ascii_eqb (a b : ascii) : bool := Ascii.eqb a b.

(** [s.rfind(c)]: index of the last occurrence of [c], or -1. *)
Fixpoint rfind_from (c : ascii) (s : string) (i : Z) (found : Z) : Z :=
  match s with
  | EmptyString => found
  | String a r => rfind_from c r (i + 1) (if ascii_eqb a c then i else found)
  end.

Definition rfind (c : ascii) (s : string) : Z := rfind_from c s 0 (-1).

(** The slices [s[:i]] and [s[i:]] for [0 <= i]. *)
Definition slice_to (s : string) (i : Z) : string :=
  substring 0 (Z.to_nat i) s.

Definition slice_from (s : string) (i : Z) : string :=
  substring (Z.to_nat i) (String.length s - Z.to_nat i) s.

Fixpoint string_forallb (f : ascii -> bool) (s : string) : bool :=
  match s with
  | EmptyString => true
  | String a r => f a && string_forallb f r
  end.

Definition ends_with_slash (s : string) : bool :=
  match rfind "/" s with
  | -1 => false
  | i => i =? Z.of_nat (String.length s) - 1
  end.

(** [os.path.join(a, b)] (posixpath, two components). *)
Definition os_path_join (a b : string) : string :=
  if prefix "/" b then b
  else if (String.eqb a "") || ends_with_slash a then a ++ b
  else a ++ "/" ++ b.

(** [os.path.basename(p)]: what follows the last slash. *)
Definition os_path_basename (p : string) : string :=
  slice_from p (rfind "/" p + 1).

(** [os.path.splitext(p)]: the extension starts at the last dot of the last
    component, unless that component consists of leading dots up to
    there. *)
Definition os_path_splitext (p : string) : string * string :=
  let sepIndex := rfind "/" p in
  let dotIndex := rfind "." p in
  if sepIndex <? dotIndex then
    let lead := substring (Z.to_nat (sepIndex + 1))
                          (Z.to_nat (dotIndex - (sepIndex + 1))) p in
    if string_forallb (fun a => ascii_eqb a ".") lead then (p, "")
    else (slice_to p dotIndex, slice_from p dotIndex)
  else (p, "").

(** Text is held in UTF-8.  The characters Python's [str.strip()]
    removes are the code points U+0009 to U+000D, U+001C to U+0020,
    U+0085, U+00A0, U+1680, U+2000 to U+200A, U+2028, U+2029, U+202F,
    U+205F and U+3000.  [is_space] recognises the ASCII ones, [is_space2]
    and [is_space3] the encodings, of two and of three bytes, of the
    others. *)
Definition is_space (a : ascii) : bool :=
  let n := Z.of_nat (nat_of_ascii a) in
  ((9 <=? n) && (n <=? 13)) || ((28 <=? n) && (n <=? 32)).

Definition is_space2 (a b : ascii) : bool :=
  let m := Z.of_nat (nat_of_ascii a) in
  let n := Z.of_nat (nat_of_ascii b) in
  (m =? 194) && ((n =? 133) || (n =? 160)).

Definition is_space3 (a b c : ascii) : bool :=
  let l := Z.of_nat (nat_of_ascii a) in
  let m := Z.of_nat (nat_of_ascii b) in
  let n := Z.of_nat (nat_of_ascii c) in
  ((l =? 225) && (m =? 154) && (n =? 128))
  || ((l =? 226) && (m =? 128)
      && (((128 <=? n) && (n <=? 138))
          || (n =? 168) || (n =? 169) || (n =? 175)))
  || ((l =? 226) && (m =? 129) && (n =? 159))
  || ((l =? 227) && (m =? 128) && (n =? 128)).

(** [s.lstrip()]: the text from its first character that is not
    whitespace. *)
Fixpoint lstrip (s : string) : string :=
  match s with
  | EmptyString => EmptyString
  | String a r =>
      if is_space a then lstrip r
      else
        match r with
        | String b r2 =>
            if is_space2 a b then lstrip r2
            else
              match r2 with
              | String c r3 => if is_space3 a b c then lstrip r3 else s
              | EmptyString => s
              end
        | EmptyString => s
        end
  end.

(** The same on the reversed text, where the bytes of a character come
    last byte first. *)
Fixpoint lstrip_reversed (s : string) : string :=
  match s with
  | EmptyString => EmptyString
  | String a r =>
      if is_space a then lstrip_reversed r
      else
        match r with
        | String b r2 =>
            if is_space2 b a then lstrip_reversed r2
            else
              match r2 with
              | String c r3 =>
                  if is_space3 c b a then lstrip_reversed r3 else s
              | EmptyString => s
              end
        | EmptyString => s
        end
  end.

Fixpoint string_rev (s : string) : string :=
  match s with
  | EmptyString => EmptyString
  | String a r => string_rev r ++ String a EmptyString
  end.

(** [s.strip()]: the whitespace is removed at the start, then at the
    end. *)
Definition str_strip (s : string) : string :=
  string_rev (lstrip_reversed (string_rev (lstrip s))).

Definition is_lower (a : ascii) : bool :=
  let n := Z.of_nat (nat_of_ascii a) in (97 <=? n) && (n <=? 122).

Definition is_upper (a : ascii) : bool :=
  let n := Z.of_nat (nat_of_ascii a) in (65 <=? n) && (n <=? 90).

Definition to_upper (a : ascii) : ascii :=
  if is_lower a then ascii_of_nat (nat_of_ascii a - 32) else a.

Definition to_lower (a : ascii) : ascii :=
  if is_upper a then ascii_of_nat (nat_of_ascii a + 32) else a.

(** [s.title()], for ASCII text: a letter that follows a letter is
    lowered, any other letter is raised. *)
Fixpoint str_title_from (prev_cased : bool) (s : string) : string :=
  match s with
  | EmptyString => EmptyString
  | String a r =>
      let cased := is_lower a || is_upper a in
      String (if prev_cased then to_lower a else to_upper a)
             (str_title_from cased r)
  end.

Definition str_title (s : string) : string := str_title_from false s.

(* ================================================================== *)
(** * Python dictionaries (insertion ordered) *)

Section Dict.
Variable V : Type.

Definition dict : Type := list (string * V).

Fixpoint dict_get (d : dict) (k : string) : option V :=
  match d with
  | [] => None
  | (k', v) :: r => if String.eqb k k' then Some v else dict_get r k
  end.

(** [k in d] *)
Definition dict_mem (k : string) (d : dict) : bool :=
  match dict_get d k with Some _ => true | None => false end.

(** [d[k] = v]: an existing key keeps its position, a new key goes
    last. *)
Fixpoint dict_set (d : dict) (k : string) (v : V) : dict :=
  match d with
  | [] => [(k, v)]
  | (k', v') :: r =>
      if String.eqb k k' then (k', v) :: r
      else (k', v') :: dict_set r k v
  end.

(** [list(d.keys())] *)
Definition dict_keys (d : dict) : list string := map fst d.
End Dict.

(* ================================================================== *)
(** * The service state and its collaborators *)

(** A reference encoding as the engine returns it: a Python object, with
    the identity the allocator gave it and its contents. *)
Record Tensor : Type := {
  obj_id : nat;
  codes : list Z
}.

(** One value of the [voice_cache] dictionary. *)
Record VoiceEntry : Type := {
  ref_codes : Tensor;
  ref_text : string;
  wav_path : string;
  is_builtin : bool;
  name : string
}.

(** [config.py]: the two directories the service reads. *)
Record Config : Type := {
  VOICES_DIR : string;
  SAMPLES_DIR : string
}.

(** The file system at the time of a call, as [os.path.exists],
    [glob.glob], [open(...).read()] and [torch.load] see it. *)
Record FileSystem : Type := {
  path_exists : string -> bool;
  glob_glob : string -> list string;
  read_text : string -> result string;
  torch_load : string -> result (list Z)
}.

(** The engine object ([neutts.NeuTTS]), a black box with deterministic
    answers.  [infer_stream] is absent on engines without incremental
    inference; when present, it produces chunks and may raise after some of
    them. *)
Record NeuTTS : Type := {
  encode_reference : FileSystem -> string -> result (list Z);
  infer : string -> Tensor -> string -> result ndarray;
  infer_stream :
    option (string -> Tensor -> string -> list ndarray * option exn)
}.

(** What the world outside the service answers at the time of a call: the
    file system, what constructing the engine yields, and the readings of
    [time.time()]. *)
Record Env : Type := {
  fs :> FileSystem;
  NeuTTS_new : result NeuTTS;
  time_time : nat -> spec_float
}.

(** Calls made to the collaborators, in order. *)
Inductive event : Type :=
| EvExists (path : string)
| EvGlob (pattern : string)
| EvOpen (path : string)
| EvTorchLoad (path : string)
| EvConstruct
| EvEncode (path : string)
| EvInfer (text : string) (ref : Tensor) (ref_txt : string)
| EvInferStream (text : string) (ref : Tensor) (ref_txt : string).

(** The [TTSService] instance ([tts], [voice_cache]) together with the
    interpreter's object counter, the number of clock readings taken and
    the calls made so far. *)
Record State : Type := {
  tts : option NeuTTS;
  voice_cache : dict VoiceEntry;
  next_id : nat;
  clock_reads : nat;
  trace : list event
}.

(** [TTSService.__init__] *)
Definition TTSService_init : State :=
  {| tts := None; voice_cache := []; next_id := 0%nat;
     clock_reads := 0%nat; trace := [] |}.

(* ------------------------------------------------------------------ *)
(** ** The monad of service methods *)

Definition M (A : Type) : Type := State -> result A * State.

Definition ret {A : Type} (a : A) : M A := fun s => (Ok a, s).

Definition bind {A B : Type} (m : M A) (k : A -> M B) : M B :=
  fun s =>
    match m s with
    | (Ok a, s') => k a s'
    | (Raise e, s') => (Raise e, s')
    end.

Definition raise {A : Type} (e : exn) : M A := fun s => (Raise e, s).

(** [try: m  except Exception as e: h e] *)
Definition try_except {A : Type} (m : M A) (h : exn -> M A) : M A :=
  fun s =>
    match m s with
    | (Ok a, s') => (Ok a, s')
    | (Raise e, s') => h e s'
    end.

Definition lift {A : Type} (r : result A) : M A := fun s => (r, s).

Definition get : M State := fun s => (Ok s, s).

Definition log (ev : event) : M unit :=
  fun s => (Ok tt, {| tts := tts s; voice_cache := voice_cache s;
                      next_id := next_id s; clock_reads := clock_reads s;
                      trace := trace s ++ [ev] |}).

Declare Scope monad_scope.
Delimit Scope monad_scope with monad.
Notation "x <- m ;; k" := (bind m (fun x => k))
  (at level 61, m at next level, right associativity) : monad_scope.
Notation "' pat <- m ;; k" :=
  (bind m (fun x => match x with pat => k end))
  (at level 61, pat pattern, m at next level, right associativity)
  : monad_scope.
Notation "m ;; k" := (bind m (fun _ => k))
  (at level 61, right associativity) : monad_scope.
Local Open Scope monad_scope.

(** [for x in l: body x] *)
Fixpoint for_each {A : Type} (l : list A) (body : A -> M unit) : M unit :=
  match l with
  | [] => ret tt
  | x :: r => body x ;; for_each r body
  end.

(* ------------------------------------------------------------------ *)
(** ** Generators *)

(** A generator function, consumed to its end: the chunks it yields, how
    it ends (normally or by an exception) and the state it leaves. *)
Definition G (A : Type) : Type :=
  State -> list (list byte) * result A * State.

Definition gret {A : Type} (a : A) : G A := fun s => ([], Ok a, s).

Definition gbind {A B : Type} (m : G A) (k : A -> G B) : G B :=
  fun s =>
    match m s with
    | (out, Ok a, s') =>
        let '(out', r, s'') := k a s' in (out ++ out', r, s'')
    | (out, Raise e, s') => (out, Raise e, s')
    end.

Definition graise {A : Type} (e : exn) : G A := fun s => ([], Raise e, s).

(** [yield chunk] *)
Definition gyield (chunk : list byte) : G unit :=
  fun s => ([chunk], Ok tt, s).

(** A method call inside a generator. *)
Definition glift {A : Type} (m : M A) : G A :=
  fun s => let '(r, s') := m s in ([], r, s').

(** [try: m  except C: h], where [catches] tells the exceptions of class
    [C].  What [m] yielded before raising stays yielded. *)
Definition gtry_except {A : Type} (catches : exn -> bool)
    (m : G A) (h : G A) : G A :=
  fun s =>
    match m s with
    | (out, Ok a, s') => (out, Ok a, s')
    | (out, Raise e, s') =>
        if catches e then
          let '(out', r, s'') := h s' in (out ++ out', r, s'')
        else (out, Raise e, s')
    end.

Declare Scope gen_scope.
Delimit Scope gen_scope with gen.
Notation "x <- m ;; k" := (gbind m (fun x => k))
  (at level 61, m at next level, right associativity) : gen_scope.
Notation "' pat <- m ;; k" :=
  (gbind m (fun x => match x with pat => k end))
  (at level 61, pat pattern, m at next level, right associativity)
  : gen_scope.
Notation "m ;; k" := (gbind m (fun _ => k))
  (at level 61, right associativity) : gen_scope.

(** [for x in it: body x], where the iterable produces the elements [l]
    and then stops, by exhaustion or by raising [stop]. *)
Fixpoint gfor_each {A : Type} (l : list A) (stop : option exn)
    (body : A -> G unit) : G unit :=
  match l with
  | [] => match stop with
          | None => gret tt
          | Some e => graise e
          end
  | x :: r => gbind (body x) (fun _ => gfor_each r stop body)
  end.

(** A new Python object holding [c]. *)
Definition alloc (c : list Z) : M Tensor :=
  fun s => (Ok {| obj_id := next_id s; codes := c |},
            {| tts := tts s; voice_cache := voice_cache s;
               next_id := S (next_id s); clock_reads := clock_reads s;
               trace := trace s |}).

(** [self.tts = t] *)
Definition set_tts (t : NeuTTS) : M unit :=
  fun s => (Ok tt, {| tts := Some t; voice_cache := voice_cache s;
                      next_id := next_id s; clock_reads := clock_reads s;
                      trace := trace s |}).

(** [self.voice_cache[k] = v] *)
Definition cache_set (k : string) (v : VoiceEntry) : M unit :=
  fun s => (Ok tt, {| tts := tts s;
                      voice_cache := dict_set (voice_cache s) k v;
                      next_id := next_id s; clock_reads := clock_reads s;
                      trace := trace s |}).

(* ------------------------------------------------------------------ *)
(** ** Calls to the collaborators *)

Definition os_path_exists (env : Env) (p : string) : M bool :=
  log (EvExists p) ;; ret (path_exists env p).

Definition glob (env : Env) (pattern : string) : M (list string) :=
  log (EvGlob pattern) ;; ret (glob_glob env pattern).

(** [with open(p, "r", encoding="utf-8") as f: f.read()] *)
Definition open_read (env : Env) (p : string) : M string :=
  log (EvOpen p) ;; lift (read_text env p).

Definition torch_load_ (env : Env) (p : string) : M Tensor :=
  log (EvTorchLoad p) ;;
  c <- lift (torch_load env p) ;;
  alloc c.

(** [time.time()] *)
Definition time (env : Env) : M spec_float :=
  fun s => (Ok (time_time env (clock_reads s)),
            {| tts := tts s; voice_cache := voice_cache s;
               next_id := next_id s; clock_reads := S (clock_reads s);
               trace := trace s |}).

Definition NoneType_has_no (attr : string) : exn :=
  AttributeError ("'NoneType' object has no attribute '" ++ attr ++ "'").

Definition NeuTTS_has_no (attr : string) : exn :=
  AttributeError ("'NeuTTS' object has no attribute '" ++ attr ++ "'").

(** [self.tts.encode_reference(p)]; on [None] the attribute access
    raises. *)
Definition tts_encode_reference (env : Env) (p : string) : M Tensor :=
  s <- get ;;
  match tts s with
  | None => raise (NoneType_has_no "encode_reference")
  | Some engine =>
      log (EvEncode p) ;;
      c <- lift (encode_reference engine env p) ;;
      alloc c
  end.

(** [self.tts.infer(text, ref_codes, ref_text)] *)
Definition tts_infer (text : string) (rc : Tensor) (rt : string)
  : M ndarray :=
  s <- get ;;
  match tts s with
  | None => raise (NoneType_has_no "infer")
  | Some engine =>
      log (EvInfer text rc rt) ;;
      lift (infer engine text rc rt)
  end.

(** [self.tts.infer_stream(text, ref_codes, ref_text)]: the attribute
    access raises on [None] and on an engine without the method. *)
Definition tts_infer_stream (text : string) (rc : Tensor) (rt : string)
  : M (list ndarray * option exn) :=
  s <- get ;;
  match tts s with
  | None => raise (NoneType_has_no "infer_stream")
  | Some engine =>
      match infer_stream engine with
      | None => raise (NeuTTS_has_no "infer_stream")
      | Some f =>
          log (EvInferStream text rc rt) ;;
          ret (f text rc rt)
      end
  end.

(* ================================================================== *)
(** * [class TTSService] *)

Section Service.
Variable cfg : Config.

Definition builtin_voices : list (string * string) :=
  [("greta", "greta"); ("mateo", "mateo"); ("juliette", "juliette")].

(** The body of the loop of [_load_builtin_samples].  The messages
    printed are not part of the model. *)
Definition load_builtin (env : Env) (kv : string * string) : M unit :=
  let '(voice_id, filename) := kv in
  let wav_path := os_path_join (SAMPLES_DIR cfg) (filename ++ ".wav")%string in
  let txt_path := os_path_join (SAMPLES_DIR cfg) (filename ++ ".txt")%string in
  let pt_path := os_path_join (SAMPLES_DIR cfg) (filename ++ ".pt")%string in
  has_wav <- os_path_exists env wav_path ;;
  if has_wav then
    try_except
      (ref_codes <- tts_encode_reference env wav_path ;;
       let ref_text := "" in
       has_txt <- os_path_exists env txt_path ;;
       '(ref_codes, ref_text) <-
         (if has_txt then
            content <- open_read env txt_path ;;
            ret (ref_codes, str_strip content)
          else
            has_pt <- os_path_exists env pt_path ;;
            if has_pt then
              loaded <- torch_load_ env pt_path ;;
              ret (loaded, ref_text)
            else ret (ref_codes, ref_text)) ;;
       cache_set voice_id
         {| ref_codes := ref_codes;
            ref_text := ref_text;
            wav_path := wav_path;
            is_builtin := true;
            name := ("German " ++ str_title voice_id ++ " (built-in)")%string |})
      (fun _ => ret tt)
  else ret tt.

Definition _load_builtin_samples (env : Env) : M unit :=
  for_each builtin_voices (load_builtin env).

(** The body of the loop of [_scan_custom_voices]. *)
Definition scan_custom (env : Env) (wav_path : string) : M unit :=
  let voice_id := fst (os_path_splitext (os_path_basename wav_path)) in
  let txt_path := (fst (os_path_splitext wav_path) ++ ".txt")%string in
  s <- get ;;
  if dict_mem voice_id (voice_cache s) then ret tt
  else
    try_except
      (ref_codes <- tts_encode_reference env wav_path ;;
       let ref_text := "" in
       has_txt <- os_path_exists env txt_path ;;
       ref_text <-
         (if has_txt then
            content <- open_read env txt_path ;;
            ret (str_strip content)
          else ret ref_text) ;;
       cache_set voice_id
         {| ref_codes := ref_codes;
            ref_text := ref_text;
            wav_path := wav_path;
            is_builtin := false;
            name := ("Custom voice: " ++ voice_id)%string |})
      (fun _ => ret tt).

Definition _scan_custom_voices (env : Env) : M unit :=
  has_dir <- os_path_exists env (VOICES_DIR cfg) ;;
  if negb has_dir then ret tt
  else
    wav_files <- glob env (os_path_join (VOICES_DIR cfg) "*.wav") ;;
    for_each wav_files (scan_custom env).

Definition initialize_tts (env : Env) : M unit :=
  s <- get ;;
  match tts s with
  | None =>
      log EvConstruct ;;
      engine <- lift (NeuTTS_new env) ;;
      set_tts engine ;;
      _load_builtin_samples env ;;
      _scan_custom_voices env
  | Some _ => ret tt
  end.

Definition reload_custom_voices (env : Env) : M (list string) :=
  _scan_custom_voices env ;;
  s <- get ;;
  ret (dict_keys (voice_cache s)).

(** One value of the dictionary [get_available_voices] returns. *)
Record VoiceInfo : Type := {
  info_name : string;
  info_is_builtin : bool;
  info_has_ref_text : bool
}.

Definition get_available_voices : M (dict VoiceInfo) :=
  s <- get ;;
  ret (fold_left
         (fun result kv =>
            dict_set result (fst kv)
              {| info_name := name (snd kv);
                 info_is_builtin := is_builtin (snd kv);
                 info_has_ref_text :=
                   negb (String.eqb (ref_text (snd kv)) "") |})
         (voice_cache s) []).

Definition get_voice_data (env : Env) (voice_id : string)
  : M (option Tensor * option string) :=
  s <- get ;;
  (if negb (dict_mem voice_id (voice_cache s))
   then reload_custom_voices env ;; ret tt
   else ret tt) ;;
  s <- get ;;
  match dict_get (voice_cache s) voice_id with
  | None => ret (None, None)
  | Some voice_data =>
      ret (Some (ref_codes voice_data), Some (ref_text voice_data))
  end.

(** The [timing] dictionary of [synthesize]. *)
Record Timing : Type := {
  latency_ms : spec_float;
  sample_rate : Z;
  duration_seconds : spec_float
}.

Definition float_sub (x y : spec_float) : spec_float :=
  SFsub (prec float64) (emax float64) x y.

Definition float_mul_int (x : spec_float) (k : Z) : spec_float :=
  mul_scalar float64 x k.

(** [n / d] on Python ints: the double nearest to the quotient (the
    operands are converted exactly as long as they are below 2^53). *)
Definition int_truediv (n d : Z) : spec_float :=
  SFdiv (prec float64) (emax float64)
        (float_of_int float64 n) (float_of_int float64 d).

Definition voice_not_found (voice_id : string) : exn :=
  ValueError ("Voice '" ++ voice_id ++ "' not found").

Definition synthesize (env : Env) (text voice_id : string)
  : M (list byte * Timing) :=
  start_time <- time env ;;
  '(ref_codes, ref_text) <- get_voice_data env voice_id ;;
  match ref_codes with
  | None => raise (voice_not_found voice_id)
  | Some ref_codes =>
      wav <- tts_infer text ref_codes
               (match ref_text with Some t => t | None => "" end) ;;
      now <- time env ;;
      let latency_ms := float_mul_int (float_sub now start_time) 1000 in
      wav_data <- lift (_numpy_to_wav wav 24000) ;;
      n <- lift (len wav) ;;
      let timing := {| latency_ms := latency_ms;
                       sample_rate := 24000;
                       duration_seconds := int_truediv n 24000 |} in
      ret (wav_data, timing)
  end.

Definition synthesize_streaming (env : Env) (text voice_id : string)
  : G unit :=
  (' (ref_codes, ref_text) <- glift (get_voice_data env voice_id) ;;
   match ref_codes with
   | None => graise (voice_not_found voice_id)
   | Some ref_codes =>
       gtry_except is_AttributeError
         (' (chunks, stop) <-
            glift (tts_infer_stream text ref_codes
                     (match ref_text with Some t => t | None => "" end)) ;;
          gfor_each chunks stop
            (fun chunk =>
               let audio := quantize_array chunk in
               gyield (int16_tobytes audio)))
         (' (wav, timing) <- glift (synthesize env text voice_id) ;;
          gyield wav)
   end)%gen.

Definition is_initialized : M bool :=
  s <- get ;;
  ret (match tts s with Some _ => true | None => false end).
End Service.

(* ================================================================== *)
(** * [server.py]: the OpenAI-compatible speech endpoint *)

(** [models.OpenAISpeechRequest] *)
Record OpenAISpeechRequest : Type := {
  model : string;
  input : string;
  voice : string;
  instructions : option string;
  response_format : option string;
  speed : option spec_float
}.

Record StreamingResponse : Type := {
  body : list (list byte);
  media_type : string;
  headers : list (string * string)
}.

(** What the endpoint uses of pydub and of Python's number formatting:
    [AudioSegment.from_wav(...)] followed by the conversion to raw 24 kHz
    mono 16-bit PCM, or by [export] with a format and a bitrate, and
    [f"{x:.2f}"]. *)
Record ServerLib : Type := {
  pydub_raw_pcm : list byte -> result (list byte);
  pydub_export : list byte -> string -> option string -> result (list byte);
  format_2f : spec_float -> string
}.

(** [d.get(k, default)] *)
Definition dict_get_default {V : Type} (d : dict V) (k : string) (default : V)
  : V :=
  match dict_get d k with
  | Some v => v
  | None => default
  end.

(** [sep.join(l)] *)
Fixpoint str_join (sep : string) (l : list string) : string :=
  match l with
  | [] => ""
  | [x] => x
  | x :: r => (x ++ sep ++ str_join sep r)%string
  end.

Definition voice_mapping : dict string :=
  [("greta", "greta"); ("mateo", "mateo"); ("juliette", "juliette");
   ("coral", "greta"); ("dave", "greta")].

Definition format_map : dict string :=
  [("mp3", "mp3"); ("opus", "opus"); ("aac", "aac"); ("flac", "flac");
   ("wav", "wav")].

Definition media_types : dict string :=
  [("mp3", "audio/mpeg"); ("opus", "audio/opus"); ("aac", "audio/aac");
   ("flac", "audio/flac"); ("wav", "audio/wav")].

Section Server.
Variable cfg : Config.
Variable lib : ServerLib.

(** What the endpoint does once the voice id is validated: the [try]
    block and its handler. *)
Definition speech_response (env : Env) (request : OpenAISpeechRequest)
    (voice_id : string) : M StreamingResponse :=
  try_except
    (' (wav_data, timing) <- synthesize cfg env (input request) voice_id ;;
     if match response_format request with
        | Some f => String.eqb f "pcm"
        | None => false
        end
     then
       pcm_data <- lift (pydub_raw_pcm lib wav_data) ;;
       ret {| body := [pcm_data];
              media_type := "audio/pcm";
              headers := [("Content-Disposition",
                           "attachment; filename=speech.pcm")] |}
     else
       let export_format :=
         match response_format request with
         | Some f => dict_get_default format_map f "mp3"
         | None => "mp3"
         end in
       let bitrate :=
         if negb (String.eqb export_format "wav") then Some "128k"
         else None in
       final_audio <-
         lift (pydub_export lib wav_data export_format bitrate) ;;
       let media_type :=
         dict_get_default media_types export_format "audio/mpeg" in
       ret {| body := [final_audio];
              media_type := media_type;
              headers :=
                [("Content-Disposition",
                  ("attachment; filename=speech." ++ export_format)%string);
                 ("X-Audio-Latency",
                  (format_2f lib (latency_ms timing) ++ "ms")%string)] |})
    (fun e =>
       raise (HTTPException 500
                ("Speech synthesis failed: " ++ exn_message e))).

Definition openai_speech (env : Env) (request : OpenAISpeechRequest)
  : M StreamingResponse :=
  initialized <- is_initialized ;;
  (if negb initialized then initialize_tts cfg env else ret tt) ;;
  let voice_id :=
    dict_get_default voice_mapping (voice request) (voice request) in
  s <- get ;;
  if negb (dict_mem voice_id (voice_cache s)) then
    let available := str_join ", " (dict_keys (voice_cache s)) in
    raise (HTTPException 404
             ("Voice '" ++ voice request ++
              "' not found. Available voices: " ++ available))
  else speech_response env request voice_id.
End Server.

(* ================================================================== *)
(** * [server.py]: the other endpoints *)

(** [models.TextRequest] *)
Module TextRequest.
Record t : Type := {
  text : string;
  ref_audio : option string;
  ref_text : option string
}.
End TextRequest.

(** [models.VoiceListItem] *)
Module VoiceListItem.
Record t : Type := {
  voice_id : string;
  name : string;
  language : string;
  has_reference : bool
}.
End VoiceListItem.

(** The dictionary [health_check] returns. *)
Record Health : Type := {
  status : string;
  tts_initialized : bool;
  available_voices : list string
}.

(** The dictionary [reload_voices] returns. *)
Record ReloadResult : Type := {
  success : bool;
  reloaded_voices : list string
}.

(** The dictionary [synthesize_speech] returns. *)
Record SynthesizeResult : Type := {
  audio : string;
  format : string;
  result_sample_rate : Z;
  timing : Timing
}.

(** What these endpoints use of the libraries: [base64.b64encode] followed
    by [.decode("utf-8")], and what [str()] gives on an [HTTPException]
    with a status code and a detail (it depends on the version of the web
    framework). *)
Record EndpointLib : Type := {
  b64encode : list byte -> string;
  str_HTTPException : Z -> string -> string
}.

(** The truth value of an [Optional[str]]: [None] and the empty string
    are false. *)
Definition truthy (o : option string) : bool :=
  match o with
  | Some v => negb (String.eqb v "")
  | None => false
  end.

Definition custom_reference_unsupported : string :=
  "Custom reference audio not yet supported via this endpoint. Use /v1/audio/speech with a registered voice.".

Section Endpoints.
Variable cfg : Config.
Variable lib : EndpointLib.

(** [str(e)] in the handler of [synthesize_speech]. *)
Definition str_exn (e : exn) : string :=
  match e with
  | HTTPException code detail => str_HTTPException lib code detail
  | _ => exn_message e
  end.

(** [startup_event] *)
Definition startup_event (env : Env) : M unit :=
  initialize_tts cfg env.

(** [health_check] *)
Definition health_check : M Health :=
  initialized <- is_initialized ;;
  available <- get_available_voices ;;
  ret {| status := "healthy";
         tts_initialized := initialized;
         available_voices := dict_keys available |}.

(** [list_voices]: the loop appends one item per available voice. *)
Definition list_voices : M (list VoiceListItem.t) :=
  available <- get_available_voices ;;
  ret (fold_left
         (fun voices_list kv =>
            voices_list ++
            [ {| VoiceListItem.voice_id := fst kv;
                 VoiceListItem.name := info_name (snd kv);
                 VoiceListItem.language := "de";
                 VoiceListItem.has_reference :=
                   info_has_ref_text (snd kv) |} ])
         available []).

(** [synthesize_speech] *)
Definition synthesize_speech (env : Env) (request : TextRequest.t)
  : M SynthesizeResult :=
  initialized <- is_initialized ;;
  (if negb initialized then initialize_tts cfg env else ret tt) ;;
  try_except
    (voice_id <-
       (if truthy (TextRequest.ref_audio request)
        then raise (HTTPException 400 custom_reference_unsupported)
        else ret "greta") ;;
     ' (wav_data, timing) <-
       synthesize cfg env (TextRequest.text request) voice_id ;;
     ret {| audio := b64encode lib wav_data;
            format := "wav";
            result_sample_rate := 24000;
            timing := timing |})
    (fun e => raise (HTTPException 500 (str_exn e))).

(** [reload_voices] *)
Definition reload_voices (env : Env) : M ReloadResult :=
  voices <- reload_custom_voices cfg env ;;
  ret {| success := true; reloaded_voices := voices |}.
End Endpoints.

(** A speech request that differs in the response format only. *)
Definition with_format (f : option string) (r : OpenAISpeechRequest)
  : OpenAISpeechRequest :=
  {| model := model r; input := input r; voice := voice r;
     instructions := instructions r;
     response_format := f; speed := speed r |}.

(** The formats the speech endpoint knows by name. *)
Definition known_formats : list string :=
  ["pcm"; "mp3"; "opus"; "aac"; "flac"; "wav"].


(* ================================================================== *)
(** * Reading a WAV header back *)

Definition bytes_at (off n : nat) (h : list byte) : list byte :=
  firstn n (skipn off h).

Definition u32_at (off : nat) (h : list byte) : Z :=
  le_decode (bytes_at off 4 h).

Definition u16_at (off : nat) (h : list byte) : Z :=
  le_decode (bytes_at off 2 h).

Fixpoint bytes_eqb (a b : list byte) : bool :=
  match a, b with
  | [], [] => true
  | x :: a', y :: b' => Byte.eqb x y && bytes_eqb a' b'
  | _, _ => false
  end.

(** The numeric fields of the canonical 44-byte RIFF/WAVE header. *)
Record WavFields : Type := {
  riff_size : Z;
  fmt_size : Z;
  audio_format : Z;
  channels : Z;
  rate : Z;
  byte_rate : Z;
  block_align : Z;
  bits : Z;
  data_bytes : Z
}.

(** A reader of the canonical header: the four tags at their offsets and
    the little-endian fields between them. *)
Definition parse_wav_header (h : list byte) : option WavFields :=
  if (44 <=? List.length h)%nat
     && bytes_eqb (bytes_at 0 4 h) (list_byte_of_string "RIFF")
     && bytes_eqb (bytes_at 8 4 h) (list_byte_of_string "WAVE")
     && bytes_eqb (bytes_at 12 4 h) (list_byte_of_string "fmt ")
     && bytes_eqb (bytes_at 36 4 h) (list_byte_of_string "data")
  then Some {| riff_size := u32_at 4 h;
               fmt_size := u32_at 16 h;
               audio_format := u16_at 20 h;
               channels := u16_at 22 h;
               rate := u32_at 24 h;
               byte_rate := u32_at 28 h;
               block_align := u16_at 32 h;
               bits := u16_at 34 h;
               data_bytes := u32_at 40 h |}
  else None.

(** A reader of raw 16-bit samples: each group of two bytes, low byte
    first, as a signed integer in two's complement. *)
Fixpoint read_int16s (bs : list byte) : list Z :=
  match bs with
  | lo :: hi :: r =>
      let u := Z_of_byte lo + 256 * Z_of_byte hi in
      (if u <? 2 ^ 15 then u else u - 2 ^ 16) :: read_int16s r
  | _ => []
  end.

(** The design document's quantization, [round(sample * 32767)]: the
    nearest integer, ties to even, of a finite float. *)
Definition SFround (x : spec_float) : option Z :=
  match x with
  | S754_zero _ => Some 0
  | S754_finite s m e =>
      let a := match e with
               | Z0 => Zpos m
               | Zpos _ => Zpos m * 2 ^ e
               | Zneg _ =>
                   let q := Zpos m / 2 ^ (- e) in
                   let r := Zpos m mod 2 ^ (- e) in
                   match 2 * r ?= 2 ^ (- e) with
                   | Lt => q
                   | Eq => if Z.even q then q else q + 1
                   | Gt => q + 1
                   end
               end in
      Some (if s then - a else a)
  | _ => None
  end.

(* ================================================================== *)
(** * Vocabulary for the properties of the voice cache *)

(** The voice id [_scan_custom_voices] derives from a path, and the
    transcript it looks for. *)
Definition stem (p : string) : string :=
  fst (os_path_splitext (os_path_basename p)).

Definition txt_of (p : string) : string :=
  (fst (os_path_splitext p) ++ ".txt")%string.

(** What the [try] block of the custom scan computes for a path: the
    encoding and the transcript, or the exception that makes the scan skip
    the file.  It depends on the engine and the file system only. *)
Definition custom_load (env : Env) (t : option NeuTTS) (p : string)
  : result (list Z * string) :=
  match t with
  | None => Raise (NoneType_has_no "encode_reference")
  | Some engine =>
      let? c := encode_reference engine env p in
      if path_exists env (txt_of p)
      then let? content := read_text env (txt_of p) in
           Ok (c, str_strip content)
      else Ok (c, "")
  end.

Definition custom_entry (p : string) (id : nat) (ct : list Z * string)
  : VoiceEntry :=
  {| ref_codes := {| obj_id := id; codes := fst ct |};
     ref_text := snd ct;
     wav_path := p;
     is_builtin := false;
     name := ("Custom voice: " ++ stem p)%string |}.

Definition is_glob (ev : event) : bool :=
  match ev with EvGlob _ => true | _ => false end.

(** Number of directory listings in a sequence of calls. *)
Definition count_globs (evs : list event) : nat :=
  List.length (filter is_glob evs).

(** [grows n s s']: from [s] to [s'] the engine and the clock are the same, the cache
    was only extended at its end, and the calls made in between contain
    [n] directory listings and encode no file whose id was cached in
    [s]. *)
Definition grows (n : nat) (s s' : State) : Prop :=
  tts s' = tts s /\
  clock_reads s' = clock_reads s /\
  (exists added, voice_cache s' = voice_cache s ++ added) /\
  (exists evs,
     trace s' = trace s ++ evs /\
     count_globs evs = n /\
     forall q, In (EvEncode q) evs ->
               dict_mem (stem q) (voice_cache s) = false).

(** The state after further calls to the collaborators. *)
Definition add_events (evs : list event) (s : State) : State :=
  {| tts := tts s; voice_cache := voice_cache s; next_id := next_id s;
     clock_reads := clock_reads s; trace := trace s ++ evs |}.

(** The state after one more clock reading. *)
Definition tick (s : State) : State :=
  {| tts := tts s; voice_cache := voice_cache s; next_id := next_id s;
     clock_reads := S (clock_reads s); trace := trace s |}.

Definition voices_pattern (cfg : Config) : string :=
  os_path_join (VOICES_DIR cfg) "*.wav".

(** The design document's EngineNotReady outcome: a failure of its own
    kind, told apart from the failure of a missed lookup and from the
    [AttributeError] of a call on [None]. *)
Definition reports_engine_not_ready {A : Type} (voice_id : string)
    (r : result A) : Prop :=
  exists e, r = Raise e /\
            e <> ValueError ("Voice '" ++ voice_id ++ "' not found") /\
            is_AttributeError e = false.

(** The three files [_load_builtin_samples] looks at for a built-in. *)
Definition builtin_wav (cfg : Config) (f : string) : string :=
  os_path_join (SAMPLES_DIR cfg) (f ++ ".wav")%string.

Definition builtin_txt (cfg : Config) (f : string) : string :=
  os_path_join (SAMPLES_DIR cfg) (f ++ ".txt")%string.

Definition builtin_pt (cfg : Config) (f : string) : string :=
  os_path_join (SAMPLES_DIR cfg) (f ++ ".pt")%string.

Definition builtin_entry (cfg : Config) (v f : string) (rc : Tensor)
    (t : string) : VoiceEntry :=
  {| ref_codes := rc;
     ref_text := t;
     wav_path := builtin_wav cfg f;
     is_builtin := true;
     name := ("German " ++ str_title v ++ " (built-in)")%string |}.

(** What an iteration of [_load_builtin_samples] stores for a sample
    whose wav encodes to [c]: the encoding and transcript of the entry, or
    nothing when reading the transcript or the serialized encoding
    raises. *)
Definition builtin_contents (cfg : Config) (env : Env) (f : string)
    (c : list Z) : option (list Z * string) :=
  if path_exists env (builtin_txt cfg f)
  then match read_text env (builtin_txt cfg f) with
       | Ok content => Some (c, str_strip content)
       | Raise _ => None
       end
  else if path_exists env (builtin_pt cfg f)
  then match torch_load env (builtin_pt cfg f) with
       | Ok c' => Some (c', "")
       | Raise _ => None
       end
  else Some (c, "").

(** The bytes [synthesize_streaming] yields for a chunk. *)
Definition chunk_bytes (chunk : ndarray) : list byte :=
  int16_tobytes (quantize_array chunk).

(** What a generator that falls back to [synthesize] produces from the
    outcome of that call, after having yielded [yielded]. *)
Definition fallback_outcome {T : Type} (yielded : list (list byte))
    (r : result (list byte * T) * State)
  : list (list byte) * result unit * State :=
  match r with
  | (Ok (wav, _), s) => (yielded ++ [wav], Ok tt, s)
  | (Raise e, s) => (yielded, Raise e, s)
  end.

(** The voice id the speech endpoint uses for a requested name. *)
Definition mapped_voice (requested : string) : string :=
  dict_get_default voice_mapping requested requested.

(** The 404 of the speech endpoint. *)
Definition voice_404 (requested : string) (cache : dict VoiceEntry) : exn :=
  HTTPException 404
    ("Voice '" ++ requested ++ "' not found. Available voices: "
     ++ str_join ", " (dict_keys cache)).

(** A request that differs in the requested voice only. *)
Definition with_voice (v : string) (r : OpenAISpeechRequest)
  : OpenAISpeechRequest :=
  {| model := model r; input := input r; voice := v;
     instructions := instructions r;
     response_format := response_format r; speed := speed r |}.

(** The calls a client can make on the service object. *)
Inductive call : Type :=
| CallInitialize (env : Env)
| CallReload (env : Env)
| CallAvailable
| CallIsInitialized
| CallLookup (env : Env) (voice_id : string)
| CallSynthesize (env : Env) (text voice_id : string)
| CallStream (env : Env) (text voice_id : string).

Definition exec_call (cfg : Config) (c : call) (s : State) : State :=
  match c with
  | CallInitialize env => snd (initialize_tts cfg env s)
  | CallReload env => snd (reload_custom_voices cfg env s)
  | CallAvailable => snd (get_available_voices s)
  | CallIsInitialized => snd (is_initialized s)
  | CallLookup env voice_id => snd (get_voice_data cfg env voice_id s)
  | CallSynthesize env text voice_id =>
      snd (synthesize cfg env text voice_id s)
  | CallStream env text voice_id =>
      snd (synthesize_streaming cfg env text voice_id s)
  end.

(** The state of the service object after a sequence of calls on it,
    whatever each of them returned or raised. *)
Definition run_calls (cfg : Config) (calls : list call) (s : State)
  : State :=
  fold_left (fun s c => exec_call cfg c s) calls s.

(** [keeps_service s s']: the engine of [s'] is the one of [s], and
    without an engine the cache is the same too. *)
Definition keeps_service (s s' : State) : Prop :=
  tts s' = tts s /\
  (tts s = None -> voice_cache s' = voice_cache s).

(** Until the engine is constructed the cache is empty. *)
Definition empty_until_initialized (s : State) : Prop :=
  tts s = None -> voice_cache s = [].

(** What the listing shows of a cache entry. *)
Definition voice_info (e : VoiceEntry) : VoiceInfo :=
  {| info_name := name e;
     info_is_builtin := is_builtin e;
     info_has_ref_text := negb (String.eqb (ref_text e) "") |}.

Definition voice_item (kv : string * VoiceEntry) : VoiceListItem.t :=
  {| VoiceListItem.voice_id := fst kv;
     VoiceListItem.name := name (snd kv);
     VoiceListItem.language := "de";
     VoiceListItem.has_reference :=
       negb (String.eqb (ref_text (snd kv)) "") |}.

(** The shape of the entry cached under an id: a built-in is one of the
    samples of [builtin_voices], a custom voice carries the id its file
    name gives. *)
Definition entry_of (cfg : Config) (k : string) (e : VoiceEntry) : Prop :=
  if is_builtin e
  then exists f, In (k, f) builtin_voices /\
                 wav_path e = builtin_wav cfg f /\
                 name e = ("German " ++ str_title k ++ " (built-in)")%string
  else stem (wav_path e) = k /\
       name e = ("Custom voice: " ++ k)%string.

(** A cache with one entry per id, each of the shape of its id. *)
Definition cache_ok (cfg : Config) (d : dict VoiceEntry) : Prop :=
  NoDup (dict_keys d) /\ forall k e, In (k, e) d -> entry_of cfg k e.

(** [c not in s] *)
Definition no_char (c : ascii) (s : string) : bool :=
  string_forallb (fun a => negb (ascii_eqb a c)) s.

(** A name that consists of dots only (the empty name included). *)
Definition all_dots (s : string) : bool :=
  string_forallb (fun a => ascii_eqb a ".") s.

(** The operations that read or extend the cache after start-up. *)
Inductive op : Type :=
| OpScan (env : Env)
| OpReload (env : Env)
| OpLookup (env : Env) (voice_id : string).

Definition exec_op (cfg : Config) (o : op) (s : State) : State :=
  match o with
  | OpScan env => snd (_scan_custom_voices cfg env s)
  | OpReload env => snd (reload_custom_voices cfg env s)
  | OpLookup env voice_id => snd (get_voice_data cfg env voice_id s)
  end.

Definition run_ops (cfg : Config) (ops : list op) (s : State) : State :=
  fold_left (fun s o => exec_op cfg o s) ops s.

(* ================================================================== *)
(** * Concrete scenarios *)

Definition string_in (p : string) (l : list string) : bool :=
  existsb (String.eqb p) l.

Definition cfg0 : Config :=
  {| VOICES_DIR := "/app/voices"; SAMPLES_DIR := "/app/samples" |}.

(** A file system with two built-in samples (greta with transcript and
    serialized encoding, mateo with a serialized encoding only) and a
    custom directory holding a file that collides with a built-in, a good
    voice and a file the engine cannot read. *)
Definition fs0 : FileSystem :=
  {| path_exists := fun p =>
       string_in p ["/app/samples/greta.wav"; "/app/samples/greta.txt";
                    "/app/samples/greta.pt"; "/app/samples/mateo.wav";
                    "/app/samples/mateo.pt"; "/app/voices";
                    "/app/voices/greta.wav"; "/app/voices/anna.wav";
                    "/app/voices/anna.txt"; "/app/voices/bad.wav"];
     glob_glob := fun pat =>
       if String.eqb pat "/app/voices/*.wav"
       then ["/app/voices/greta.wav"; "/app/voices/anna.wav";
             "/app/voices/bad.wav"]
       else [];
     read_text := fun p =>
       if String.eqb p "/app/samples/greta.txt" then Ok " Guten Tag "
       else if String.eqb p "/app/voices/anna.txt" then Ok "Hallo"
       else Raise (OSError "No such file or directory");
     torch_load := fun p =>
       if string_in p ["/app/samples/greta.pt"; "/app/samples/mateo.pt"]
       then Ok [7; 7; 7]
       else Raise (OSError "No such file or directory") |}.

(** The same file system after [/app/voices/otto.wav] has been added. *)
Definition fs1 : FileSystem :=
  {| path_exists := fun p =>
       String.eqb p "/app/voices/otto.wav" || path_exists fs0 p;
     glob_glob := fun pat =>
       if String.eqb pat "/app/voices/*.wav"
       then glob_glob fs0 pat ++ ["/app/voices/otto.wav"]
       else [];
     read_text := read_text fs0;
     torch_load := torch_load fs0 |}.

Definition half32 : spec_float := S754_finite false 8388608 (-24).
Definition one_and_half32 : spec_float := S754_finite false 12582912 (-23).

Definition wav0 : ndarray :=
  {| arr_dtype := float32; shape := [2%nat];
     data := [half32; one_and_half32] |}.

(** An engine without incremental inference: it encodes every file but
    [bad.wav] (to the length of its path) and always infers [wav0]. *)
Definition engine0 : NeuTTS :=
  {| encode_reference := fun _ p =>
       if String.eqb p "/app/voices/bad.wav"
       then Raise (RuntimeError "could not decode audio")
       else Ok [Z.of_nat (String.length p)];
     infer := fun _ _ _ => Ok wav0;
     infer_stream := None |}.

(** The same engine with a streaming method that fails on invocation
    with an error other than [AttributeError]. *)
Definition engine_failing_stream : NeuTTS :=
  {| encode_reference := encode_reference engine0;
     infer := infer engine0;
     infer_stream :=
       Some (fun _ _ _ => ([], Some (RuntimeError "stream failed"))) |}.

(** The same engine with a streaming method producing two chunks. *)
Definition engine_streaming : NeuTTS :=
  {| encode_reference := encode_reference engine0;
     infer := infer engine0;
     infer_stream :=
       Some (fun _ _ _ =>
               ([ {| arr_dtype := float32; shape := [1%nat];
                     data := [half32] |};
                  {| arr_dtype := float32; shape := [1%nat];
                     data := [one_and_half32] |} ], None)) |}.

Definition clock0 (n : nat) : spec_float :=
  float_of_int float64 (1700000000 + Z.of_nat n).

Definition env_of (f : FileSystem) (engine : NeuTTS) : Env :=
  {| fs := f; NeuTTS_new := Ok engine; time_time := clock0 |}.

Definition env0 : Env := env_of fs0 engine0.
Definition env1 : Env := env_of fs1 engine0.

(** The service after a successful start-up in [env0]. *)
Definition started0 : State := snd (initialize_tts cfg0 env0 TTSService_init).

(** A service whose engine has just been constructed. *)
Definition ready0 : State :=
  {| tts := Some engine0; voice_cache := []; next_id := 0%nat;
     clock_reads := 0%nat; trace := [] |}.

(** The started service with another engine object. *)
Definition with_engine (engine : NeuTTS) (s : State) : State :=
  {| tts := Some engine; voice_cache := voice_cache s;
     next_id := next_id s; clock_reads := clock_reads s;
     trace := trace s |}.

Definition anna_codes : Tensor := {| obj_id := 3; codes := [20] |}.

(** An audio library that passes the samples through. *)
Definition lib0 : ServerLib :=
  {| pydub_raw_pcm := fun w => Ok (skipn 44 w);
     pydub_export := fun w _ _ => Ok w;
     format_2f := fun _ => "1000.00" |}.

Definition coral_request : OpenAISpeechRequest :=
  {| model := "gpt-4o-mini-tts"; input := "Hallo"; voice := "coral";
     instructions := None; response_format := Some "wav";
     speed := None |}.

(** The two samples of [wav0] as an array of one row. *)
Definition wav_row : ndarray :=
  {| arr_dtype := float32; shape := [1%nat; 2%nat];
     data := [half32; one_and_half32] |}.

(** An engine whose inference returns a 2-dimensional array. *)
Definition engine_row : NeuTTS :=
  {| encode_reference := encode_reference engine0;
     infer := fun _ _ _ => Ok wav_row;
     infer_stream := None |}.

(** An environment in which constructing the engine fails. *)
Definition env_no_engine : Env :=
  {| fs := fs0;
     NeuTTS_new := Raise (RuntimeError "could not load the model");
     time_time := clock0 |}.

(** A start-up that fails, then a reload and a synthesis attempt. *)
Definition calls_failed_start : list call :=
  [CallInitialize env_no_engine; CallReload env0;
   CallSynthesize env0 "Hallo" "anna"].

(** An environment without the custom voices directory. *)
Definition fs_no_dir : FileSystem :=
  {| path_exists := fun p =>
       negb (String.eqb p "/app/voices") && path_exists fs0 p;
     glob_glob := fun _ => [];
     read_text := read_text fs0;
     torch_load := torch_load fs0 |}.

Definition env_no_dir : Env := env_of fs_no_dir engine0.

(** The chunks [engine_streaming] produces. *)
Definition stream_chunks0 : list ndarray :=
  [ {| arr_dtype := float32; shape := [1%nat]; data := [half32] |};
    {| arr_dtype := float32; shape := [1%nat];
       data := [one_and_half32] |} ].

(** A speech request for a format the endpoint does not know. *)
Definition ogg_request : OpenAISpeechRequest :=
  {| model := "gpt-4o-mini-tts"; input := "Hallo"; voice := "greta";
     instructions := None; response_format := Some "ogg";
     speed := None |}.

(** Libraries for the other endpoints: a stand-in for base64 and the
    [str()] of the current web framework, "<status>: <detail>". *)
Definition endpoint_lib0 : EndpointLib :=
  {| b64encode := fun w => string_of_list_byte w;
     str_HTTPException := fun code detail =>
       ((if Z.eqb code 400 then "400: " else "error: ") ++ detail)%string |}.

Definition upload_request : TextRequest.t :=
  {| TextRequest.text := "Hallo";
     TextRequest.ref_audio := Some "/tmp/me.wav";
     TextRequest.ref_text := Some "Ich bin es" |}.

Definition plain_request : TextRequest.t :=
  {| TextRequest.text := "Hallo";
     TextRequest.ref_audio := Some "";
     TextRequest.ref_text := Some "Ich bin es" |}.

(** The request of [coral_request] with another model, instructions and
    a speed. *)
Definition fast_coral_request : OpenAISpeechRequest :=
  {| model := "tts-1-hd"; input := "Hallo"; voice := "coral";
     instructions := Some "Sprich schnell";
     response_format := response_format coral_request;
     speed := Some one_and_half32 |}.

(** A request for the voice of the file added in [fs1]. *)
Definition otto_request : OpenAISpeechRequest :=
  with_voice "otto" coral_request.

(** A reload after a file was added, a lookup of the new voice and one
    more scan of the old directory. *)
Definition ops0 : list op :=
  [OpReload env1; OpLookup env1 "otto"; OpScan env0].

Definition greta0 : VoiceEntry :=
  {| ref_codes := {| obj_id := 0; codes := [22] |};
     ref_text := "Guten Tag";
     wav_path := "/app/samples/greta.wav";
     is_builtin := true;
     name := "German Greta (built-in)" |}.

(** The fields that [_create_wav_header] must fit into their widths. *)
Definition header_fields_fit (sr ch bps ds : Z) : Prop :=
  0 <= ds /\ 36 + ds < 2 ^ 32 /\
  0 <= ch < 2 ^ 16 /\
  0 <= sr < 2 ^ 32 /\
  0 <= sr * ch * bps / 8 < 2 ^ 32 /\
  0 <= ch * bps / 8 < 2 ^ 16 /\
  0 <= bps < 2 ^ 16.

(* ================================================================== *)
(** * Facts about bytes and [struct.pack] *)

Lemma Z_of_byte_of_Z (z : Z) : Z_of_byte (byte_of_Z z) = z mod 256.
Proof.
  unfold Z_of_byte, byte_of_Z.
  assert (Hr : 0 <= z mod 256 < 256) by (apply Z.mod_pos_bound; lia).
  destruct (Byte.of_N (Z.to_N (z mod 256))) as [b|] eqn:E.
  - apply Byte.to_of_N in E. rewrite E. lia.
  - apply Byte.of_N_None_iff in E. lia.
Qed.

Lemma length_le_bytes (n : nat) (v : Z) : List.length (le_bytes n v) = n.
Proof.
  revert v. induction n as [|n IH]; intro v; simpl; [reflexivity|].
  now rewrite IH.
Qed.

Lemma le_decode_le_bytes (n : nat) (v : Z) :
  le_decode (le_bytes n v) = v mod 2 ^ (8 * Z.of_nat n).
Proof.
  revert v. induction n as [|n IH]; intro v.
  - simpl. now rewrite Z.mod_1_r.
  - cbn [le_bytes le_decode]. rewrite Z_of_byte_of_Z, IH.
    replace (8 * Z.of_nat (S n)) with (8 + 8 * Z.of_nat n) by lia.
    rewrite Z.pow_add_r by lia.
    change (2 ^ 8) with 256.
    rewrite Z.rem_mul_r by (try apply Z.pow_pos_nonneg; lia).
    reflexivity.
Qed.

Lemma le_decode_le_bytes_small (n : nat) (v : Z) :
  0 <= v < 2 ^ (8 * Z.of_nat n) -> le_decode (le_bytes n v) = v.
Proof.
  intro H. rewrite le_decode_le_bytes. now apply Z.mod_small.
Qed.

Lemma struct_pack_I_ok (v : Z) :
  0 <= v < 2 ^ 32 -> struct_pack_I v = Ok (le_bytes 4 v).
Proof.
  intro H. unfold struct_pack_I.
  destruct (0 <=? v) eqn:E1; destruct (v <? 2 ^ 32) eqn:E2;
    try reflexivity; lia.
Qed.

Lemma struct_pack_H_ok (v : Z) :
  0 <= v < 2 ^ 16 -> struct_pack_H v = Ok (le_bytes 2 v).
Proof.
  intro H. unfold struct_pack_H.
  destruct (0 <=? v) eqn:E1; destruct (v <? 2 ^ 16) eqn:E2;
    try reflexivity; lia.
Qed.

Lemma struct_pack_I_raises (v : Z) :
  2 ^ 32 <= v -> exists e, struct_pack_I v = Raise e.
Proof.
  intro H. unfold struct_pack_I.
  destruct (v <? 2 ^ 32) eqn:E; [lia|].
  rewrite andb_false_r.
  destruct ((0 <=? v) && (v <? 2 ^ 64)); eauto.
Qed.

Lemma struct_pack_I_cases (v : Z) :
  (0 <= v < 2 ^ 32 /\ struct_pack_I v = Ok (le_bytes 4 v)) \/
  (~ 0 <= v < 2 ^ 32 /\ exists m, struct_pack_I v = Raise (StructError m)).
Proof.
  unfold struct_pack_I.
  destruct (0 <=? v) eqn:E1; destruct (v <? 2 ^ 32) eqn:E2; cbn [andb];
    try apply Z.leb_le in E1; try apply Z.leb_gt in E1;
    try apply Z.ltb_lt in E2; try apply Z.ltb_ge in E2;
    solve [left; split; [lia|reflexivity]
          |right; split; [lia|destruct (v <? 2 ^ 64); eauto]].
Qed.

Lemma struct_pack_H_cases (v : Z) :
  (0 <= v < 2 ^ 16 /\ struct_pack_H v = Ok (le_bytes 2 v)) \/
  (~ 0 <= v < 2 ^ 16 /\ exists m, struct_pack_H v = Raise (StructError m)).
Proof.
  unfold struct_pack_H.
  destruct (0 <=? v) eqn:E1; destruct (v <? 2 ^ 16) eqn:E2; cbn [andb];
    try apply Z.leb_le in E1; try apply Z.leb_gt in E1;
    try apply Z.ltb_lt in E2; try apply Z.ltb_ge in E2;
    solve [left; split; [lia|reflexivity]
          |right; split;
           [lia|destruct ((- 2 ^ 63 <=? v) && (v <? 2 ^ 63)); eauto]].
Qed.

Lemma create_wav_header_bytes (sr ch bps ds : Z) :
  header_fields_fit sr ch bps ds ->
  _create_wav_header sr ch bps ds =
  Ok (list_byte_of_string "RIFF" ++ le_bytes 4 (36 + ds)
      ++ list_byte_of_string "WAVE" ++ list_byte_of_string "fmt "
      ++ le_bytes 4 16 ++ le_bytes 2 1 ++ le_bytes 2 ch ++ le_bytes 4 sr
      ++ le_bytes 4 (sr * ch * bps / 8) ++ le_bytes 2 (ch * bps / 8)
      ++ le_bytes 2 bps ++ list_byte_of_string "data" ++ le_bytes 4 ds).
Proof.
  intros (Hds & Hriff & Hch & Hsr & Hbr & Hba & Hbps).
  unfold _create_wav_header.
  rewrite (struct_pack_I_ok (v := 36 + ds)) by lia.
  rewrite (struct_pack_I_ok (v := 16)) by lia.
  rewrite (struct_pack_H_ok (v := 1)) by lia.
  rewrite (struct_pack_H_ok (v := ch)) by lia.
  rewrite (struct_pack_I_ok (v := sr)) by lia.
  rewrite (struct_pack_I_ok (v := sr * ch * bps / 8)) by lia.
  rewrite (struct_pack_H_ok (v := ch * bps / 8)) by lia.
  rewrite (struct_pack_H_ok (v := bps)) by lia.
  rewrite (struct_pack_I_ok (v := ds)) by lia.
  cbn [rbind]. repeat rewrite <- app_assoc. reflexivity.
Qed.

Lemma create_wav_header_parses (sr ch bps ds : Z) :
  header_fields_fit sr ch bps ds ->
  exists h,
  _create_wav_header sr ch bps ds = Ok h /\
  List.length h = 44%nat /\
  forall payload,
    parse_wav_header (h ++ payload) =
    Some {| riff_size := 36 + ds; fmt_size := 16; audio_format := 1;
            channels := ch; rate := sr;
            byte_rate := sr * ch * bps / 8;
            block_align := ch * bps / 8;
            bits := bps; data_bytes := ds |}.
Proof.
  intros Hfit.
  eexists. split; [apply (create_wav_header_bytes Hfit)|].
  destruct Hfit as (Hds & Hriff & Hch & Hsr & Hbr & Hba & Hbps).
  split; [reflexivity|].
  intro payload.
  set (v1 := 36 + ds). set (v2 := sr * ch * bps / 8).
  set (v3 := ch * bps / 8).
  assert (H1 : 0 <= v1 < 2 ^ 32) by (subst v1; lia).
  assert (H2 : 0 <= v2 < 2 ^ 32) by (subst v2; lia).
  assert (H3 : 0 <= v3 < 2 ^ 16) by (subst v3; lia).
  clearbody v1 v2 v3.
  unfold parse_wav_header, u32_at, u16_at, bytes_at.
  cbn [le_bytes list_byte_of_string list_ascii_of_string map app
       List.length Nat.leb andb skipn firstn].
  repeat match goal with
  | |- context [le_decode [byte_of_Z ?a; byte_of_Z ?b; byte_of_Z ?c;
                           byte_of_Z ?d]] =>
      change [byte_of_Z a; byte_of_Z b; byte_of_Z c; byte_of_Z d]
        with (le_bytes 4 a);
      rewrite (@le_decode_le_bytes_small 4 a) by (simpl; lia)
  | |- context [le_decode [byte_of_Z ?a; byte_of_Z ?b]] =>
      change [byte_of_Z a; byte_of_Z b] with (le_bytes 2 a);
      rewrite (@le_decode_le_bytes_small 2 a) by (simpl; lia)
  end.
  reflexivity.
Qed.

(* ================================================================== *)
(** * The WAV encoder *)

Lemma length_int16_tobytes (l : list Z) :
  Z.of_nat (List.length (int16_tobytes l)) = 2 * Z.of_nat (List.length l).
Proof.
  induction l as [|v l IH]; [reflexivity|].
  change (int16_tobytes (v :: l))
    with (le_bytes 2 (v mod 2 ^ 16) ++ int16_tobytes l).
  rewrite length_app, length_le_bytes.
  cbn [List.length]. lia.
Qed.

Lemma quantize_array_flatten (a : ndarray) :
  quantize_array (flatten a) = quantize_array a.
Proof. reflexivity. Qed.

(** The bytes of int16 values read back as these values. *)
Lemma read_int16s_tobytes (l : list Z) :
  Forall (fun v => - 2 ^ 15 <= v < 2 ^ 15) l ->
  read_int16s (int16_tobytes l) = l.
Proof.
  induction 1 as [|v l Hv Hl IH]; [reflexivity|].
  change (int16_tobytes (v :: l))
    with (le_bytes 2 (v mod 2 ^ 16) ++ int16_tobytes l).
  set (w := v mod 2 ^ 16).
  assert (Hw : 0 <= w < 2 ^ 16) by (apply Z.mod_pos_bound; lia).
  assert (Hcases : (0 <= v /\ w = v) \/ (v < 0 /\ w = v + 2 ^ 16)).
  { destruct (Z_lt_le_dec v 0) as [Hneg|Hpos]; [right|left];
      (split; [lia|]); unfold w.
    - symmetry. apply Z.mod_unique with (q := - 1); lia.
    - apply Z.mod_small. lia. }
  pose proof (@le_decode_le_bytes_small 2 w) as Hdec.
  change (2 ^ (8 * Z.of_nat 2)) with (2 ^ 16) in Hdec.
  specialize (Hdec Hw).
  cbn [le_bytes le_decode app] in *.
  rewrite Z.mul_0_r, Z.add_0_r in Hdec.
  cbn [read_int16s]. cbv zeta. rewrite Hdec, IH.
  destruct (w <? 2 ^ 15) eqn:E;
    [apply Z.ltb_lt in E|apply Z.ltb_ge in E]; f_equal; lia.
Qed.

Lemma astype_int16_range (x : spec_float) :
  - 2 ^ 15 <= astype_int16 x < 2 ^ 15.
Proof.
  assert (Hwrap : forall z, - 2 ^ 15 <= wrap16 z < 2 ^ 15).
  { intro z. unfold wrap16.
    assert (0 <= (z + 2 ^ 15) mod 2 ^ 16 < 2 ^ 16)
      by (apply Z.mod_pos_bound; lia).
    lia. }
  unfold astype_int16.
  destruct (SFtrunc x) as [t|]; [|apply Hwrap].
  destruct ((- 2 ^ 31 <=? t) && (t <? 2 ^ 31)); apply Hwrap.
Qed.

(** The bytes of a quantized array read back as its samples. *)
Lemma read_quantized (a : ndarray) :
  read_int16s (int16_tobytes (quantize_array a)) = quantize_array a.
Proof.
  apply read_int16s_tobytes. unfold quantize_array.
  apply Forall_forall. intros v Hv. apply in_map_iff in Hv.
  destruct Hv as (x & <- & _). apply astype_int16_range.
Qed.

(** What [_numpy_to_wav] returns when the header fields fit: the header
    for mono 16-bit audio of [2 * size] bytes, then the samples. *)
Lemma numpy_to_wav_bytes (audio : ndarray) (sr : Z) :
  let ds := 2 * Z.of_nat (List.length (data audio)) in
  header_fields_fit sr 1 16 ds ->
  exists h,
    _create_wav_header sr 1 16 ds = Ok h /\
    List.length h = 44%nat /\
    _numpy_to_wav audio sr = Ok (h ++ int16_tobytes (quantize_array audio)) /\
    parse_wav_header (h ++ int16_tobytes (quantize_array audio)) =
    Some {| riff_size := 36 + ds; fmt_size := 16; audio_format := 1;
            channels := 1; rate := sr;
            byte_rate := sr * 1 * 16 / 8;
            block_align := 1 * 16 / 8;
            bits := 16; data_bytes := ds |}.
Proof.
  intros ds Hfit.
  destruct (create_wav_header_parses Hfit) as (h & Hh & Hlen & Hparse).
  exists h. repeat split; try assumption; [|apply Hparse].
  unfold _numpy_to_wav.
  assert (Hq : quantize_array
                 (if 1 <? ndim audio then flatten audio else audio)
               = quantize_array audio)
    by (destruct (1 <? ndim audio); reflexivity).
  rewrite Hq, length_int16_tobytes.
  unfold quantize_array at 1. rewrite length_map.
  fold ds. rewrite Hh. reflexivity.
Qed.

(** Beyond the 32-bit size field the encoder raises and returns
    nothing. *)
Lemma numpy_to_wav_too_long (audio : ndarray) (sr : Z) :
  2 ^ 32 <= 36 + 2 * Z.of_nat (List.length (data audio)) ->
  exists e, _numpy_to_wav audio sr = Raise e.
Proof.
  intro H. unfold _numpy_to_wav.
  assert (Hq : quantize_array
                 (if 1 <? ndim audio then flatten audio else audio)
               = quantize_array audio)
    by (destruct (1 <? ndim audio); reflexivity).
  rewrite Hq, length_int16_tobytes.
  unfold quantize_array at 1. rewrite length_map.
  unfold _create_wav_header.
  destruct (struct_pack_I_raises H) as (e & He).
  rewrite He. cbn [rbind]. eauto.
Qed.

(** ** C4 *)

(** C4.  When the fields fit their widths (the valid numeric inputs),
    [_create_wav_header] returns 44 bytes that read back as a RIFF/WAVE
    header with RIFF size [36 + dataSize], fmt chunk size 16, audio format
    1, the given channel count and sample rate, byte rate
    [sampleRate * channels * bitsPerSample / 8], block align
    [channels * bitsPerSample / 8], the given bits per sample and the data
    size; [_numpy_to_wav] returns that header for one channel of 16 bits
    with [dataSize = 2 * sampleCount], followed immediately by the sample
    bytes, which read back, two bytes per sample and low byte first, as
    the int16 samples in their order; and the empty buffer at 24000 Hz
    gives exactly 44 bytes with data size 0 and RIFF size 36. *)
Theorem wav_encoder_layout (audio : ndarray) (sr ch bps ds : Z) :
  header_fields_fit sr ch bps ds ->
  header_fields_fit sr 1 16 (2 * Z.of_nat (List.length (data audio))) ->
  (exists h,
     _create_wav_header sr ch bps ds = Ok h /\
     List.length h = 44%nat /\
     forall payload,
       parse_wav_header (h ++ payload) =
       Some {| riff_size := 36 + ds; fmt_size := 16; audio_format := 1;
               channels := ch; rate := sr;
               byte_rate := sr * ch * bps / 8;
               block_align := ch * bps / 8;
               bits := bps; data_bytes := ds |}) /\
  (exists h payload,
     List.length h = 44%nat /\
     _numpy_to_wav audio sr = Ok (h ++ payload) /\
     payload = int16_tobytes (quantize_array audio) /\
     Z.of_nat (List.length payload)
       = 2 * Z.of_nat (List.length (data audio)) /\
     read_int16s payload = quantize_array audio /\
     parse_wav_header (h ++ payload) =
     Some {| riff_size := 36 + 2 * Z.of_nat (List.length (data audio));
             fmt_size := 16; audio_format := 1;
             channels := 1; rate := sr;
             byte_rate := sr * 1 * 16 / 8;
             block_align := 2;
             bits := 16;
             data_bytes := 2 * Z.of_nat (List.length (data audio)) |}) /\
  (forall d,
     exists h,
       _numpy_to_wav {| arr_dtype := d; shape := [0%nat]; data := [] |} 24000
         = Ok h /\
       List.length h = 44%nat /\
       parse_wav_header h =
       Some {| riff_size := 36; fmt_size := 16; audio_format := 1;
               channels := 1; rate := 24000; byte_rate := 48000;
               block_align := 2; bits := 16; data_bytes := 0 |}).
Proof.
  intros Hfit Hfit1. split; [|split].
  - apply (create_wav_header_parses Hfit).
  - destruct (numpy_to_wav_bytes audio Hfit1) as (h & _ & Hlen & Hwav & Hp).
    exists h, (int16_tobytes (quantize_array audio)).
    repeat split; try assumption.
    + unfold quantize_array. rewrite length_int16_tobytes, length_map.
      reflexivity.
    + apply read_quantized.
  - intro d. eexists. split; [reflexivity|]. split; reflexivity.
Qed.

(* ================================================================== *)
(** * Quantization *)

Lemma wrap16_range (z : Z) : - 2 ^ 15 <= wrap16 z < 2 ^ 15.
Proof.
  unfold wrap16.
  assert (0 <= (z + 2 ^ 15) mod 2 ^ 16 < 2 ^ 16)
    by (apply Z.mod_pos_bound; lia).
  lia.
Qed.

Lemma wrap16_shift (z : Z) :
  wrap16 z = z - 2 ^ 16 * ((z + 2 ^ 15) / 2 ^ 16).
Proof.
  unfold wrap16.
  pose proof (Z.div_mod (z + 2 ^ 15) (2 ^ 16)) as H.
  lia.
Qed.

Lemma wrap16_congruent (z : Z) : (wrap16 z - z) mod 2 ^ 16 = 0.
Proof.
  rewrite wrap16_shift.
  replace (z - 2 ^ 16 * ((z + 2 ^ 15) / 2 ^ 16) - z)
    with ((- ((z + 2 ^ 15) / 2 ^ 16)) * 2 ^ 16) by lia.
  apply Z.mod_mul. lia.
Qed.

Lemma wrap16_in_range (z : Z) : - 2 ^ 15 <= z < 2 ^ 15 -> wrap16 z = z.
Proof.
  intro H. unfold wrap16. rewrite Z.mod_small; lia.
Qed.

Lemma wrap16_above (z : Z) :
  2 ^ 15 <= z < 2 ^ 15 + 2 ^ 16 -> wrap16 z = z - 2 ^ 16.
Proof.
  intro H. rewrite wrap16_shift.
  replace ((z + 2 ^ 15) / 2 ^ 16) with 1; [lia|].
  apply Z.div_unique with (r := z + 2 ^ 15 - 2 ^ 16); lia.
Qed.

Lemma wrap16_below (z : Z) :
  - 2 ^ 15 - 2 ^ 16 <= z < - 2 ^ 15 -> wrap16 z = z + 2 ^ 16.
Proof.
  intro H. rewrite wrap16_shift.
  replace ((z + 2 ^ 15) / 2 ^ 16) with (- 1); [lia|].
  apply Z.div_unique with (r := z + 2 ^ 15 + 2 ^ 16); lia.
Qed.

(** [SFtrunc] rounds toward zero: the result has the sign of the float and
    its magnitude is the integer part of the float's magnitude
    [m * 2^e], written here without fractions. *)
Lemma SFtrunc_toward_zero (s : bool) (m : positive) (e t : Z) :
  SFtrunc (S754_finite s m e) = Some t ->
  (if s then t <= 0 else 0 <= t) /\
  2 ^ Z.max (- e) 0 * Z.abs t <= Zpos m * 2 ^ Z.max e 0
    < 2 ^ Z.max (- e) 0 * (Z.abs t + 1).
Proof.
  intro H.
  pose (a := match e with
             | 0 => Z.pos m
             | Z.pos _ => Z.pos m * 2 ^ e
             | Z.neg _ => Z.pos m / 2 ^ (- e)
             end).
  assert (Ht : t = if s then - a else a)
    by (unfold SFtrunc in H; fold a in H; congruence).
  clear H.
  assert (Ha : 0 <= a /\
               2 ^ Z.max (- e) 0 * a <= Z.pos m * 2 ^ Z.max e 0
                 < 2 ^ Z.max (- e) 0 * (a + 1)).
  { subst a. destruct e as [|p|p].
    - cbn [Z.opp Z.max Z.compare]. change (2 ^ 0) with 1. lia.
    - assert (0 < 2 ^ Z.pos p) by (apply Z.pow_pos_nonneg; lia).
      replace (Z.max (- Z.pos p) 0) with 0 by lia.
      replace (Z.max (Z.pos p) 0) with (Z.pos p) by lia.
      change (2 ^ 0) with 1. nia.
    - assert (Hp : 0 < 2 ^ (- Z.neg p)) by (apply Z.pow_pos_nonneg; lia).
      replace (Z.max (- Z.neg p) 0) with (- Z.neg p) by lia.
      replace (Z.max (Z.neg p) 0) with 0 by lia.
      change (2 ^ 0) with 1.
      pose proof (Z.div_mod (Z.pos m) (2 ^ (- Z.neg p))) as Hd.
      pose proof (Z.mod_pos_bound (Z.pos m) (2 ^ (- Z.neg p)) Hp) as Hm.
      assert (0 <= Z.pos m / 2 ^ (- Z.neg p))
        by (apply Z.div_pos; lia).
      nia. }
  destruct Ha as (Ha0 & Ha1).
  clearbody a. subst t.
  destruct s.
  - rewrite Z.abs_opp, Z.abs_eq by lia. split; [lia|exact Ha1].
  - rewrite Z.abs_eq by lia. split; [lia|exact Ha1].
Qed.

(** The quantization of a finite product within the 32-bit range: the
    truncated value reduced to 16 bits. *)
Lemma quantize_trunc (d : dtype) (x : spec_float) (t : Z) :
  SFtrunc (mul_scalar d x 32767) = Some t ->
  - 2 ^ 31 <= t < 2 ^ 31 ->
  quantize d x = wrap16 t.
Proof.
  intros Ht Hr. unfold quantize, astype_int16. rewrite Ht.
  destruct (- 2 ^ 31 <=? t) eqn:E1; destruct (t <? 2 ^ 31) eqn:E2;
    try reflexivity; lia.
Qed.

(** The payload of [_numpy_to_wav] is the quantized buffer. *)
Lemma numpy_to_wav_payload (audio : ndarray) (sr : Z) (wav : list byte) :
  _numpy_to_wav audio sr = Ok wav ->
  skipn 44 wav =
  int16_tobytes (map (quantize (arr_dtype audio)) (data audio)).
Proof.
  unfold _numpy_to_wav.
  assert (Hq : quantize_array
                 (if 1 <? ndim audio then flatten audio else audio)
               = quantize_array audio)
    by (destruct (1 <? ndim audio); reflexivity).
  rewrite Hq.
  set (ds := Z.of_nat (List.length (int16_tobytes (quantize_array audio)))).
  unfold _create_wav_header.
  repeat match goal with
  | |- context [rbind (struct_pack_I ?v) _] =>
      destruct (struct_pack_I_cases v) as [[_ Hp]|[_ (m & Hp)]];
      rewrite Hp; cbn [rbind]; [clear Hp|discriminate]
  | |- context [rbind (struct_pack_H ?v) _] =>
      destruct (struct_pack_H_cases v) as [[_ Hp]|[_ (m & Hp)]];
      rewrite Hp; cbn [rbind]; [clear Hp|discriminate]
  end.
  intro H. injection H as <-. reflexivity.
Qed.


(* ================================================================== *)
(** * Dictionaries *)

Section DictFacts.
Variable V : Type.
Implicit Types (d : dict V) (k : string) (v : V).

Lemma dict_get_app_l d d' k v :
  dict_get d k = Some v -> dict_get (d ++ d') k = Some v.
Proof.
  induction d as [|[k' v'] d IH]; cbn [dict_get app]; [discriminate|].
  destruct (String.eqb k k'); auto.
Qed.

Lemma dict_get_app_r d d' k :
  dict_get d k = None -> dict_get (d ++ d') k = dict_get d' k.
Proof.
  induction d as [|[k' v'] d IH]; cbn [dict_get app]; [reflexivity|].
  destruct (String.eqb k k'); [discriminate|auto].
Qed.

Lemma dict_mem_app_l d d' k :
  dict_mem k d = true -> dict_mem k (d ++ d') = true.
Proof.
  unfold dict_mem. destruct (dict_get d k) as [v|] eqn:E; [|discriminate].
  now rewrite (@dict_get_app_l d d' k v E).
Qed.

Lemma dict_mem_app_false d d' k :
  dict_mem k (d ++ d') = false -> dict_mem k d = false.
Proof.
  destruct (dict_mem k d) eqn:E; [|reflexivity].
  now rewrite (@dict_mem_app_l d d' k E).
Qed.

Lemma dict_set_absent d k v :
  dict_mem k d = false -> dict_set d k v = d ++ [(k, v)].
Proof.
  unfold dict_mem.
  induction d as [|[k' v'] d IH]; cbn [dict_get dict_set app];
    [reflexivity|].
  destruct (String.eqb k k'); [discriminate|].
  intro H. now rewrite IH.
Qed.

Lemma dict_get_set_same d k v : dict_get (dict_set d k v) k = Some v.
Proof.
  induction d as [|[k' v'] d IH]; cbn [dict_get dict_set].
  - now rewrite String.eqb_refl.
  - destruct (String.eqb k k') eqn:E; cbn [dict_get]; rewrite E; auto.
Qed.

Lemma dict_get_set_other d k k' v :
  k <> k' -> dict_get (dict_set d k' v) k = dict_get d k.
Proof.
  intro Hne.
  induction d as [|[k0 v0] d IH]; cbn [dict_get dict_set].
  - destruct (String.eqb k k') eqn:E; [|reflexivity].
    apply String.eqb_eq in E. contradiction.
  - destruct (String.eqb k' k0) eqn:E; cbn [dict_get].
    + apply String.eqb_eq in E. subst k0.
      destruct (String.eqb k k') eqn:E'; [|reflexivity].
      apply String.eqb_eq in E'. contradiction.
    + destruct (String.eqb k k0); auto.
Qed.

Lemma dict_mem_singleton k v : dict_mem k [(k, v)] = true.
Proof. unfold dict_mem. cbn [dict_get]. now rewrite String.eqb_refl. Qed.

Lemma dict_mem_app_r d d' k :
  dict_mem k d' = true -> dict_mem k (d ++ d') = true.
Proof.
  intro H. destruct (dict_mem k d) eqn:E.
  - now apply dict_mem_app_l.
  - unfold dict_mem in *.
    destruct (dict_get d k) eqn:E'; [discriminate|].
    now rewrite (@dict_get_app_r d d' k E').
Qed.
End DictFacts.

(* ================================================================== *)
(** * The custom scan *)

Lemma count_globs_app (a b : list event) :
  count_globs (a ++ b) = (count_globs a + count_globs b)%nat.
Proof. unfold count_globs. now rewrite filter_app, length_app. Qed.

Lemma grows_refl (s : State) : grows 0 s s.
Proof.
  split; [reflexivity|]. split; [reflexivity|]. split.
  - exists []. now rewrite app_nil_r.
  - exists []. rewrite app_nil_r. repeat split. intros q [].
Qed.

Lemma grows_trans (n m : nat) (s1 s2 s3 : State) :
  grows n s1 s2 -> grows m s2 s3 -> grows (n + m) s1 s3.
Proof.
  intros (Ht1 & Hk1 & (a1 & Hc1) & (e1 & He1 & Hn1 & Hq1))
         (Ht2 & Hk2 & (a2 & Hc2) & (e2 & He2 & Hn2 & Hq2)).
  split; [congruence|]. split; [congruence|]. split.
  - exists (a1 ++ a2). rewrite Hc2, Hc1. now rewrite app_assoc.
  - exists (e1 ++ e2). split; [rewrite He2, He1; now rewrite app_assoc|].
    split; [rewrite count_globs_app; congruence|].
    intros q Hin. apply in_app_or in Hin. destruct Hin as [Hin|Hin].
    + now apply Hq1.
    + apply Hq2 in Hin. rewrite Hc1 in Hin.
      now apply dict_mem_app_false in Hin.
Qed.

Lemma grows_get (n : nat) (s s' : State) (k : string) (e : VoiceEntry) :
  grows n s s' ->
  dict_get (voice_cache s) k = Some e ->
  dict_get (voice_cache s') k = Some e.
Proof.
  intros (_ & _ & (a & Hc) & _) H. rewrite Hc. now apply dict_get_app_l.
Qed.

Lemma grows_mem (n : nat) (s s' : State) (k : string) :
  grows n s s' ->
  dict_mem k (voice_cache s) = true ->
  dict_mem k (voice_cache s') = true.
Proof.
  intros (_ & _ & (a & Hc) & _) H. rewrite Hc. now apply dict_mem_app_l.
Qed.

(** One iteration of the scan: it never raises; a path whose id is cached
    changes nothing; another path is added at the end of the cache exactly
    when its encoding and its transcript load. *)
Lemma scan_custom_cases (env : Env) (p : string) (s : State) :
  exists s',
    scan_custom env p s = (Ok tt, s') /\
    grows 0 s s' /\
    (if dict_mem (stem p) (voice_cache s)
     then voice_cache s' = voice_cache s
     else match custom_load env (tts s) p with
          | Ok ct =>
              voice_cache s' =
              voice_cache s ++ [(stem p, custom_entry p (next_id s) ct)]
          | Raise _ => voice_cache s' = voice_cache s
          end).
Proof.
  unfold scan_custom. fold (stem p). fold (txt_of p).
  cbv [bind get].
  destruct (dict_mem (stem p) (voice_cache s)) eqn:Emem.
  - exists s. repeat split; auto using grows_refl.
    + exists []. now rewrite app_nil_r.
    + exists []. rewrite app_nil_r. repeat split. intros q [].
  - unfold custom_load, try_except, tts_encode_reference.
    cbv [bind get].
    destruct (tts s) as [engine|] eqn:Etts.
    2:{ exists s. cbv [raise ret]. repeat split.
        - exists []. now rewrite app_nil_r.
        - exists []. rewrite app_nil_r. repeat split. intros q []. }
    cbv [log lift alloc os_path_exists open_read cache_set ret bind].
    cbn [tts voice_cache next_id clock_reads trace].
    destruct (encode_reference engine env p) as [c|e] eqn:Eenc; cbn [rbind].
    2:{ eexists. split; [reflexivity|]. cbn [tts voice_cache trace].
        repeat split; [exists []; now rewrite app_nil_r|].
        exists [EvEncode p]. repeat split.
        intros q [Hq|[]]. now injection Hq as <-. }
    destruct (path_exists env (txt_of p)) eqn:Etxt.
    + destruct (read_text env (txt_of p)) as [content|e] eqn:Eread;
        cbn [rbind].
      * eexists. split; [reflexivity|]. cbn [tts voice_cache trace].
        erewrite dict_set_absent by exact Emem.
        repeat split; [eexists; reflexivity|].
        exists [EvEncode p; EvExists (txt_of p); EvOpen (txt_of p)].
        repeat rewrite <- app_assoc. repeat split.
        intros q [Hq|[Hq|[Hq|[]]]]; try discriminate.
        now injection Hq as <-.
      * eexists. split; [reflexivity|]. cbn [tts voice_cache trace].
        repeat split; [exists []; now rewrite app_nil_r|].
        exists [EvEncode p; EvExists (txt_of p); EvOpen (txt_of p)].
        repeat rewrite <- app_assoc. repeat split.
        intros q [Hq|[Hq|[Hq|[]]]]; try discriminate.
        now injection Hq as <-.
    + eexists. split; [reflexivity|]. cbn [tts voice_cache trace].
      erewrite dict_set_absent by exact Emem.
      repeat split; [eexists; reflexivity|].
      exists [EvEncode p; EvExists (txt_of p)].
      repeat rewrite <- app_assoc. repeat split.
      intros q [Hq|[Hq|[]]]; try discriminate.
      now injection Hq as <-.
Qed.

Lemma grows_add_events (evs : list event) (s : State) :
  (forall q, ~ In (EvEncode q) evs) ->
  grows (count_globs evs) s (add_events evs s).
Proof.
  intro H. split; [reflexivity|]. split; [reflexivity|]. split.
  - exists []. cbn. now rewrite app_nil_r.
  - exists evs. repeat split. intros q Hq. now apply H in Hq.
Qed.

(** The loop of the scan never raises and only extends the cache; after
    it, every listed path has its id cached or cannot be loaded. *)
Lemma scan_loop (env : Env) (ps : list string) (s : State) :
  exists s',
    for_each ps (scan_custom env) s = (Ok tt, s') /\
    grows 0 s s' /\
    forall p, In p ps ->
      dict_mem (stem p) (voice_cache s') = true \/
      exists e, custom_load env (tts s) p = Raise e.
Proof.
  revert s. induction ps as [|p ps IH]; intro s.
  - exists s. split; [reflexivity|]. split; [apply grows_refl|]. intros p [].
  - destruct (scan_custom_cases env p s) as (s1 & Hrun & Hg1 & Hc1).
    destruct (IH s1) as (s' & Hrun' & Hg' & Hcov).
    exists s'. split; [|split].
    + cbn [for_each]. unfold bind. now rewrite Hrun.
    + apply (grows_trans Hg1 Hg').
    + assert (Ht : tts s1 = tts s) by apply Hg1.
      intros q [<-|Hq].
      * destruct (dict_mem (stem p) (voice_cache s)) eqn:Emem.
        -- left. apply (grows_mem (stem p) (grows_trans Hg1 Hg') Emem).
        -- destruct (custom_load env (tts s) p) as [ct|e]; [|eauto].
           left. apply (grows_mem (stem p) Hg'). rewrite Hc1.
           apply dict_mem_app_r, dict_mem_singleton.
      * rewrite <- Ht. now apply Hcov.
Qed.

(** When every listed path has its id cached or cannot be loaded, the
    loop leaves the cache as it is. *)
Lemma scan_loop_fixed (env : Env) (ps : list string) (s : State) :
  (forall p, In p ps ->
     dict_mem (stem p) (voice_cache s) = true \/
     exists e, custom_load env (tts s) p = Raise e) ->
  exists s',
    for_each ps (scan_custom env) s = (Ok tt, s') /\
    voice_cache s' = voice_cache s /\ tts s' = tts s.
Proof.
  revert s. induction ps as [|p ps IH]; intros s Hcov.
  - exists s. auto.
  - destruct (scan_custom_cases env p s) as (s1 & Hrun & Hg1 & Hc1).
    assert (Ht : tts s1 = tts s) by apply Hg1.
    assert (Hc : voice_cache s1 = voice_cache s).
    { destruct (Hcov p (or_introl eq_refl)) as [Hm|(e & He)].
      - now rewrite Hm in Hc1.
      - destruct (dict_mem (stem p) (voice_cache s)); [assumption|].
        now rewrite He in Hc1. }
    destruct (IH s1) as (s' & Hrun' & Hc' & Ht').
    { intros q Hq. rewrite Hc, Ht. apply Hcov. now right. }
    exists s'. split; [|split; congruence].
    cbn [for_each]. unfold bind. now rewrite Hrun.
Qed.

(** [_scan_custom_voices] unfolded: one probe of the directory, then, if
    it exists, one listing and the loop. *)
Lemma scan_unfold (cfg : Config) (env : Env) (s : State) :
  _scan_custom_voices cfg env s =
  if path_exists env (VOICES_DIR cfg)
  then for_each (glob_glob env (voices_pattern cfg)) (scan_custom env)
         (add_events [EvExists (VOICES_DIR cfg); EvGlob (voices_pattern cfg)]
                     s)
  else (Ok tt, add_events [EvExists (VOICES_DIR cfg)] s).
Proof.
  unfold _scan_custom_voices, os_path_exists, glob, voices_pattern.
  cbv [bind log ret add_events].
  cbn [tts voice_cache next_id clock_reads trace].
  destruct (path_exists env (VOICES_DIR cfg)); cbn [negb];
    cbn [tts voice_cache next_id clock_reads trace]; [|reflexivity].
  now rewrite <- app_assoc.
Qed.

(** A scan never raises, lists the directory at most once and only
    extends the cache. *)
Lemma scan_grows (cfg : Config) (env : Env) (s : State) :
  exists s',
    _scan_custom_voices cfg env s = (Ok tt, s') /\
    grows (if path_exists env (VOICES_DIR cfg) then 1 else 0) s s' /\
    exists evs, trace s' = trace s ++ EvExists (VOICES_DIR cfg) :: evs.
Proof.
  rewrite scan_unfold.
  destruct (path_exists env (VOICES_DIR cfg)).
  - set (s0 := add_events _ s).
    destruct (scan_loop env (glob_glob env (voices_pattern cfg)) s0)
      as (s' & Hrun & Hg & _).
    exists s'. split; [assumption|]. split.
    + change 1%nat with (1 + 0)%nat.
      refine (grows_trans _ Hg).
      apply (grows_add_events
               [EvExists (VOICES_DIR cfg); EvGlob (voices_pattern cfg)]).
      intros q [H|[H|[]]]; discriminate.
    + destruct Hg as (_ & _ & _ & (evs & He & _)).
      exists (EvGlob (voices_pattern cfg) :: evs).
      rewrite He. subst s0. cbn [add_events trace].
      now rewrite <- app_assoc.
  - eexists. split; [reflexivity|]. split.
    + apply (grows_add_events [EvExists (VOICES_DIR cfg)]).
      intros q [H|[]]; discriminate.
    + exists []. reflexivity.
Qed.

Lemma reload_unfold (cfg : Config) (env : Env) (s s' : State) :
  _scan_custom_voices cfg env s = (Ok tt, s') ->
  reload_custom_voices cfg env s = (Ok (dict_keys (voice_cache s')), s').
Proof.
  intro H. unfold reload_custom_voices. cbv [bind get ret]. now rewrite H.
Qed.

(** A lookup of a cached id returns its entry and touches nothing. *)
Lemma get_voice_data_present
    (cfg : Config) (env : Env) (voice_id : string) (s : State)
    (e : VoiceEntry) :
  dict_get (voice_cache s) voice_id = Some e ->
  get_voice_data cfg env voice_id s =
  (Ok (Some (ref_codes e), Some (ref_text e)), s).
Proof.
  intro H. unfold get_voice_data, dict_mem. cbv [bind get ret].
  rewrite H. cbn [negb]. now rewrite H.
Qed.

(** A lookup of an id that is not cached is one reload followed by one
    more look at the cache. *)
Lemma get_voice_data_absent
    (cfg : Config) (env : Env) (voice_id : string) (s : State) :
  dict_mem voice_id (voice_cache s) = false ->
  get_voice_data cfg env voice_id s =
  let s1 := snd (reload_custom_voices cfg env s) in
  (Ok match dict_get (voice_cache s1) voice_id with
      | None => (None, None)
      | Some e => (Some (ref_codes e), Some (ref_text e))
      end, s1).
Proof.
  intro H.
  destruct (scan_grows cfg env s) as (s1 & Hscan & _).
  rewrite (reload_unfold _ _ _ Hscan). cbn [snd].
  unfold get_voice_data. cbv [bind get ret]. rewrite H. cbn [negb].
  rewrite (reload_unfold _ _ _ Hscan).
  now destruct (dict_get (voice_cache s1) voice_id).
Qed.

(* ================================================================== *)
(** * The voice cache across scans, reloads and lookups *)

Lemma exec_op_grows (cfg : Config) (o : op) (s : State) :
  exists n, grows n s (exec_op cfg o s).
Proof.
  destruct o as [env|env|env voice_id]; cbn [exec_op].
  - destruct (scan_grows cfg env s) as (s' & Hrun & Hg & _).
    rewrite Hrun. eauto.
  - destruct (scan_grows cfg env s) as (s' & Hrun & Hg & _).
    rewrite (reload_unfold _ _ _ Hrun). eauto.
  - destruct (dict_get (voice_cache s) voice_id) as [e|] eqn:E.
    + rewrite (get_voice_data_present cfg env _ _ E).
      exists 0%nat. apply grows_refl.
    + rewrite get_voice_data_absent
        by (unfold dict_mem; now rewrite E).
      cbn [snd].
      destruct (scan_grows cfg env s) as (s' & Hrun & Hg & _).
      rewrite (reload_unfold _ _ _ Hrun). eauto.
Qed.

Lemma run_ops_grows (cfg : Config) (ops : list op) (s : State) :
  exists n, grows n s (run_ops cfg ops s).
Proof.
  revert s. induction ops as [|o ops IH]; intro s.
  - exists 0%nat. apply grows_refl.
  - cbn [run_ops fold_left].
    destruct (exec_op_grows cfg o s) as (n & Hn).
    destruct (IH (exec_op cfg o s)) as (m & Hm).
    exists (n + m)%nat. apply (grows_trans Hn Hm).
Qed.

(** ** C5 *)

(** C5.  An entry that is in the cache stays there as it is through any
    sequence of custom-directory scans, reloads and lookups, whatever the
    custom directory holds at each of them: the cache maps the id to the
    same entry afterwards, a lookup before and after returns the same
    reference encoding object (same identity, same contents) and the same
    transcript, and none of the calls made in between encodes a file whose
    stem is that id.  This covers the built-in ids, which start-up puts
    into the cache before its scan. *)
Theorem cached_entry_stable
    (cfg : Config) (ops : list op) (s : State) (voice_id : string)
    (e : VoiceEntry) :
  dict_get (voice_cache s) voice_id = Some e ->
  let s' := run_ops cfg ops s in
  dict_get (voice_cache s') voice_id = Some e /\
  (forall env,
     get_voice_data cfg env voice_id s =
     (Ok (Some (ref_codes e), Some (ref_text e)), s)) /\
  (forall env,
     get_voice_data cfg env voice_id s' =
     (Ok (Some (ref_codes e), Some (ref_text e)), s')) /\
  (exists added, voice_cache s' = voice_cache s ++ added) /\
  (exists evs,
     trace s' = trace s ++ evs /\
     forall q, In (EvEncode q) evs -> stem q <> voice_id).
Proof.
  intros He s'.
  destruct (run_ops_grows cfg ops s) as (n & Hg). fold s' in Hg.
  assert (He' : dict_get (voice_cache s') voice_id = Some e)
    by apply (grows_get _ Hg He).
  split; [assumption|].
  split; [intro env; now apply get_voice_data_present|].
  split; [intro env; now apply get_voice_data_present|].
  destruct Hg as (_ & _ & Hadd & (evs & Htr & _ & Henc)).
  split; [assumption|].
  exists evs. split; [assumption|].
  intros q Hq Heq. apply Henc in Hq. rewrite Heq in Hq.
  unfold dict_mem in Hq. now rewrite He in Hq.
Qed.

Lemma cached_entry_stable_witness :
  dict_get (voice_cache (run_ops cfg0 ops0 started0)) "greta" = Some greta0.
Proof.
  apply (@cached_entry_stable cfg0 ops0 started0 "greta" greta0).
  reflexivity.
Defined.

(** ** C6 *)

(** C6.  Two reloads in a row against the same directory and engine: both
    return, the second leaves the cache exactly as the first left it, both
    return the same list of voice ids, and the first only appended to the
    cache it found (every earlier entry is kept, in place). *)
Theorem reload_idempotent (cfg : Config) (env : Env) (s : State) :
  exists s1 s2,
    reload_custom_voices cfg env s = (Ok (dict_keys (voice_cache s1)), s1) /\
    reload_custom_voices cfg env s1 = (Ok (dict_keys (voice_cache s1)), s2) /\
    voice_cache s2 = voice_cache s1 /\
    (exists added, voice_cache s1 = voice_cache s ++ added) /\
    (forall k e, dict_get (voice_cache s) k = Some e ->
                 dict_get (voice_cache s1) k = Some e).
Proof.
  destruct (scan_grows cfg env s) as (s1 & Hrun1 & Hg1 & _).
  assert (Hfix : exists s2, _scan_custom_voices cfg env s1 = (Ok tt, s2) /\
                            voice_cache s2 = voice_cache s1).
  { rewrite scan_unfold in Hrun1 |- *.
    destruct (path_exists env (VOICES_DIR cfg)).
    - set (ps := glob_glob env (voices_pattern cfg)) in *.
      set (evs := [EvExists (VOICES_DIR cfg); EvGlob (voices_pattern cfg)])
        in *.
      destruct (scan_loop env ps (add_events evs s)) as (s1' & Hl & Hg & Hcov).
      rewrite Hl in Hrun1. injection Hrun1 as ->.
      destruct (scan_loop_fixed env ps (add_events evs s1))
        as (s2 & Hl2 & Hc2 & _).
      { intros p Hp. cbn [add_events voice_cache tts].
        destruct Hg as (Ht & _).
        rewrite Ht. cbn [add_events tts]. now apply Hcov. }
      exists s2. split; [assumption|]. exact Hc2.
    - eexists. split; reflexivity. }
  destruct Hfix as (s2 & Hrun2 & Hc2).
  exists s1, s2.
  split; [now apply reload_unfold|].
  split; [rewrite <- Hc2; now apply reload_unfold|].
  split; [assumption|].
  split; [apply Hg1|].
  intros k e Hk. apply (grows_get _ Hg1 Hk).
Qed.

(** ** C7 *)

(** C7.  A lookup of an id that is not cached performs exactly one reload
    (the state it leaves is the one a single reload leaves, whose calls
    are one probe of the custom directory followed by at most one
    listing) and then looks once more: if the reload brought the id in,
    the lookup returns its reference data; if not, it returns nothing, and
    [synthesize] fails with the voice-not-found error, again after that
    single reload and nothing more. *)
Theorem lookup_miss_reloads_once
    (cfg : Config) (env : Env) (s : State) (voice_id : string) :
  dict_mem voice_id (voice_cache s) = false ->
  let s1 := snd (reload_custom_voices cfg env s) in
  snd (get_voice_data cfg env voice_id s) = s1 /\
  (exists evs,
     trace s1 = trace s ++ EvExists (VOICES_DIR cfg) :: evs /\
     (count_globs evs <= 1)%nat) /\
  (forall e, dict_get (voice_cache s1) voice_id = Some e ->
     get_voice_data cfg env voice_id s =
     (Ok (Some (ref_codes e), Some (ref_text e)), s1)) /\
  (dict_get (voice_cache s1) voice_id = None ->
     get_voice_data cfg env voice_id s = (Ok (None, None), s1)) /\
  (forall text,
     let s1' := snd (reload_custom_voices cfg env (tick s)) in
     dict_get (voice_cache s1') voice_id = None ->
     synthesize cfg env text voice_id s =
     (Raise (voice_not_found voice_id), s1') /\
     exists evs,
       trace s1' = trace s ++ EvExists (VOICES_DIR cfg) :: evs /\
       (count_globs evs <= 1)%nat).
Proof.
  intros Hmiss s1.
  assert (Htrace : forall s0,
            exists evs,
              trace (snd (reload_custom_voices cfg env s0)) =
              trace s0 ++ EvExists (VOICES_DIR cfg) :: evs /\
              (count_globs evs <= 1)%nat).
  { intro s0.
    destruct (scan_grows cfg env s0) as (s' & Hrun & Hg & (evs & Hevs)).
    rewrite (reload_unfold _ _ _ Hrun). cbn [snd].
    exists evs. split; [assumption|].
    destruct Hg as (_ & _ & _ & (evs' & Hevs' & Hn & _)).
    rewrite Hevs in Hevs'. apply app_inv_head in Hevs'. subst evs'.
    unfold count_globs in *. cbn [filter is_glob] in Hn.
    rewrite Hn. destruct (path_exists env (VOICES_DIR cfg)); lia. }
  pose proof (get_voice_data_absent cfg env voice_id s Hmiss) as Hget.
  cbv zeta in Hget. fold s1 in Hget.
  split; [now rewrite Hget|].
  split; [apply Htrace|].
  split; [intros e He; now rewrite Hget, He|].
  split; [intro He; now rewrite Hget, He|].
  intros text s1' Hnone.
  split; [|apply (Htrace (tick s))].
  unfold synthesize, time. cbv [bind]. fold (tick s).
  rewrite (get_voice_data_absent cfg env voice_id (tick s)) by exact Hmiss.
  cbv zeta. fold s1'. rewrite Hnone. reflexivity.
Qed.

Lemma lookup_miss_reloads_once_witness :
  snd (get_voice_data cfg0 env1 "otto" started0) =
  snd (reload_custom_voices cfg0 env1 started0).
Proof.
  apply (@lookup_miss_reloads_once cfg0 env1 started0 "otto").
  reflexivity.
Defined.

(* ================================================================== *)
(** * Synthesis before initialization *)

(** Without an engine every encoding attempt fails inside the [try], so a
    scan leaves the cache as it is. *)
Lemma scan_uninitialized (cfg : Config) (env : Env) (s : State) :
  tts s = None ->
  exists s',
    _scan_custom_voices cfg env s = (Ok tt, s') /\
    voice_cache s' = voice_cache s /\ tts s' = None.
Proof.
  intro Hnone. rewrite scan_unfold.
  destruct (path_exists env (VOICES_DIR cfg)).
  - set (s0 := add_events _ s).
    destruct (scan_loop_fixed env (glob_glob env (voices_pattern cfg)) s0)
      as (s' & Hrun & Hc & Ht).
    { intros p _. right. subst s0. cbn [add_events tts]. rewrite Hnone.
      cbn [custom_load]. eauto. }
    exists s'. split; [assumption|]. split; [assumption|].
    rewrite Ht. exact Hnone.
  - eexists. split; [reflexivity|]. split; [reflexivity|exact Hnone].
Qed.

(** Without an engine, a voice id that is not cached makes [synthesize]
    fail with the [ValueError] of a missed lookup: the reload it triggers
    finds no engine to encode with, adds nothing, and the second look
    misses.  The cache and the absent engine are left as they were. *)
Lemma synthesize_without_engine_misses
    (cfg : Config) (env : Env) (text voice_id : string) (s : State) :
  is_initialized s = (Ok false, s) ->
  dict_mem voice_id (voice_cache s) = false ->
  exists s',
    synthesize cfg env text voice_id s =
    (Raise (voice_not_found voice_id), s') /\
    voice_cache s' = voice_cache s /\
    is_initialized s' = (Ok false, s').
Proof.
  intros Hinit Hmiss.
  assert (Hnone : tts s = None).
  { unfold is_initialized in Hinit. cbv [bind get ret] in Hinit.
    destruct (tts s); [discriminate|reflexivity]. }
  destruct (scan_uninitialized cfg env (tick s) Hnone)
    as (s' & Hrun & Hc & Ht).
  exists s'.
  assert (Hnone' : dict_get (voice_cache s') voice_id = None).
  { rewrite Hc. cbn [tick voice_cache]. unfold dict_mem in Hmiss.
    now destruct (dict_get (voice_cache s) voice_id). }
  split; [|split].
  - unfold synthesize, time. cbv [bind]. fold (tick s).
    rewrite (get_voice_data_absent cfg env voice_id (tick s)) by exact Hmiss.
    cbv zeta. rewrite (reload_unfold _ _ _ Hrun). cbn [snd].
    now rewrite Hnone'.
  - exact Hc.
  - unfold is_initialized. cbv [bind get ret]. now rewrite Ht.
Qed.

(** C1 as stated fails: on the service as constructed, which is not
    initialized, [synthesize] does not fail with an error of its own for
    the missing engine; it fails with the error of a missed lookup. *)
Lemma uninitialized_synthesize_not_engine_not_ready :
  fst (is_initialized TTSService_init) = Ok false /\
  fst (synthesize cfg0 env0 "Hallo" "greta" TTSService_init) =
    Raise (ValueError "Voice 'greta' not found") /\
  ~ reports_engine_not_ready "greta"
      (fst (synthesize cfg0 env0 "Hallo" "greta" TTSService_init)).
Proof.
  split; [reflexivity|]. split; [reflexivity|].
  intros (e & He & Hne & _).
  vm_compute in He. injection He as <-.
  apply Hne. reflexivity.
Qed.

(* ================================================================== *)
(** * Loading the built-in samples *)

Ltac run_step :=
  cbv beta iota;
  cbn [tts voice_cache next_id clock_reads trace rbind fst snd].

Ltac frame_done :=
  eexists; split; [reflexivity|]; split; [now run_step|];
  run_step; intros k Hk;
  solve [reflexivity | now apply dict_get_set_other].

(** One iteration of [_load_builtin_samples] never raises, keeps the
    engine and touches no other key of the cache. *)
Lemma load_builtin_frame
    (cfg : Config) (env : Env) (v f : string) (s : State) :
  exists s',
    load_builtin cfg env (v, f) s = (Ok tt, s') /\
    tts s' = tts s /\
    forall k, k <> v ->
      dict_get (voice_cache s') k = dict_get (voice_cache s) k.
Proof.
  unfold load_builtin.
  fold (builtin_wav cfg f) (builtin_txt cfg f) (builtin_pt cfg f).
  cbv [bind os_path_exists log ret try_except tts_encode_reference get
       raise lift alloc open_read torch_load_ cache_set].
  run_step.
  destruct (path_exists env (builtin_wav cfg f)); [|frame_done].
  destruct (tts s) as [engine|] eqn:Etts; run_step; [|frame_done].
  destruct (encode_reference engine env (builtin_wav cfg f));
    run_step; [|frame_done].
  destruct (path_exists env (builtin_txt cfg f)).
  - destruct (read_text env (builtin_txt cfg f)); run_step; frame_done.
  - destruct (path_exists env (builtin_pt cfg f)).
    + destruct (torch_load env (builtin_pt cfg f)); run_step; frame_done.
    + frame_done.
Qed.

(** One iteration on a sample whose wav exists and encodes: the calls it
    makes, in order, and the entry it stores. *)
Lemma load_builtin_cases
    (cfg : Config) (env : Env) (v f : string) (s : State)
    (engine : NeuTTS) (c : list Z) :
  tts s = Some engine ->
  path_exists env (builtin_wav cfg f) = true ->
  encode_reference engine env (builtin_wav cfg f) = Ok c ->
  exists s',
    load_builtin cfg env (v, f) s = (Ok tt, s') /\
    trace s' =
      trace s ++
      [EvExists (builtin_wav cfg f); EvEncode (builtin_wav cfg f);
       EvExists (builtin_txt cfg f)] ++
      (if path_exists env (builtin_txt cfg f)
       then [EvOpen (builtin_txt cfg f)]
       else EvExists (builtin_pt cfg f) ::
            if path_exists env (builtin_pt cfg f)
            then [EvTorchLoad (builtin_pt cfg f)] else []) /\
    (if path_exists env (builtin_txt cfg f)
     then match read_text env (builtin_txt cfg f) with
          | Ok content =>
              voice_cache s' =
              dict_set (voice_cache s) v
                (builtin_entry cfg v f
                   {| obj_id := next_id s; codes := c |}
                   (str_strip content))
          | Raise _ => voice_cache s' = voice_cache s
          end
     else if path_exists env (builtin_pt cfg f)
     then match torch_load env (builtin_pt cfg f) with
          | Ok c' =>
              voice_cache s' =
              dict_set (voice_cache s) v
                (builtin_entry cfg v f
                   {| obj_id := S (next_id s); codes := c' |} "")
          | Raise _ => voice_cache s' = voice_cache s
          end
     else voice_cache s' =
          dict_set (voice_cache s) v
            (builtin_entry cfg v f
               {| obj_id := next_id s; codes := c |} "")).
Proof.
  intros Htts Hwav Henc.
  unfold load_builtin.
  fold (builtin_wav cfg f) (builtin_txt cfg f) (builtin_pt cfg f).
  cbv [bind os_path_exists log ret try_except tts_encode_reference get
       raise lift alloc open_read torch_load_ cache_set].
  run_step.
  rewrite Hwav, Htts. run_step. rewrite Henc. run_step.
  destruct (path_exists env (builtin_txt cfg f)).
  - destruct (read_text env (builtin_txt cfg f)); cbn [rbind];
      eexists; (split; [reflexivity|]); cbn [trace voice_cache];
      (split; [now repeat rewrite <- app_assoc|reflexivity]).
  - destruct (path_exists env (builtin_pt cfg f)).
    + destruct (torch_load env (builtin_pt cfg f)); cbn [rbind];
        eexists; (split; [reflexivity|]); cbn [trace voice_cache];
        (split; [now repeat rewrite <- app_assoc|reflexivity]).
    + eexists. split; [reflexivity|]. cbn [trace voice_cache].
      split; [now repeat rewrite <- app_assoc|reflexivity].
Qed.

Lemma load_builtins_frame
    (cfg : Config) (env : Env) (l : list (string * string)) (s : State) :
  exists s',
    for_each l (load_builtin cfg env) s = (Ok tt, s') /\
    tts s' = tts s /\
    forall k, ~ In k (map fst l) ->
      dict_get (voice_cache s') k = dict_get (voice_cache s) k.
Proof.
  revert s. induction l as [|[v f] l IH]; intro s.
  - exists s. auto.
  - destruct (load_builtin_frame cfg env v f s) as (s1 & Hrun & Ht & Hk).
    destruct (IH s1) as (s' & Hrun' & Ht' & Hk').
    exists s'. split; [|split].
    + cbn [for_each]. unfold bind. now rewrite Hrun.
    + congruence.
    + intros k Hin. cbn [map fst In] in Hin.
      rewrite Hk' by tauto. apply Hk. intro; subst; tauto.
Qed.

(** The loop over a list of samples with distinct ids: the entry of a
    sample whose wav exists and encodes is the one its own iteration
    stored. *)
Lemma load_builtins_entry
    (cfg : Config) (env : Env) (l : list (string * string)) (v f : string)
    (s : State) (engine : NeuTTS) (c : list Z) :
  NoDup (map fst l) ->
  In (v, f) l ->
  tts s = Some engine ->
  path_exists env (builtin_wav cfg f) = true ->
  encode_reference engine env (builtin_wav cfg f) = Ok c ->
  exists s',
    for_each l (load_builtin cfg env) s = (Ok tt, s') /\
    match builtin_contents cfg env f c with
    | Some (c', t) =>
        exists id,
          dict_get (voice_cache s') v =
          Some (builtin_entry cfg v f {| obj_id := id; codes := c' |} t)
    | None => dict_get (voice_cache s') v = dict_get (voice_cache s) v
    end.
Proof.
  intros Hnd Hin Htts Hwav Henc.
  revert s Htts. induction l as [|[v0 f0] l IH]; intros s Htts;
    [destruct Hin|].
  cbn [map fst] in Hnd. inversion Hnd as [|? ? Hnotin Hnd']; subst.
  destruct Hin as [Heq|Hin].
  - injection Heq as -> ->.
    destruct (@load_builtin_cases cfg env v f s engine c Htts Hwav Henc)
      as (s1 & Hrun & _ & Hc).
    destruct (load_builtins_frame cfg env l s1) as (s' & Hrun' & _ & Hk).
    exists s'. split; [cbn [for_each]; unfold bind; now rewrite Hrun|].
    rewrite (Hk v Hnotin).
    unfold builtin_contents.
    destruct (path_exists env (builtin_txt cfg f)).
    + destruct (read_text env (builtin_txt cfg f)).
      * eexists. rewrite Hc. apply dict_get_set_same.
      * now rewrite Hc.
    + destruct (path_exists env (builtin_pt cfg f)).
      * destruct (torch_load env (builtin_pt cfg f)).
        -- eexists. rewrite Hc. apply dict_get_set_same.
        -- now rewrite Hc.
      * eexists. rewrite Hc. apply dict_get_set_same.
  - destruct (load_builtin_frame cfg env v0 f0 s) as (s1 & Hrun & Ht & Hk).
    destruct (IH Hnd' Hin s1) as (s' & Hrun' & Hres); [congruence|].
    exists s'. split; [cbn [for_each]; unfold bind; now rewrite Hrun|].
    assert (Hne : v <> v0).
    { intros ->. apply Hnotin.
      change v0 with (fst (v0, f)). now apply in_map. }
    destruct (builtin_contents cfg env f c) as [[c' t]|];
      [assumption|].
    rewrite Hres. now apply Hk.
Qed.

(** ** C2 *)

(** C2, as the code has it.  For a built-in voice whose wav exists and
    encodes, an iteration first probes and encodes the wav, then probes
    the transcript; if the transcript exists it is read and the
    serialized encoding is not even looked for; only if the transcript is
    absent is the [.pt] file probed and, when present, loaded in place of
    the wav encoding.  So after [_load_builtin_samples]: with a readable
    transcript the entry holds the wav encoding and the stripped
    transcript, whether or not a [.pt] file exists; without a transcript
    and with a loadable [.pt] it holds the deserialized encoding and an
    empty transcript; with neither it holds the wav encoding and an empty
    transcript. *)
Theorem builtin_pt_only_without_transcript
    (cfg : Config) (env : Env) (s : State) (engine : NeuTTS)
    (v : string) (c : list Z) :
  In v ["greta"; "mateo"; "juliette"] ->
  tts s = Some engine ->
  path_exists env (builtin_wav cfg v) = true ->
  encode_reference engine env (builtin_wav cfg v) = Ok c ->
  exists s',
    _load_builtin_samples cfg env s = (Ok tt, s') /\
    (exists s1,
       load_builtin cfg env (v, v) s = (Ok tt, s1) /\
       trace s1 =
         trace s ++
         [EvExists (builtin_wav cfg v); EvEncode (builtin_wav cfg v);
          EvExists (builtin_txt cfg v)] ++
         (if path_exists env (builtin_txt cfg v)
          then [EvOpen (builtin_txt cfg v)]
          else EvExists (builtin_pt cfg v) ::
               if path_exists env (builtin_pt cfg v)
               then [EvTorchLoad (builtin_pt cfg v)] else [])) /\
    (forall content,
       path_exists env (builtin_txt cfg v) = true ->
       read_text env (builtin_txt cfg v) = Ok content ->
       exists e,
         dict_get (voice_cache s') v = Some e /\
         codes (ref_codes e) = c /\ ref_text e = str_strip content) /\
    (forall c',
       path_exists env (builtin_txt cfg v) = false ->
       path_exists env (builtin_pt cfg v) = true ->
       torch_load env (builtin_pt cfg v) = Ok c' ->
       exists e,
         dict_get (voice_cache s') v = Some e /\
         codes (ref_codes e) = c' /\ ref_text e = "") /\
    (path_exists env (builtin_txt cfg v) = false ->
     path_exists env (builtin_pt cfg v) = false ->
     exists e,
       dict_get (voice_cache s') v = Some e /\
       codes (ref_codes e) = c /\ ref_text e = "").
Proof.
  intros Hv Htts Hwav Henc.
  assert (Hin : In (v, v) builtin_voices).
  { unfold builtin_voices. cbn [In] in *.
    destruct Hv as [<-|[<-|[<-|[]]]]; auto. }
  assert (Hnd : NoDup (map fst builtin_voices)).
  { unfold builtin_voices. cbn [map fst].
    repeat constructor; cbn [In]; intuition discriminate. }
  destruct (@load_builtins_entry cfg env builtin_voices v v s engine c
              Hnd Hin Htts Hwav Henc) as (s' & Hrun & Hres).
  destruct (@load_builtin_cases cfg env v v s engine c Htts Hwav Henc)
    as (s1 & Hrun1 & Htr1 & _).
  exists s'. split; [exact Hrun|].
  split; [exists s1; split; assumption|].
  unfold builtin_contents in Hres.
  split; [|split].
  - intros content Htxt Hread. rewrite Htxt, Hread in Hres.
    destruct Hres as (id & Hget). eexists. split; [exact Hget|].
    split; reflexivity.
  - intros c' Htxt Hpt Hload. rewrite Htxt, Hpt, Hload in Hres.
    destruct Hres as (id & Hget). eexists. split; [exact Hget|].
    split; reflexivity.
  - intros Htxt Hpt. rewrite Htxt, Hpt in Hres.
    destruct Hres as (id & Hget). eexists. split; [exact Hget|].
    split; reflexivity.
Qed.

Lemma builtin_pt_only_without_transcript_witness :
  exists s',
    _load_builtin_samples cfg0 env0 ready0 = (Ok tt, s') /\
    exists e,
      dict_get (voice_cache s') "mateo" = Some e /\
      codes (ref_codes e) = [7; 7; 7] /\ ref_text e = "".
Proof.
  destruct (@builtin_pt_only_without_transcript
              cfg0 env0 ready0 engine0 "mateo" [22])
    as (s' & Hrun & _ & _ & Hpt & _);
    [cbn [In]; tauto|reflexivity|reflexivity|reflexivity|].
  exists s'. split; [exact Hrun|].
  apply Hpt; reflexivity.
Defined.

(** C2 as stated fails: greta has a wav, a transcript and a serialized
    encoding that loads, yet after loading her entry holds the encoding
    of the wav, not the deserialized one, and [torch.load] was never
    called on her [.pt] file. *)
Lemma pt_ignored_when_transcript_present :
  path_exists env0 (builtin_wav cfg0 "greta") = true /\
  path_exists env0 (builtin_txt cfg0 "greta") = true /\
  path_exists env0 (builtin_pt cfg0 "greta") = true /\
  torch_load env0 (builtin_pt cfg0 "greta") = Ok [7; 7; 7] /\
  let s' := snd (_load_builtin_samples cfg0 env0 ready0) in
  exists e,
    dict_get (voice_cache s') "greta" = Some e /\
    codes (ref_codes e) = [22] /\
    codes (ref_codes e) <> [7; 7; 7] /\
    ~ In (EvTorchLoad (builtin_pt cfg0 "greta")) (trace s').
Proof.
  repeat (split; [reflexivity|]).
  eexists. split; [reflexivity|]. split; [reflexivity|].
  split; [discriminate|].
  cbv. intuition discriminate.
Qed.

(* ================================================================== *)
(** * The clock does not influence the cache *)

Lemma scan_custom_tick (env : Env) (p : string) (s : State) :
  scan_custom env p (tick s) =
  (fst (scan_custom env p s), tick (snd (scan_custom env p s))).
Proof.
  destruct s as [t c n k tr].
  unfold scan_custom.
  cbv [bind get try_except tts_encode_reference log lift alloc
       os_path_exists open_read cache_set ret raise tick].
  run_step.
  destruct (dict_mem _ c); [reflexivity|].
  destruct t as [engine|]; run_step; [|reflexivity].
  destruct (encode_reference engine _ p); run_step; [|reflexivity].
  destruct (path_exists _ _); run_step; [|reflexivity].
  destruct (read_text _ _); run_step; reflexivity.
Qed.

Lemma scan_loop_tick (env : Env) (ps : list string) (s : State) :
  for_each ps (scan_custom env) (tick s) =
  (fst (for_each ps (scan_custom env) s),
   tick (snd (for_each ps (scan_custom env) s))).
Proof.
  revert s. induction ps as [|p ps IH]; intro s; [reflexivity|].
  cbn [for_each]. unfold bind. rewrite scan_custom_tick.
  destruct (scan_custom env p s) as [[[]|e] s1]; cbn [fst snd];
    [apply IH|reflexivity].
Qed.

Lemma scan_tick (cfg : Config) (env : Env) (s : State) :
  _scan_custom_voices cfg env (tick s) =
  (fst (_scan_custom_voices cfg env s),
   tick (snd (_scan_custom_voices cfg env s))).
Proof.
  rewrite !scan_unfold.
  destruct (path_exists env (VOICES_DIR cfg)); [|reflexivity].
  apply (scan_loop_tick env _ (add_events _ s)).
Qed.

Lemma get_voice_data_tick
    (cfg : Config) (env : Env) (voice_id : string) (s : State) :
  get_voice_data cfg env voice_id (tick s) =
  (fst (get_voice_data cfg env voice_id s),
   tick (snd (get_voice_data cfg env voice_id s))).
Proof.
  unfold get_voice_data, reload_custom_voices.
  cbv [bind get ret]. cbn [tick voice_cache].
  destruct (dict_mem voice_id (voice_cache s)); cbn [negb].
  - fold (tick s). cbn [tick voice_cache].
    destruct (dict_get (voice_cache s) voice_id); reflexivity.
  - fold (tick s). rewrite scan_tick.
    destruct (_scan_custom_voices cfg env s) as [[[]|e] s1]; cbn [fst snd];
      [|reflexivity].
    cbn [tick voice_cache].
    destruct (dict_get (voice_cache s1) voice_id); reflexivity.
Qed.

(** What a lookup returns is what the cache holds afterwards. *)
Lemma get_voice_data_result
    (cfg : Config) (env : Env) (voice_id : string) (s : State) :
  exists s1 n,
    grows n s s1 /\
    get_voice_data cfg env voice_id s =
    (Ok match dict_get (voice_cache s1) voice_id with
        | None => (None, None)
        | Some e => (Some (ref_codes e), Some (ref_text e))
        end, s1).
Proof.
  destruct (dict_get (voice_cache s) voice_id) as [e|] eqn:E.
  - exists s, 0%nat. split; [apply grows_refl|].
    rewrite E. now apply get_voice_data_present.
  - rewrite get_voice_data_absent by (unfold dict_mem; now rewrite E).
    cbv zeta.
    destruct (scan_grows cfg env s) as (s1 & Hrun & Hg & _).
    rewrite (reload_unfold _ _ _ Hrun). cbn [snd].
    exists s1. eauto.
Qed.

(* ================================================================== *)
(** * Synthesis *)

(** Once a lookup has resolved the voice, [synthesize] called in the state
    the lookup left does what [synthesize] called before it does. *)
Lemma synthesize_after_lookup
    (cfg : Config) (env : Env) (text voice_id : string) (s s1 : State)
    (rc : Tensor) (rt : string) :
  get_voice_data cfg env voice_id s = (Ok (Some rc, Some rt), s1) ->
  synthesize cfg env text voice_id s1 = synthesize cfg env text voice_id s.
Proof.
  intro Hget.
  destruct (get_voice_data_result cfg env voice_id s)
    as (s1' & n & Hg & Hres).
  rewrite Hget in Hres. injection Hres as Hr <-.
  destruct Hg as (_ & Hk & _).
  destruct (dict_get (voice_cache s1) voice_id) as [e|] eqn:E;
    [|discriminate].
  injection Hr as -> ->.
  unfold synthesize, time. cbv [bind]. fold (tick s) (tick s1).
  rewrite !get_voice_data_tick.
  rewrite (get_voice_data_present cfg env _ _ E), Hget.
  cbn [fst snd]. rewrite Hk. reflexivity.
Qed.

Lemma gfor_each_yield
    (chunks : list ndarray) (stop : option exn) (s : State) :
  gfor_each chunks stop (fun chunk => gyield (chunk_bytes chunk)) s =
  (map chunk_bytes chunks,
   match stop with None => Ok tt | Some e => Raise e end, s).
Proof.
  induction chunks as [|c chunks IH]; cbn [gfor_each map].
  - destruct stop; reflexivity.
  - unfold gbind.
    change (gyield (chunk_bytes c) s) with ([chunk_bytes c], Ok tt, s).
    cbv beta iota. rewrite IH. reflexivity.
Qed.

(** [synthesize_streaming], case by case, for a voice that resolves. *)
Lemma synthesize_streaming_cases
    (cfg : Config) (env : Env) (text voice_id : string) (s s1 : State)
    (rc : Tensor) (rt : string) :
  get_voice_data cfg env voice_id s = (Ok (Some rc, Some rt), s1) ->
  synthesize_streaming cfg env text voice_id s =
  match tts s1 with
  | None => fallback_outcome [] (synthesize cfg env text voice_id s)
  | Some engine =>
      match infer_stream engine with
      | None => fallback_outcome [] (synthesize cfg env text voice_id s)
      | Some f =>
          let s2 := add_events [EvInferStream text rc rt] s1 in
          let yielded := map chunk_bytes (fst (f text rc rt)) in
          match snd (f text rc rt) with
          | None => (yielded, Ok tt, s2)
          | Some e =>
              if is_AttributeError e
              then fallback_outcome yielded
                     (synthesize cfg env text voice_id s2)
              else (yielded, Raise e, s2)
          end
      end
  end.
Proof.
  intro Hget.
  pose proof (@synthesize_after_lookup cfg env text voice_id s s1 rc rt Hget)
    as Hsyn.
  unfold synthesize_streaming.
  unfold gbind at 1. unfold glift at 1. rewrite Hget.
  unfold gtry_except, gbind, glift, tts_infer_stream.
  cbv [bind get raise log ret].
  destruct (tts s1) as [engine|] eqn:Etts.
  - destruct (infer_stream engine) as [f|] eqn:Ef.
    + fold (add_events [EvInferStream text rc rt] s1).
      destruct (f text rc rt) as [chunks stop] eqn:Efr. cbn [fst snd].
      fold chunk_bytes.
      change (fun chunk => gyield (int16_tobytes (quantize_array chunk)))
        with (fun chunk => gyield (chunk_bytes chunk)).
      rewrite gfor_each_yield. cbn [app].
      destruct stop as [e|]; [|reflexivity].
      destruct (is_AttributeError e); [|reflexivity].
      unfold gyield, fallback_outcome.
      destruct (synthesize cfg env text voice_id
                  (add_events [EvInferStream text rc rt] s1))
        as [[[wav tm]|e'] s3];
        rewrite ?app_nil_r; reflexivity.
    + cbn [is_AttributeError NeuTTS_has_no app]. rewrite Hsyn.
      unfold gyield, fallback_outcome.
      destruct (synthesize cfg env text voice_id s) as [[[wav tm]|e'] s3];
        reflexivity.
  - cbn [is_AttributeError NoneType_has_no app]. rewrite Hsyn.
    unfold gyield, fallback_outcome.
    destruct (synthesize cfg env text voice_id s) as [[[wav tm]|e'] s3];
      reflexivity.
Qed.

Lemma lookup_keeps_engine
    (cfg : Config) (env : Env) (voice_id : string) (s s1 : State)
    (r : option Tensor * option string) :
  get_voice_data cfg env voice_id s = (Ok r, s1) ->
  tts s1 = tts s /\ clock_reads s1 = clock_reads s.
Proof.
  intro Hget.
  destruct (get_voice_data_result cfg env voice_id s)
    as (s1' & n & Hg & Hres).
  rewrite Hget in Hres. injection Hres as _ <-.
  split; apply Hg.
Qed.

(** ** C8 *)

(** C8, as the code has it.  For a voice that resolves: when the engine
    has no [infer_stream], the generator does what [synthesize] does and
    yields its WAV payload as its single chunk (or ends with the error
    [synthesize] raises); when the engine has one, every chunk it produces
    is yielded quantized, and an [AttributeError] raised by it, at
    invocation or after some chunks, is handled like its absence, by
    falling back to [synthesize]; any other exception it raises ends the
    generator with that exception, without fallback. *)
Theorem streaming_falls_back_on_attribute_error
    (cfg : Config) (env : Env) (text voice_id : string) (s s1 : State)
    (rc : Tensor) (rt : string) (engine : NeuTTS) :
  get_voice_data cfg env voice_id s = (Ok (Some rc, Some rt), s1) ->
  tts s = Some engine ->
  (infer_stream engine = None ->
   synthesize_streaming cfg env text voice_id s =
   fallback_outcome [] (synthesize cfg env text voice_id s)) /\
  (infer_stream engine = None ->
   forall wav timing s2,
     synthesize cfg env text voice_id s = (Ok (wav, timing), s2) ->
     synthesize_streaming cfg env text voice_id s = ([wav], Ok tt, s2)) /\
  (forall f chunks stop,
     infer_stream engine = Some f ->
     f text rc rt = (chunks, stop) ->
     let s2 := add_events [EvInferStream text rc rt] s1 in
     let yielded := map chunk_bytes chunks in
     synthesize_streaming cfg env text voice_id s =
     match stop with
     | None => (yielded, Ok tt, s2)
     | Some e =>
         if is_AttributeError e
         then fallback_outcome yielded (synthesize cfg env text voice_id s2)
         else (yielded, Raise e, s2)
     end).
Proof.
  intros Hget Htts.
  pose proof (@synthesize_streaming_cases cfg env text voice_id s s1 rc rt
                Hget) as Hcases.
  destruct (lookup_keeps_engine _ _ _ _ Hget) as (Ht1 & _).
  rewrite Ht1, Htts in Hcases.
  split; [|split].
  - intro Hnone. now rewrite Hnone in Hcases.
  - intros Hnone wav timing s2 Hsyn.
    rewrite Hnone, Hsyn in Hcases. exact Hcases.
  - intros f chunks stop Hf Hrun s2 yielded.
    rewrite Hf, Hrun in Hcases. exact Hcases.
Qed.

Lemma streaming_falls_back_on_attribute_error_witness :
  synthesize_streaming cfg0 env0 "Hallo" "anna" started0 =
  fallback_outcome [] (synthesize cfg0 env0 "Hallo" "anna" started0).
Proof.
  apply (proj1 (@streaming_falls_back_on_attribute_error
                  cfg0 env0 "Hallo" "anna" started0 started0
                  anna_codes "Hallo" engine0 eq_refl eq_refl)).
  reflexivity.
Defined.

(** C8 as stated fails in its second half: an engine whose streaming
    method fails on invocation with an error other than [AttributeError]
    is not treated like an engine without the method.  Without the method
    the generator yields one chunk and ends normally; with the failing
    method it yields nothing and ends with that error. *)
Lemma streaming_failure_is_not_absence :
  let absent :=
    synthesize_streaming cfg0 env0 "Hallo" "anna"
      (with_engine engine0 started0) in
  let failing :=
    synthesize_streaming cfg0 env0 "Hallo" "anna"
      (with_engine engine_failing_stream started0) in
  infer_stream engine0 = None /\
  (exists wav, fst absent = ([wav], Ok tt)) /\
  fst failing = ([], Raise (RuntimeError "stream failed")) /\
  fst absent <> fst failing.
Proof.
  cbv zeta. split; [reflexivity|].
  split; [eexists; vm_compute; reflexivity|].
  split; [vm_compute; reflexivity|].
  vm_compute. discriminate.
Qed.

(** When the voice resolves and the engine returns a 1-dimensional float
    buffer of [N] samples (small enough for the 32-bit size field),
    [synthesize] returns: the timing reports sample rate 24000 and
    duration [N / 24000] (Python's true division of the two integers), and
    the payload is a 44-byte header announcing [2 * N] data bytes followed
    by the [N] quantized samples. *)
Lemma synthesize_reports_duration
    (cfg : Config) (env : Env) (text voice_id : string) (s s1 : State)
    (rc : Tensor) (rt : string) (engine : NeuTTS) (wav : ndarray)
    (N : nat) :
  get_voice_data cfg env voice_id s = (Ok (Some rc, Some rt), s1) ->
  tts s = Some engine ->
  infer engine text rc rt = Ok wav ->
  shape wav = [N] ->
  List.length (data wav) = N ->
  36 + 2 * Z.of_nat N < 2 ^ 32 ->
  exists wav_data timing s2,
    synthesize cfg env text voice_id s = (Ok (wav_data, timing), s2) /\
    sample_rate timing = 24000 /\
    duration_seconds timing = int_truediv (Z.of_nat N) 24000 /\
    Z.of_nat (List.length wav_data) = 44 + 2 * Z.of_nat N /\
    skipn 44 wav_data = int16_tobytes (quantize_array wav) /\
    List.length (quantize_array wav) = N /\
    option_map data_bytes (parse_wav_header wav_data)
      = Some (2 * Z.of_nat N) /\
    option_map rate (parse_wav_header wav_data) = Some 24000.
Proof.
  intros Hget Htts Hinfer Hshape Hlen Hfit.
  destruct (lookup_keeps_engine _ _ _ _ Hget) as (Ht1 & _).
  assert (Hff : header_fields_fit 24000 1 16
                  (2 * Z.of_nat (List.length (data wav)))).
  { rewrite Hlen. unfold header_fields_fit.
    change (24000 * 1 * 16 / 8) with 48000.
    change (1 * 16 / 8) with 2. lia. }
  destruct (numpy_to_wav_bytes wav Hff) as (h & _ & Hh & Hwav & Hparse).
  rewrite Hlen in Hparse.
  unfold synthesize, time. cbv [bind]. fold (tick s).
  rewrite get_voice_data_tick, Hget. cbn [fst snd].
  unfold tts_infer. cbv [bind get log lift ret].
  cbn [tick tts voice_cache next_id clock_reads trace].
  rewrite Ht1, Htts, Hinfer, Hwav.
  unfold len. rewrite Hshape.
  do 3 eexists. split; [reflexivity|].
  cbn [sample_rate duration_seconds].
  split; [reflexivity|]. split; [reflexivity|].
  split.
  { rewrite length_app, Nat2Z.inj_add, length_int16_tobytes, Hh.
    unfold quantize_array. rewrite length_map, Hlen. lia. }
  split.
  { rewrite <- Hh. rewrite skipn_app, skipn_all, Nat.sub_diag.
    reflexivity. }
  split; [unfold quantize_array; now rewrite length_map|].
  rewrite Hparse. split; reflexivity.
Qed.

Lemma synthesize_reports_duration_example :
  exists wav_data timing s2,
    synthesize cfg0 env0 "Hallo" "anna" started0
      = (Ok (wav_data, timing), s2) /\
    sample_rate timing = 24000 /\
    duration_seconds timing = int_truediv 2 24000.
Proof.
  destruct (@synthesize_reports_duration
              cfg0 env0 "Hallo" "anna" started0 started0
              anna_codes "Hallo" engine0 wav0 2
              eq_refl eq_refl eq_refl eq_refl eq_refl)
    as (wav_data & timing & s2 & Hrun & Hsr & Hdur & _);
    [reflexivity|].
  exists wav_data, timing, s2. repeat split; assumption.
Defined.

(* ================================================================== *)
(** * What the calls on the service keep *)

Lemma keeps_service_refl (s : State) : keeps_service s s.
Proof. split; auto. Qed.

Lemma keeps_service_trans (s1 s2 s3 : State) :
  keeps_service s1 s2 -> keeps_service s2 s3 -> keeps_service s1 s3.
Proof.
  intros (Ht1 & Hc1) (Ht2 & Hc2). split; [congruence|].
  intro Hnone. rewrite Hc2 by congruence. auto.
Qed.

Lemma scan_keeps_service (cfg : Config) (env : Env) (s : State) :
  keeps_service s (snd (_scan_custom_voices cfg env s)).
Proof.
  destruct (scan_grows cfg env s) as (s' & Hrun & Hg & _).
  rewrite Hrun. cbn [snd]. split; [apply Hg|].
  intro Hnone.
  destruct (scan_uninitialized cfg env s Hnone) as (s'' & Hrun' & Hc & _).
  rewrite Hrun in Hrun'. now injection Hrun' as <-.
Qed.

Lemma reload_keeps_service (cfg : Config) (env : Env) (s : State) :
  keeps_service s (snd (reload_custom_voices cfg env s)).
Proof.
  destruct (scan_grows cfg env s) as (s' & Hrun & _).
  rewrite (reload_unfold _ _ _ Hrun). cbn [snd].
  pose proof (scan_keeps_service cfg env s) as H.
  now rewrite Hrun in H.
Qed.

Lemma lookup_keeps_service
    (cfg : Config) (env : Env) (voice_id : string) (s : State) :
  keeps_service s (snd (get_voice_data cfg env voice_id s)).
Proof.
  destruct (dict_get (voice_cache s) voice_id) as [e|] eqn:E.
  - rewrite (get_voice_data_present cfg env _ _ E).
    apply keeps_service_refl.
  - rewrite get_voice_data_absent by (unfold dict_mem; now rewrite E).
    cbn [snd]. apply reload_keeps_service.
Qed.

Lemma synthesize_keeps_service
    (cfg : Config) (env : Env) (text voice_id : string) (s : State) :
  keeps_service s (snd (synthesize cfg env text voice_id s)).
Proof.
  apply keeps_service_trans with (s2 := tick s);
    [split; auto|].
  apply keeps_service_trans
    with (s2 := snd (get_voice_data cfg env voice_id (tick s)));
    [apply lookup_keeps_service|].
  unfold synthesize, time. cbv [bind]. fold (tick s).
  destruct (get_voice_data cfg env voice_id (tick s))
    as [[[[rc|] rt]|e] s1]; cbn [snd];
    try apply keeps_service_refl.
  unfold tts_infer. cbv [bind get log lift ret raise].
  destruct (tts s1) as [engine|] eqn:Etts;
    [|apply keeps_service_refl].
  destruct (infer engine text rc _) as [wav|e]; [|now split].
  destruct (_numpy_to_wav wav 24000) as [wav_data|e]; [|now split].
  destruct (len wav) as [n|e]; now split.
Qed.

Lemma fallback_outcome_state
    (T : Type) (yielded : list (list byte))
    (r : result (list byte * T) * State) :
  snd (fallback_outcome yielded r) = snd r.
Proof. destruct r as [[[wav tm]|e] s]; reflexivity. Qed.

Lemma streaming_keeps_service
    (cfg : Config) (env : Env) (text voice_id : string) (s : State) :
  keeps_service s (snd (synthesize_streaming cfg env text voice_id s)).
Proof.
  pose proof (lookup_keeps_service cfg env voice_id s) as Hk.
  destruct (get_voice_data_result cfg env voice_id s)
    as (s1 & n & _ & Hres).
  rewrite Hres in Hk. cbn [snd] in Hk.
  destruct (dict_get (voice_cache s1) voice_id) as [e|].
  - rewrite (@synthesize_streaming_cases cfg env text voice_id s s1
               (ref_codes e) (ref_text e) Hres).
    destruct (tts s1) as [engine|];
      [|rewrite fallback_outcome_state; apply synthesize_keeps_service].
    destruct (infer_stream engine) as [f|];
      [|rewrite fallback_outcome_state; apply synthesize_keeps_service].
    cbv zeta.
    assert (Hadd : keeps_service s
                     (add_events [EvInferStream text (ref_codes e)
                                    (ref_text e)] s1))
      by (destruct Hk; now split).
    destruct (snd (f text (ref_codes e) (ref_text e))) as [err|];
      [|exact Hadd].
    destruct (is_AttributeError err); [|exact Hadd].
    rewrite fallback_outcome_state.
    apply (keeps_service_trans Hadd), synthesize_keeps_service.
  - unfold synthesize_streaming.
    unfold gbind at 1. unfold glift at 1. rewrite Hres.
    exact Hk.
Qed.

Lemma keeps_service_invariant (s s' : State) :
  keeps_service s s' ->
  empty_until_initialized s -> empty_until_initialized s'.
Proof.
  intros (Ht & Hc) Hinv Hnone. rewrite Ht in Hnone.
  rewrite Hc by assumption. auto.
Qed.

Lemma initialize_invariant (cfg : Config) (env : Env) (s : State) :
  empty_until_initialized s ->
  empty_until_initialized (snd (initialize_tts cfg env s)).
Proof.
  intros Hinv. unfold initialize_tts. cbv [bind get log lift set_tts ret].
  destruct (tts s) as [engine|] eqn:Etts; [exact Hinv|].
  destruct (NeuTTS_new env) as [engine|e]; cbn [snd].
  - set (s0 := {| tts := Some engine; voice_cache := _ |}).
    destruct (load_builtins_frame cfg env builtin_voices s0)
      as (s1 & Hrun1 & Ht1 & _).
    unfold _load_builtin_samples. rewrite Hrun1.
    pose proof (scan_keeps_service cfg env s1) as (Ht2 & _).
    destruct (_scan_custom_voices cfg env s1) as [r s2].
    cbn [snd] in *. intro Hnone.
    rewrite Ht2, Ht1 in Hnone. discriminate.
  - intro Hnone. cbn [voice_cache]. now apply Hinv.
Qed.

(** Whatever calls were made on the service since its construction, it
    has an empty cache as long as it has no engine. *)
Lemma run_calls_invariant (cfg : Config) (calls : list call) (s : State) :
  empty_until_initialized s ->
  empty_until_initialized (run_calls cfg calls s).
Proof.
  revert s. induction calls as [|c calls IH]; intros s Hinv; [exact Hinv|].
  cbn [run_calls fold_left]. apply IH.
  destruct c as [env|env| | |env v|env t v|env t v]; cbn [exec_call].
  - now apply initialize_invariant.
  - apply (keeps_service_invariant (reload_keeps_service cfg env s) Hinv).
  - exact Hinv.
  - unfold is_initialized. cbv [bind get ret]. exact Hinv.
  - apply (keeps_service_invariant (lookup_keeps_service cfg env v s) Hinv).
  - apply (keeps_service_invariant
             (synthesize_keeps_service cfg env t v s) Hinv).
  - apply (keeps_service_invariant
             (streaming_keeps_service cfg env t v s) Hinv).
Qed.

(** ** C1 *)

(** C1, as the code has it.  On the service object in any state it can
    be in (after any sequence of calls since its construction), whenever
    [is_initialized()] is false, [synthesize] fails for every text and
    voice id with the [ValueError] of a missed lookup, "Voice '<id>' not
    found": the cache is still empty, the reload the lookup triggers has
    no engine to encode with, and the second look misses.  The failure
    leaves the cache and the absent engine as they were. *)
Theorem uninitialized_synthesize_voice_not_found
    (cfg : Config) (calls : list call) (env : Env)
    (text voice_id : string) :
  let s := run_calls cfg calls TTSService_init in
  is_initialized s = (Ok false, s) ->
  exists s',
    synthesize cfg env text voice_id s =
    (Raise (voice_not_found voice_id), s') /\
    voice_cache s' = voice_cache s /\
    is_initialized s' = (Ok false, s').
Proof.
  intros s Hinit.
  apply synthesize_without_engine_misses; [exact Hinit|].
  assert (Hnone : tts s = None).
  { unfold is_initialized in Hinit. cbv [bind get ret] in Hinit.
    destruct (tts s); [discriminate|reflexivity]. }
  assert (Hinv : empty_until_initialized s).
  { apply run_calls_invariant. intros _. reflexivity. }
  rewrite (Hinv Hnone). reflexivity.
Qed.

Lemma uninitialized_synthesize_voice_not_found_witness :
  exists s',
    synthesize cfg0 env0 "Hallo" "greta"
      (run_calls cfg0 calls_failed_start TTSService_init) =
    (Raise (voice_not_found "greta"), s') /\
    voice_cache s' =
      voice_cache (run_calls cfg0 calls_failed_start TTSService_init) /\
    is_initialized s' = (Ok false, s').
Proof.
  apply (@uninitialized_synthesize_voice_not_found
           cfg0 calls_failed_start env0 "Hallo" "greta").
  reflexivity.
Defined.

(* ================================================================== *)
(** * Quantization in both packaging paths *)

(** ** C3 *)

(** C3, as the code has it.  The quantization [(x * 32767).astype(int16)]
    truncates the product toward zero (it does not round to nearest) and
    does not clamp: for a finite product whose integer part [t] fits 32
    bits the result is [t] reduced to the signed 16-bit range, congruent
    to [t] modulo 2^16; it is [t] itself when [t] is in range, and wraps
    to [t - 2^16] or [t + 2^16] just beyond it, rather than saturating.
    The one-shot WAV payload and every chunk of the streaming path hold
    exactly these values. *)
Theorem quantization_truncates_and_wraps
    (d : dtype) (x : spec_float) (t : Z) :
  SFtrunc (mul_scalar d x 32767) = Some t ->
  - 2 ^ 31 <= t < 2 ^ 31 ->
  quantize d x = wrap16 t /\
  (forall sg m e,
     mul_scalar d x 32767 = S754_finite sg m e ->
     (if sg then t <= 0 else 0 <= t) /\
     2 ^ Z.max (- e) 0 * Z.abs t <= Zpos m * 2 ^ Z.max e 0
       < 2 ^ Z.max (- e) 0 * (Z.abs t + 1)) /\
  - 2 ^ 15 <= quantize d x < 2 ^ 15 /\
  (quantize d x - t) mod 2 ^ 16 = 0 /\
  (- 2 ^ 15 <= t < 2 ^ 15 -> quantize d x = t) /\
  (2 ^ 15 <= t < 2 ^ 15 + 2 ^ 16 -> quantize d x = t - 2 ^ 16) /\
  (- 2 ^ 15 - 2 ^ 16 <= t < - 2 ^ 15 -> quantize d x = t + 2 ^ 16) /\
  (forall audio sr wav,
     _numpy_to_wav audio sr = Ok wav ->
     skipn 44 wav =
     int16_tobytes (map (quantize (arr_dtype audio)) (data audio))) /\
  (forall cfg env text voice_id s s1 rc rt engine f chunks,
     get_voice_data cfg env voice_id s = (Ok (Some rc, Some rt), s1) ->
     tts s = Some engine ->
     infer_stream engine = Some f ->
     f text rc rt = (chunks, None) ->
     fst (fst (synthesize_streaming cfg env text voice_id s)) =
     map (fun chunk =>
            int16_tobytes (map (quantize (arr_dtype chunk)) (data chunk)))
         chunks).
Proof.
  intros Ht Hr.
  pose proof (quantize_trunc d x Ht Hr) as Hq.
  split; [exact Hq|].
  split.
  { intros sg m e Hprod. rewrite Hprod in Ht.
    now apply SFtrunc_toward_zero. }
  rewrite Hq.
  split; [apply wrap16_range|].
  split; [apply wrap16_congruent|].
  split; [apply wrap16_in_range|].
  split; [apply wrap16_above|].
  split; [apply wrap16_below|].
  split; [apply numpy_to_wav_payload|].
  intros cfg env text voice_id s s1 rc rt engine f chunks
         Hget Htts Hf Hrun.
  rewrite (@synthesize_streaming_cases cfg env text voice_id s s1 rc rt
             Hget).
  destruct (lookup_keeps_engine _ _ _ _ Hget) as (Ht1 & _).
  rewrite Ht1, Htts, Hf, Hrun. reflexivity.
Qed.

Lemma quantization_truncates_and_wraps_witness :
  quantize float32 one_and_half32 = wrap16 49150 /\
  quantize float32 one_and_half32 = 49150 - 2 ^ 16.
Proof.
  destruct (@quantization_truncates_and_wraps float32 one_and_half32 49150)
    as (Hq & _ & _ & _ & _ & Habove & _);
    [reflexivity|lia|].
  split; [exact Hq|apply Habove; lia].
Defined.

(** C3 as stated fails: the sample 0.5 has the product 16383.5, which
    rounds to 16384, but the code quantizes it to 16383. *)
Lemma quantization_is_not_rounding :
  mul_scalar float32 half32 32767 = S754_finite false 16776704 (-10) /\
  SFround (mul_scalar float32 half32 32767) = Some 16384 /\
  quantize float32 half32 = 16383 /\
  quantize float32 half32 <> wrap16 16384.
Proof.
  repeat split; try reflexivity. vm_compute. discriminate.
Qed.

(* ================================================================== *)
(** * The WAV encoder on a concrete buffer *)

Lemma wav_encoder_layout_witness :
  exists h payload,
    List.length h = 44%nat /\
    _numpy_to_wav wav0 24000 = Ok (h ++ payload) /\
    read_int16s payload = quantize_array wav0.
Proof.
  destruct (@wav_encoder_layout wav0 24000 1 16 4)
    as (_ & (h & payload & Hlen & Hwav & _ & _ & Hread & _) & _).
  - unfold header_fields_fit.
    change (24000 * 1 * 16 / 8) with 48000.
    change (1 * 16 / 8) with 2. lia.
  - unfold header_fields_fit.
    change (24000 * 1 * 16 / 8) with 48000.
    change (1 * 16 / 8) with 2. cbn [wav0 data List.length]. lia.
  - exists h, payload. repeat split; assumption.
Defined.

(* ================================================================== *)
(** * The speech endpoint *)

Lemma mapped_voice_cases (requested : string) :
  (requested = "coral" \/ requested = "dave" ->
   mapped_voice requested = "greta") /\
  (requested <> "coral" -> requested <> "dave" ->
   mapped_voice requested = requested).
Proof.
  unfold mapped_voice, dict_get_default, voice_mapping.
  split.
  - intros [->| ->]; reflexivity.
  - intros Hc Hd. cbn [dict_get].
    destruct (String.eqb requested "greta") eqn:E1;
      [now apply String.eqb_eq in E1|].
    destruct (String.eqb requested "mateo") eqn:E2;
      [now apply String.eqb_eq in E2|].
    destruct (String.eqb requested "juliette") eqn:E3;
      [now apply String.eqb_eq in E3|].
    destruct (String.eqb requested "coral") eqn:E4;
      [apply String.eqb_eq in E4; contradiction|].
    destruct (String.eqb requested "dave") eqn:E5;
      [apply String.eqb_eq in E5; contradiction|].
    reflexivity.
Qed.

(** On an initialized service the endpoint maps the name, then checks
    the mapped id against the cache, then answers from [synthesize] on
    the mapped id. *)
Lemma openai_speech_initialized
    (cfg : Config) (lib : ServerLib) (env : Env)
    (request : OpenAISpeechRequest) (s : State) (engine : NeuTTS) :
  tts s = Some engine ->
  openai_speech cfg lib env request s =
  if dict_mem (mapped_voice (voice request)) (voice_cache s)
  then speech_response cfg lib env request (mapped_voice (voice request)) s
  else (Raise (voice_404 (voice request) (voice_cache s)), s).
Proof.
  intro Htts. unfold openai_speech, is_initialized.
  cbv [bind get ret raise]. rewrite Htts. cbn [negb].
  fold (mapped_voice (voice request)).
  destruct (dict_mem (mapped_voice (voice request)) (voice_cache s));
    reflexivity.
Qed.

(** The endpoint's [try] block asks the engine for the text of the
    request with the reference data cached under the given id. *)
Lemma speech_response_infers_with
    (cfg : Config) (lib : ServerLib) (env : Env)
    (request : OpenAISpeechRequest) (voice_id : string) (s : State)
    (engine : NeuTTS) (e : VoiceEntry) :
  tts s = Some engine ->
  dict_get (voice_cache s) voice_id = Some e ->
  trace (snd (speech_response cfg lib env request voice_id s)) =
  trace s ++ [EvInfer (input request) (ref_codes e) (ref_text e)].
Proof.
  intros Htts He.
  unfold speech_response, try_except, synthesize, time.
  cbv [bind]. fold (tick s).
  rewrite get_voice_data_tick,
          (get_voice_data_present cfg env _ _ He).
  cbn [fst snd]. unfold tts_infer. cbv [bind get log lift ret raise].
  cbn [tick tts voice_cache next_id clock_reads trace].
  rewrite Htts.
  destruct (infer engine (input request) (ref_codes e) (ref_text e))
    as [wav|err]; [|reflexivity].
  destruct (_numpy_to_wav wav 24000) as [wav_data|err]; [|reflexivity].
  destruct (len wav) as [n|err]; [|reflexivity].
  destruct (response_format request) as [fmt|].
  - destruct (String.eqb fmt "pcm").
    + destruct (pydub_raw_pcm lib wav_data); reflexivity.
    + destruct (pydub_export lib wav_data _ _); reflexivity.
  - destruct (pydub_export lib wav_data _ _); reflexivity.
Qed.

(** ** C10 *)

(** C10.  The speech endpoint maps the requested names "coral" and "dave"
    to "greta" and every other name to itself, and only then checks the
    cache: on an initialized service a request answers 404 exactly when
    the mapped id is not cached, and otherwise answers from [synthesize]
    on the mapped id.  So with "greta" cached a request for "coral" or
    "dave" is answered exactly as the same request for "greta", and the
    engine is asked to infer with greta's reference encoding and
    transcript. *)
Theorem speech_endpoint_aliases
    (cfg : Config) (lib : ServerLib) (env : Env)
    (request : OpenAISpeechRequest) (s : State) (engine : NeuTTS) :
  tts s = Some engine ->
  let requested := voice request in
  (requested = "coral" \/ requested = "dave" ->
   mapped_voice requested = "greta") /\
  (requested <> "coral" -> requested <> "dave" ->
   mapped_voice requested = requested) /\
  (dict_mem (mapped_voice requested) (voice_cache s) = false ->
   openai_speech cfg lib env request s =
   (Raise (voice_404 requested (voice_cache s)), s)) /\
  (dict_mem (mapped_voice requested) (voice_cache s) = true ->
   openai_speech cfg lib env request s =
   speech_response cfg lib env request (mapped_voice requested) s) /\
  (requested = "coral" \/ requested = "dave" ->
   forall greta,
     dict_get (voice_cache s) "greta" = Some greta ->
     openai_speech cfg lib env request s =
     openai_speech cfg lib env (with_voice "greta" request) s /\
     trace (snd (openai_speech cfg lib env request s)) =
     trace s ++ [EvInfer (input request) (ref_codes greta)
                         (ref_text greta)]).
Proof.
  intros Htts requested.
  destruct (mapped_voice_cases requested) as (Halias & Hother).
  split; [exact Halias|]. split; [exact Hother|].
  pose proof (@openai_speech_initialized cfg lib env request s engine Htts)
    as Hrun.
  fold requested in Hrun.
  split; [intro Hm; now rewrite Hm in Hrun|].
  split; [intro Hm; now rewrite Hm in Hrun|].
  intros Hreq greta Hg.
  assert (Hmem : dict_mem "greta" (voice_cache s) = true)
    by (unfold dict_mem; now rewrite Hg).
  rewrite (Halias Hreq), Hmem in Hrun.
  rewrite Hrun.
  split.
  - rewrite (@openai_speech_initialized cfg lib env
               (with_voice "greta" request) s engine Htts).
    cbn [with_voice voice].
    change (mapped_voice "greta") with "greta". rewrite Hmem.
    reflexivity.
  - now apply speech_response_infers_with with (engine := engine).
Qed.

Lemma speech_endpoint_aliases_witness :
  openai_speech cfg0 lib0 env0 coral_request started0 =
  openai_speech cfg0 lib0 env0 (with_voice "greta" coral_request) started0.
Proof.
  destruct (@speech_endpoint_aliases cfg0 lib0 env0 coral_request started0
              engine0 eq_refl)
    as (_ & _ & _ & _ & Hsame).
  apply (Hsame (or_introl eq_refl) greta0 eq_refl).
Defined.

(* ================================================================== *)
(** * The reported duration of an array of several dimensions *)

(** ** C9 *)

(** C9 on an inference output of shape (1, 2).  [_numpy_to_wav] flattens
    the array and encodes its two samples (data size 4), but the timing
    is computed from [len(wav)], the first dimension: the duration
    reported is 1/24000, not the 2/24000 of the samples encoded. *)
Theorem synthesize_duration_counts_first_dimension :
  exists wav_data timing s2,
    synthesize cfg0 env0 "Hallo" "anna" (with_engine engine_row started0)
      = (Ok (wav_data, timing), s2) /\
    skipn 44 wav_data = int16_tobytes (quantize_array wav_row) /\
    List.length (quantize_array wav_row) = 2%nat /\
    option_map data_bytes (parse_wav_header wav_data) = Some 4 /\
    sample_rate timing = 24000 /\
    duration_seconds timing = int_truediv 1 24000 /\
    duration_seconds timing <> int_truediv 2 24000.
Proof.
  do 3 eexists. split; [vm_compute; reflexivity|].
  repeat split; try reflexivity.
  vm_compute. discriminate.
Qed.

(* ================================================================== *)
(** * Start-up *)

(** [initialize_tts] on a service without engine, when the construction
    succeeds: the built-in samples are loaded and the custom directory is
    scanned with the new engine in place. *)
Lemma initialize_unfold
    (cfg : Config) (env : Env) (s : State) (engine : NeuTTS) :
  tts s = None ->
  NeuTTS_new env = Ok engine ->
  initialize_tts cfg env s =
  bind (_load_builtin_samples cfg env)
       (fun _ => _scan_custom_voices cfg env)
       (with_engine engine (add_events [EvConstruct] s)).
Proof.
  intros Hnone Hnew. unfold initialize_tts.
  cbv [bind get log lift set_tts]. rewrite Hnone, Hnew. reflexivity.
Qed.

Lemma initialize_runs
    (cfg : Config) (env : Env) (s : State) (engine : NeuTTS) :
  tts s = None ->
  NeuTTS_new env = Ok engine ->
  exists s1 s',
    _load_builtin_samples cfg env
      (with_engine engine (add_events [EvConstruct] s)) = (Ok tt, s1) /\
    _scan_custom_voices cfg env s1 = (Ok tt, s') /\
    initialize_tts cfg env s = (Ok tt, s') /\
    tts s1 = Some engine /\
    tts s' = Some engine /\
    exists n, grows n s1 s'.
Proof.
  intros Hnone Hnew.
  destruct (load_builtins_frame cfg env builtin_voices
              (with_engine engine (add_events [EvConstruct] s)))
    as (s1 & Hload & Ht1 & _).
  destruct (scan_grows cfg env s1) as (s' & Hscan & Hg & _).
  exists s1, s'. split; [exact Hload|]. split; [exact Hscan|].
  split.
  - rewrite (@initialize_unfold cfg env s engine Hnone Hnew). unfold bind.
    unfold _load_builtin_samples. now rewrite Hload.
  - split; [exact Ht1|]. split; [|eauto].
    destruct Hg as (Ht & _). now rewrite Ht.
Qed.

(** ** X1 *)

(** X1.  When the engine can be constructed, [initialize_tts] on a
    service without engine returns normally, whatever the sample and
    voice files are like, and leaves the service initialized with that
    engine; any further [initialize_tts] returns at once and changes
    nothing, so the engine is constructed once. *)
Theorem initialize_constructs_once
    (cfg : Config) (env : Env) (s : State) (engine : NeuTTS) :
  tts s = None ->
  NeuTTS_new env = Ok engine ->
  exists s',
    initialize_tts cfg env s = (Ok tt, s') /\
    tts s' = Some engine /\
    is_initialized s' = (Ok true, s') /\
    forall env', initialize_tts cfg env' s' = (Ok tt, s').
Proof.
  intros Hnone Hnew.
  destruct (@initialize_runs cfg env s engine Hnone Hnew)
    as (s1 & s' & _ & _ & Hrun & _ & Ht & _).
  exists s'. split; [exact Hrun|]. split; [exact Ht|].
  split.
  - unfold is_initialized. cbv [bind get ret]. now rewrite Ht.
  - intro env'. unfold initialize_tts. cbv [bind get ret].
    now rewrite Ht.
Qed.

Lemma initialize_constructs_once_witness :
  exists s',
    initialize_tts cfg0 env0 TTSService_init = (Ok tt, s') /\
    tts s' = Some engine0.
Proof.
  destruct (@initialize_constructs_once cfg0 env0 TTSService_init engine0
              eq_refl eq_refl) as (s' & Hrun & Ht & _).
  exists s'. split; assumption.
Defined.

(** ** X2 *)

(** X2.  When constructing the engine raises, [initialize_tts] raises
    that exception; the service stays without engine and its cache is
    untouched (no sample is loaded, no directory scanned), and a later
    [initialize_tts] tries the construction again and succeeds if it
    does. *)
Theorem initialize_failure_can_be_retried
    (cfg : Config) (env : Env) (s : State) (e : exn) :
  tts s = None ->
  NeuTTS_new env = Raise e ->
  let s1 := add_events [EvConstruct] s in
  initialize_tts cfg env s = (Raise e, s1) /\
  is_initialized s1 = (Ok false, s1) /\
  voice_cache s1 = voice_cache s /\
  forall env' engine,
    NeuTTS_new env' = Ok engine ->
    exists s', initialize_tts cfg env' s1 = (Ok tt, s') /\
               tts s' = Some engine.
Proof.
  intros Hnone Hnew s1. split; [|split; [|split]].
  - unfold initialize_tts. cbv [bind get log lift].
    rewrite Hnone, Hnew. reflexivity.
  - unfold is_initialized. cbv [bind get ret]. subst s1.
    cbn [add_events tts]. now rewrite Hnone.
  - reflexivity.
  - intros env' engine Hok.
    destruct (@initialize_runs cfg env' s1 engine Hnone Hok)
      as (s1' & s' & _ & _ & Hrun & _ & Ht & _).
    eauto.
Qed.

Lemma initialize_failure_can_be_retried_witness :
  initialize_tts cfg0 env_no_engine TTSService_init =
  (Raise (RuntimeError "could not load the model"),
   add_events [EvConstruct] TTSService_init).
Proof.
  apply (@initialize_failure_can_be_retried
           cfg0 env_no_engine TTSService_init
           (RuntimeError "could not load the model") eq_refl eq_refl).
Defined.

(** ** X3 *)

(** X3.  Start-up loads the built-in samples before it scans the custom
    directory, so a built-in voice whose sample loads is cached as
    built-in, with the sample of the package as its source, whatever the
    custom directory holds; a custom file of the same stem does not
    replace it. *)
Theorem builtin_wins_at_startup
    (cfg : Config) (env : Env) (s : State) (engine : NeuTTS)
    (v : string) (c c' : list Z) (t : string) :
  tts s = None ->
  NeuTTS_new env = Ok engine ->
  In v ["greta"; "mateo"; "juliette"] ->
  path_exists env (builtin_wav cfg v) = true ->
  encode_reference engine env (builtin_wav cfg v) = Ok c ->
  builtin_contents cfg env v c = Some (c', t) ->
  exists s' id,
    initialize_tts cfg env s = (Ok tt, s') /\
    dict_get (voice_cache s') v =
    Some (builtin_entry cfg v v {| obj_id := id; codes := c' |} t).
Proof.
  intros Hnone Hnew Hv Hwav Henc Hcont.
  destruct (@initialize_runs cfg env s engine Hnone Hnew)
    as (s1 & s' & Hload & _ & Hrun & _ & _ & (n & Hg)).
  assert (Hin : In (v, v) builtin_voices).
  { unfold builtin_voices. cbn [In] in *.
    destruct Hv as [<-|[<-|[<-|[]]]]; auto. }
  assert (Hnd : NoDup (map fst builtin_voices)).
  { unfold builtin_voices. cbn [map fst].
    repeat constructor; cbn [In]; intuition discriminate. }
  destruct (@load_builtins_entry cfg env builtin_voices v v
              (with_engine engine (add_events [EvConstruct] s)) engine c
              Hnd Hin eq_refl Hwav Henc) as (s1' & Hload' & Hres).
  unfold _load_builtin_samples in Hload. rewrite Hload in Hload'.
  injection Hload' as <-.
  rewrite Hcont in Hres. destruct Hres as (id & Hget).
  exists s', id. split; [exact Hrun|].
  apply (grows_get _ Hg Hget).
Qed.

Lemma builtin_wins_at_startup_witness :
  In "/app/voices/greta.wav" (glob_glob env0 (voices_pattern cfg0)) /\
  exists s' id,
    initialize_tts cfg0 env0 TTSService_init = (Ok tt, s') /\
    dict_get (voice_cache s') "greta" =
    Some (builtin_entry cfg0 "greta" "greta"
            {| obj_id := id; codes := [22] |} "Guten Tag").
Proof.
  split; [cbn; tauto|].
  apply (@builtin_wins_at_startup cfg0 env0 TTSService_init engine0
           "greta" [22] [22] "Guten Tag");
    try reflexivity.
  cbn [In]. tauto.
Defined.

(* ================================================================== *)
(** * What a reload finds *)

Lemma dict_mem_keys (V : Type) (d : dict V) (k : string) :
  dict_mem k d = true <-> In k (dict_keys d).
Proof.
  unfold dict_mem, dict_keys.
  induction d as [|[k' v] d IH]; cbn [dict_get map fst In].
  - split; [discriminate|tauto].
  - destruct (String.eqb k k') eqn:E.
    + apply String.eqb_eq in E. subst. tauto.
    + apply String.eqb_neq in E. rewrite IH. split; [tauto|].
      intros [H|H]; [congruence|exact H].
Qed.

Lemma for_each_app
    (A : Type) (a b : list A) (body : A -> M unit) (s s1 : State) :
  for_each a body s = (Ok tt, s1) ->
  for_each (a ++ b) body s = for_each b body s1.
Proof.
  revert s. induction a as [|x a IH]; intros s H; cbn [for_each app] in *.
  - unfold ret in H. now injection H as <-.
  - unfold bind in *. destruct (body x s) as [[[]|e] s0]; [|discriminate].
    now apply IH.
Qed.

(** The loop of the scan caches nothing but stems of the paths it is
    given. *)
Lemma scan_loop_adds_stems
    (env : Env) (ps : list string) (s s' : State) (k : string) :
  for_each ps (scan_custom env) s = (Ok tt, s') ->
  dict_mem k (voice_cache s') = true ->
  dict_mem k (voice_cache s) = true \/ In k (map stem ps).
Proof.
  revert s. induction ps as [|p ps IH]; intros s Hrun Hk.
  - cbn [for_each] in Hrun. unfold ret in Hrun. injection Hrun as <-.
    now left.
  - destruct (scan_custom_cases env p s) as (s1 & Hrun1 & _ & Hc1).
    cbn [for_each] in Hrun. unfold bind in Hrun. rewrite Hrun1 in Hrun.
    destruct (IH s1 Hrun Hk) as [Hk1|Hin]; [|right; now right].
    destruct (dict_mem (stem p) (voice_cache s)) eqn:Emem.
    + left. now rewrite <- Hc1.
    + destruct (custom_load env (tts s) p) as [ct|e];
        [|left; now rewrite <- Hc1].
      rewrite Hc1 in Hk1.
      destruct (dict_mem k (voice_cache s)) eqn:Ek; [now left|].
      right. left.
      unfold dict_mem in Hk1, Ek.
      destruct (dict_get (voice_cache s) k) eqn:Eg; [discriminate|].
      erewrite dict_get_app_r in Hk1 by exact Eg. cbn [dict_get] in Hk1.
      destruct (String.eqb k (stem p)) eqn:E; [|discriminate].
      apply String.eqb_eq in E. now subst.
Qed.

(** ** X4 *)

(** X4.  [reload_custom_voices] never raises, whatever the files are
    like, and returns the ids of the cache it leaves; after it, every wav
    file listed in the custom directory is available under its stem or is
    one whose loading raised (a file that cannot be loaded does not keep
    the others from being loaded). *)
Theorem reload_covers_listing (cfg : Config) (env : Env) (s : State) :
  exists keys s',
    reload_custom_voices cfg env s = (Ok keys, s') /\
    keys = dict_keys (voice_cache s') /\
    (path_exists env (VOICES_DIR cfg) = true ->
     forall p,
       In p (glob_glob env (voices_pattern cfg)) ->
       In (stem p) keys \/
       exists e, custom_load env (tts s) p = Raise e).
Proof.
  destruct (scan_grows cfg env s) as (s' & Hrun & _).
  exists (dict_keys (voice_cache s')), s'.
  split; [now apply reload_unfold|]. split; [reflexivity|].
  intros Hdir p Hp.
  rewrite scan_unfold, Hdir in Hrun.
  set (s0 := add_events _ s) in Hrun.
  destruct (scan_loop env (glob_glob env (voices_pattern cfg)) s0)
    as (s'' & Hrun' & _ & Hcov).
  rewrite Hrun in Hrun'. injection Hrun' as <-.
  destruct (Hcov p Hp) as [Hm|He]; [left|right; exact He].
  now apply dict_mem_keys.
Qed.

(** ** X5 *)

(** X5.  When the custom voices directory does not exist,
    [reload_custom_voices] is not an error: it probes the directory,
    lists and encodes nothing, leaves the cache as it is and returns the
    ids already cached. *)
Theorem reload_without_directory (cfg : Config) (env : Env) (s : State) :
  path_exists env (VOICES_DIR cfg) = false ->
  reload_custom_voices cfg env s =
  (Ok (dict_keys (voice_cache s)),
   add_events [EvExists (VOICES_DIR cfg)] s).
Proof.
  intro Hdir.
  rewrite (@reload_unfold cfg env s
             (add_events [EvExists (VOICES_DIR cfg)] s));
    [reflexivity|].
  now rewrite scan_unfold, Hdir.
Qed.

Lemma reload_without_directory_witness :
  reload_custom_voices cfg0 env_no_dir started0 =
  (Ok ["greta"; "mateo"; "anna"],
   add_events [EvExists "/app/voices"] started0).
Proof.
  apply (@reload_without_directory cfg0 env_no_dir started0).
  reflexivity.
Defined.

(** ** X6 *)

(** X6.  A scan of an existing directory caches a listed file that loads
    under its stem, when that id was not cached and no earlier file of
    the listing has the same stem: the entry is a custom one
    ([is_builtin] false, name "Custom voice: <stem>"), its source is that
    path, and it holds the encoding of that file and the stripped text of
    the sibling [.txt] (empty when there is none). *)
Theorem scan_caches_new_voice
    (cfg : Config) (env : Env) (s : State)
    (pre post : list string) (p : string) (ct : list Z * string) :
  path_exists env (VOICES_DIR cfg) = true ->
  glob_glob env (voices_pattern cfg) = pre ++ p :: post ->
  (forall q, In q pre -> stem q <> stem p) ->
  dict_mem (stem p) (voice_cache s) = false ->
  custom_load env (tts s) p = Ok ct ->
  exists s' id,
    _scan_custom_voices cfg env s = (Ok tt, s') /\
    dict_get (voice_cache s') (stem p) = Some (custom_entry p id ct).
Proof.
  intros Hdir Hglob Hpre Hmiss Hload.
  rewrite scan_unfold, Hdir, Hglob.
  set (s0 := add_events _ s).
  destruct (scan_loop env pre s0) as (s1 & Hrun1 & Hg1 & _).
  rewrite (@for_each_app _ pre (p :: post) (scan_custom env) s0 s1 Hrun1).
  assert (Hmiss1 : dict_mem (stem p) (voice_cache s1) = false).
  { destruct (dict_mem (stem p) (voice_cache s1)) eqn:E; [|reflexivity].
    destruct (@scan_loop_adds_stems env pre s0 s1 (stem p) Hrun1 E)
      as [H|H].
    - subst s0. cbn [add_events voice_cache] in H. congruence.
    - apply in_map_iff in H. destruct H as (q & Hq & Hin).
      now apply Hpre in Hin. }
  destruct (scan_custom_cases env p s1) as (s2 & Hrun2 & _ & Hc2).
  rewrite Hmiss1 in Hc2.
  assert (Ht1 : tts s1 = tts s) by apply Hg1.
  rewrite Ht1, Hload in Hc2.
  destruct (scan_loop env post s2) as (s' & Hrun' & Hg' & _).
  exists s', (next_id s1). split.
  - cbn [for_each]. unfold bind. now rewrite Hrun2.
  - apply (grows_get _ Hg'). rewrite Hc2.
    unfold dict_mem in Hmiss1.
    destruct (dict_get (voice_cache s1) (stem p)) eqn:Eg; [discriminate|].
    erewrite dict_get_app_r by exact Eg. cbn [dict_get].
    now rewrite String.eqb_refl.
Qed.

Lemma scan_caches_new_voice_witness :
  exists s' id,
    _scan_custom_voices cfg0 env1 started0 = (Ok tt, s') /\
    dict_get (voice_cache s') "otto" =
    Some (custom_entry "/app/voices/otto.wav" id ([20], "")).
Proof.
  apply (@scan_caches_new_voice cfg0 env1 started0
           ["/app/voices/greta.wav"; "/app/voices/anna.wav";
            "/app/voices/bad.wav"] [] "/app/voices/otto.wav" ([20], ""));
    try reflexivity.
  intros q [<-|[<-|[<-|[]]]]; discriminate.
Defined.

(* ================================================================== *)
(** * Synthesis of a cached voice, streaming of an unknown one *)

(** ** X7 *)



(** ** X8 *)

(** X8.  [synthesize_streaming] for a voice id that is not cached and
    that the reload does not bring in yields nothing and ends with the
    [ValueError] "Voice '<id>' not found"; the state it leaves is the one
    of that single reload, so the engine was not asked to infer. *)
Theorem streaming_unknown_voice
    (cfg : Config) (env : Env) (text voice_id : string) (s : State) :
  dict_mem voice_id (voice_cache s) = false ->
  let s1 := snd (reload_custom_voices cfg env s) in
  dict_get (voice_cache s1) voice_id = None ->
  synthesize_streaming cfg env text voice_id s =
  ([], Raise (voice_not_found voice_id), s1).
Proof.
  intros Hmiss s1 Hnone.
  unfold synthesize_streaming.
  unfold gbind at 1. unfold glift at 1.
  rewrite (get_voice_data_absent cfg env voice_id s Hmiss).
  cbv zeta. fold s1. rewrite Hnone. reflexivity.
Qed.

Lemma streaming_unknown_voice_witness :
  synthesize_streaming cfg0 env0 "Hallo" "otto" started0 =
  ([], Raise (voice_not_found "otto"),
   snd (reload_custom_voices cfg0 env0 started0)).
Proof.
  apply (@streaming_unknown_voice cfg0 env0 "Hallo" "otto" started0);
    reflexivity.
Defined.

(** ** X9 *)

(** X9.  With an engine that streams, [synthesize_streaming] yields one
    chunk of bytes per chunk of the engine, in order, each of exactly two
    bytes per sample, which read back, low byte first, as the quantized
    samples of that chunk in their order: the stream carries raw samples
    without any WAV header, and its total size is twice the number of
    samples produced. *)
Theorem streaming_chunks_are_raw_samples
    (cfg : Config) (env : Env) (text voice_id : string) (s s1 : State)
    (rc : Tensor) (rt : string) (engine : NeuTTS)
    (f : string -> Tensor -> string -> list ndarray * option exn)
    (chunks : list ndarray) :
  get_voice_data cfg env voice_id s = (Ok (Some rc, Some rt), s1) ->
  tts s = Some engine ->
  infer_stream engine = Some f ->
  f text rc rt = (chunks, None) ->
  let yielded := fst (fst (synthesize_streaming cfg env text voice_id s)) in
  snd (fst (synthesize_streaming cfg env text voice_id s)) = Ok tt /\
  Forall2 (fun bytes chunk =>
             read_int16s bytes = quantize_array chunk /\
             Z.of_nat (List.length bytes)
             = 2 * Z.of_nat (List.length (data chunk)))
          yielded chunks /\
  Z.of_nat (List.length (List.concat yielded))
  = 2 * Z.of_nat (List.length (flat_map data chunks)).
Proof.
  intros Hget Htts Hf Hrun yielded. subst yielded.
  rewrite (@synthesize_streaming_cases cfg env text voice_id s s1 rc rt
             Hget).
  destruct (lookup_keeps_engine _ _ _ _ Hget) as (Ht1 & _).
  rewrite Ht1, Htts, Hf, Hrun. cbn [fst snd].
  split; [reflexivity|].
  assert (Hlen : forall c,
            Z.of_nat (List.length (chunk_bytes c))
            = 2 * Z.of_nat (List.length (data c))).
  { intro c. unfold chunk_bytes, quantize_array.
    now rewrite length_int16_tobytes, length_map. }
  split.
  - clear Hrun. induction chunks as [|c chunks IH]; cbn [map];
      constructor; auto.
    split; [apply read_quantized|apply Hlen].
  - clear Hrun. induction chunks as [|c chunks IH];
      cbn [map List.concat flat_map]; [reflexivity|].
    rewrite !length_app, !Nat2Z.inj_add, Hlen. lia.
Qed.

Lemma streaming_chunks_are_raw_samples_witness :
  snd (fst (synthesize_streaming cfg0 env0 "Hallo" "anna"
              (with_engine engine_streaming started0))) = Ok tt.
Proof.
  assert (Hget : get_voice_data cfg0 env0 "anna"
                   (with_engine engine_streaming started0)
                 = (Ok (Some anna_codes, Some "Hallo"),
                    with_engine engine_streaming started0))
    by (vm_compute; reflexivity).
  destruct (@streaming_chunks_are_raw_samples cfg0 env0 "Hallo" "anna"
              (with_engine engine_streaming started0)
              (with_engine engine_streaming started0)
              anna_codes "Hallo" engine_streaming
              (fun _ _ _ => (stream_chunks0, None))
              stream_chunks0 Hget eq_refl eq_refl eq_refl) as (H & _).
  exact H.
Defined.

(* ================================================================== *)
(** * The speech endpoint: failures and formats *)

(** ** X10 *)

(** X10.  On an initialized service, a speech request whose mapped voice
    is cached ends in a response or in an HTTP error 500 whose detail is
    "Speech synthesis failed: " followed by the text of the exception:
    whatever synthesis or transcoding raises is reported this way and
    nothing else escapes.  In particular a failing inference gives a 500
    with the engine's message. *)
Theorem speech_failures_are_500
    (cfg : Config) (lib : ServerLib) (env : Env)
    (request : OpenAISpeechRequest) (s : State) (engine : NeuTTS)
    (entry : VoiceEntry) :
  tts s = Some engine ->
  dict_get (voice_cache s) (mapped_voice (voice request)) = Some entry ->
  let r := fst (openai_speech cfg lib env request s) in
  ((exists response, r = Ok response) \/
   (exists e,
      r = Raise (HTTPException 500
                   ("Speech synthesis failed: " ++ exn_message e)))) /\
  (forall err,
     infer engine (input request) (ref_codes entry) (ref_text entry)
       = Raise err ->
     r = Raise (HTTPException 500
                  ("Speech synthesis failed: " ++ exn_message err))).
Proof.
  intros Htts He r. subst r.
  rewrite (@openai_speech_initialized cfg lib env request s engine Htts).
  unfold dict_mem. rewrite He.
  unfold speech_response. split.
  - match goal with
    | |- context [try_except ?m ?h s] =>
        unfold try_except; destruct (m s) as [[a|e] s']
    end; unfold raise; cbn [fst]; [left; eauto|right; eauto].
  - intros err Herr. unfold try_except.
    unfold synthesize, time. cbv [bind]. fold (tick s).
    rewrite get_voice_data_tick,
            (get_voice_data_present cfg env _ _ He).
    cbn [fst snd]. unfold tts_infer. cbv [bind get log lift ret raise].
    cbn [tick tts voice_cache next_id clock_reads trace].
    rewrite Htts, Herr. reflexivity.
Qed.

Lemma speech_failures_are_500_witness :
  (exists response,
     fst (openai_speech cfg0 lib0 env0 coral_request started0)
     = Ok response) \/
  (exists e,
     fst (openai_speech cfg0 lib0 env0 coral_request started0)
     = Raise (HTTPException 500
                ("Speech synthesis failed: " ++ exn_message e))).
Proof.
  apply (@speech_failures_are_500 cfg0 lib0 env0 coral_request started0
           engine0 greta0 eq_refl eq_refl).
Defined.

(** ** X11 *)

(** X11.  The speech endpoint rejects no response format: a request
    without format, or with a format other than pcm, mp3, opus, aac, flac
    and wav, is answered exactly as the same request for mp3. *)
Theorem unknown_format_is_mp3
    (cfg : Config) (lib : ServerLib) (env : Env)
    (request : OpenAISpeechRequest) (s : State) :
  (forall f, response_format request = Some f -> ~ In f known_formats) ->
  openai_speech cfg lib env request s =
  openai_speech cfg lib env (with_format (Some "mp3") request) s.
Proof.
  intro Hfmt.
  assert (Hresp : forall v s0,
            speech_response cfg lib env request v s0 =
            speech_response cfg lib env (with_format (Some "mp3") request)
                            v s0).
  { intros v s0. unfold speech_response.
    cbn [with_format response_format input].
    destruct (response_format request) as [f|] eqn:Ef; [|reflexivity].
    specialize (Hfmt f eq_refl). unfold known_formats in Hfmt.
    cbn [In] in Hfmt.
    assert (Hne : forall k, In k known_formats -> String.eqb f k = false).
    { intros k Hk. apply String.eqb_neq. intros ->.
      apply Hfmt. exact Hk. }
    unfold known_formats in Hne. cbn [In] in Hne.
    assert (Hpcm : String.eqb f "pcm" = false) by (apply Hne; tauto).
    assert (Hdef : dict_get_default format_map f "mp3" = "mp3").
    { unfold dict_get_default, format_map. cbn [dict_get].
      rewrite !Hne by tauto. reflexivity. }
    rewrite Hpcm. cbv zeta. rewrite !Hdef. reflexivity. }
  unfold openai_speech. cbv [bind].
  cbn [with_format voice].
  destruct (is_initialized s) as [[b|e] s0]; [|reflexivity].
  destruct ((if negb b then initialize_tts cfg env else ret tt) s0)
    as [[u|e] s1]; [|reflexivity].
  cbv [get].
  destruct (negb (dict_mem _ (voice_cache s1))); [reflexivity|].
  apply Hresp.
Qed.

Lemma unknown_format_is_mp3_witness :
  openai_speech cfg0 lib0 env0 ogg_request started0 =
  openai_speech cfg0 lib0 env0 (with_format (Some "mp3") ogg_request)
                started0.
Proof.
  apply (@unknown_format_is_mp3 cfg0 lib0 env0 ogg_request started0).
  intros f Hf. injection Hf as <-.
  cbn [known_formats In]. intuition discriminate.
Defined.

(* ================================================================== *)
(** * The endpoints before and after initialization *)

(** ** X12 *)

(** X12.  Both synthesis endpoints initialize the service on demand
    before their [try] block: when the service has no engine and
    constructing it raises, the request ends with that very exception,
    not with the endpoint's own HTTP error, and nothing was looked up or
    synthesized. *)
Theorem construction_failure_escapes_endpoints
    (cfg : Config) (lib : ServerLib) (elib : EndpointLib) (env : Env)
    (s : State) (e : exn) :
  tts s = None ->
  NeuTTS_new env = Raise e ->
  (forall request,
     openai_speech cfg lib env request s =
     (Raise e, add_events [EvConstruct] s)) /\
  (forall request,
     synthesize_speech cfg elib env request s =
     (Raise e, add_events [EvConstruct] s)).
Proof.
  intros Hnone Hnew. split; intro request.
  - unfold openai_speech, is_initialized, initialize_tts.
    cbv [bind get ret log lift]. rewrite Hnone. cbn [negb].
    rewrite Hnone, Hnew. reflexivity.
  - unfold synthesize_speech, is_initialized, initialize_tts.
    cbv [bind get ret log lift]. rewrite Hnone. cbn [negb].
    rewrite Hnone, Hnew. reflexivity.
Qed.

Lemma construction_failure_escapes_endpoints_witness :
  openai_speech cfg0 lib0 env_no_engine coral_request TTSService_init =
  (Raise (RuntimeError "could not load the model"),
   add_events [EvConstruct] TTSService_init).
Proof.
  apply (@construction_failure_escapes_endpoints
           cfg0 lib0 endpoint_lib0 env_no_engine TTSService_init
           (RuntimeError "could not load the model") eq_refl eq_refl).
Defined.

(** ** X13 *)

(** X13.  On an initialized service, a [/synthesize] request that carries
    a non-empty [ref_audio] is answered with an HTTP error 500, not 400:
    the 400 the endpoint raises for it is raised inside the [try] block,
    caught by its own handler and wrapped, its text becoming the detail.
    Nothing is synthesized and the service is left as it was. *)
Theorem reference_upload_is_reported_as_500
    (cfg : Config) (lib : EndpointLib) (env : Env)
    (request : TextRequest.t) (s : State) (engine : NeuTTS) :
  tts s = Some engine ->
  truthy (TextRequest.ref_audio request) = true ->
  synthesize_speech cfg lib env request s =
  (Raise (HTTPException 500
            (str_HTTPException lib 400 custom_reference_unsupported)), s).
Proof.
  intros Htts Href.
  unfold synthesize_speech, is_initialized, try_except.
  cbv [bind get ret raise]. rewrite Htts. cbn [negb].
  rewrite Href. reflexivity.
Qed.

Lemma reference_upload_is_reported_as_500_witness :
  synthesize_speech cfg0 endpoint_lib0 env0 upload_request started0 =
  (Raise (HTTPException 500
            (str_HTTPException endpoint_lib0 400
               custom_reference_unsupported)), started0).
Proof.
  assert (Htts : tts started0 = Some engine0) by (vm_compute; reflexivity).
  assert (Href : truthy (TextRequest.ref_audio upload_request) = true)
    by (vm_compute; reflexivity).
  exact (@reference_upload_is_reported_as_500
           cfg0 endpoint_lib0 env0 upload_request started0 engine0
           Htts Href).
Defined.

(** ** X14 *)

(** X14.  On an initialized service, a [/synthesize] request without
    [ref_audio] (absent or the empty string) always speaks with the voice
    "greta": its [ref_text] is ignored, so the answer is the one of the
    same text alone.  The answer is [synthesize]'s WAV in base64 with
    format "wav" and sample rate 24000, or an HTTP error 500 carrying the
    text of whatever [synthesize] raised. *)
Theorem synthesize_endpoint_uses_greta
    (cfg : Config) (lib : EndpointLib) (env : Env)
    (request : TextRequest.t) (s : State) (engine : NeuTTS) :
  tts s = Some engine ->
  truthy (TextRequest.ref_audio request) = false ->
  synthesize_speech cfg lib env request s =
  synthesize_speech cfg lib env
    {| TextRequest.text := TextRequest.text request;
       TextRequest.ref_audio := None;
       TextRequest.ref_text := None |} s /\
  synthesize_speech cfg lib env request s =
  match synthesize cfg env (TextRequest.text request) "greta" s with
  | (Ok (wav_data, tm), s') =>
      (Ok {| audio := b64encode lib wav_data; format := "wav";
             result_sample_rate := 24000; timing := tm |}, s')
  | (Raise e, s') => (Raise (HTTPException 500 (str_exn lib e)), s')
  end.
Proof.
  intros Htts Href.
  assert (Hrun : forall rq,
            truthy (TextRequest.ref_audio rq) = false ->
            synthesize_speech cfg lib env rq s =
            match synthesize cfg env (TextRequest.text rq) "greta" s with
            | (Ok (wav_data, tm), s') =>
                (Ok {| audio := b64encode lib wav_data; format := "wav";
                       result_sample_rate := 24000; timing := tm |}, s')
            | (Raise e, s') =>
                (Raise (HTTPException 500 (str_exn lib e)), s')
            end).
  { intros rq Hrq.
    unfold synthesize_speech, is_initialized, try_except.
    cbv [bind get ret raise]. rewrite Htts. cbn [negb]. rewrite Hrq.
    destruct (synthesize cfg env (TextRequest.text rq) "greta" s)
      as [[[wav_data tm]|e] s']; reflexivity. }
  split; [|now apply Hrun].
  rewrite (Hrun request Href).
  rewrite (Hrun {| TextRequest.text := TextRequest.text request;
                   TextRequest.ref_audio := None;
                   TextRequest.ref_text := None |} eq_refl).
  reflexivity.
Qed.

Lemma synthesize_endpoint_uses_greta_witness :
  synthesize_speech cfg0 endpoint_lib0 env0 plain_request started0 =
  synthesize_speech cfg0 endpoint_lib0 env0
    {| TextRequest.text := TextRequest.text plain_request;
       TextRequest.ref_audio := None;
       TextRequest.ref_text := None |} started0.
Proof.
  assert (Htts : tts started0 = Some engine0) by (vm_compute; reflexivity).
  assert (Href : truthy (TextRequest.ref_audio plain_request) = false)
    by (vm_compute; reflexivity).
  destruct (@synthesize_endpoint_uses_greta
              cfg0 endpoint_lib0 env0 plain_request started0 engine0
              Htts Href) as [Hsame _].
  exact Hsame.
Defined.

(** ** X15 *)

(** X15.  [reload_voices] never initializes the service and never
    fails: it always answers success with what [reload_custom_voices]
    returns, the ids cached after the reload, and leaves the state of
    that reload.  On a service that is not initialized (in any state it
    can be in since its construction) the answer is success with no
    voice at all, whatever the custom directory holds, and the service
    stays uninitialized. *)
Theorem reload_endpoint_before_initialization
    (cfg : Config) (calls : list call) (env : Env) :
  let s := run_calls cfg calls TTSService_init in
  (exists voices s',
     reload_custom_voices cfg env s = (Ok voices, s') /\
     reload_voices cfg env s =
     (Ok {| success := true; reloaded_voices := voices |}, s') /\
     voices = dict_keys (voice_cache s') /\
     tts s' = tts s) /\
  (is_initialized s = (Ok false, s) ->
   exists s',
     reload_voices cfg env s =
     (Ok {| success := true; reloaded_voices := [] |}, s') /\
     is_initialized s' = (Ok false, s')).
Proof.
  intro s.
  destruct (scan_grows cfg env s) as (s' & Hrun & Hg & _).
  assert (Hrel : reload_voices cfg env s =
                 (Ok {| success := true;
                        reloaded_voices := dict_keys (voice_cache s') |},
                  s')).
  { unfold reload_voices. unfold bind at 1.
    now rewrite (reload_unfold _ _ _ Hrun). }
  split.
  - exists (dict_keys (voice_cache s')), s'.
    split; [exact (reload_unfold _ _ _ Hrun)|].
    split; [exact Hrel|]. split; [reflexivity|]. apply Hg.
  - intro Hinit.
    assert (Hnone : tts s = None).
    { unfold is_initialized in Hinit. cbv [bind get ret] in Hinit.
      destruct (tts s); [discriminate|reflexivity]. }
    assert (Hinv : empty_until_initialized s).
    { apply run_calls_invariant. intros _. reflexivity. }
    destruct (scan_uninitialized cfg env s Hnone) as (s'' & Hrun' & Hc & Ht).
    rewrite Hrun in Hrun'. injection Hrun' as <-.
    exists s'. split.
    + rewrite Hrel, Hc, (Hinv Hnone). reflexivity.
    + unfold is_initialized. cbv [bind get ret]. now rewrite Ht.
Qed.

Lemma reload_endpoint_before_initialization_witness :
  exists s',
    reload_voices cfg0 env0 (run_calls cfg0 calls_failed_start
                               TTSService_init) =
    (Ok {| success := true; reloaded_voices := [] |}, s') /\
    is_initialized s' = (Ok false, s').
Proof.
  assert (Hinit : is_initialized (run_calls cfg0 calls_failed_start
                                    TTSService_init) =
                  (Ok false, run_calls cfg0 calls_failed_start
                               TTSService_init))
    by (vm_compute; reflexivity).
  destruct (@reload_endpoint_before_initialization
              cfg0 calls_failed_start env0) as [_ Hreload].
  exact (Hreload Hinit).
Defined.

(* ================================================================== *)
(** * The cache as the listing shows it *)

Lemma dict_set_In (V : Type) (d : dict V) (k x : string) (v e : V) :
  In (x, e) (dict_set d k v) -> (x = k /\ e = v) \/ In (x, e) d.
Proof.
  induction d as [|[k' v'] d IH]; cbn [dict_set].
  - intros [H|[]]. injection H as <- <-. now left.
  - destruct (String.eqb k k') eqn:E.
    + apply String.eqb_eq in E. subst k'. intros [H|H].
      * injection H as <- <-. now left.
      * right. now right.
    + intros [H|H]; [right; now left|].
      destruct (IH H) as [Hk|Hd]; [now left|right; now right].
Qed.

Lemma dict_keys_set (V : Type) (d : dict V) (k x : string) (v : V) :
  In x (dict_keys (dict_set d k v)) -> x = k \/ In x (dict_keys d).
Proof.
  unfold dict_keys. intro H. apply in_map_iff in H.
  destruct H as ([x' e] & <- & Hin). cbn [fst].
  destruct (dict_set_In _ _ _ _ _ Hin) as [[-> _]|Hd]; [now left|].
  right. apply in_map_iff. now exists (x', e).
Qed.

Lemma dict_set_NoDup (V : Type) (d : dict V) (k : string) (v : V) :
  NoDup (dict_keys d) -> NoDup (dict_keys (dict_set d k v)).
Proof.
  induction d as [|[k' v'] d IH]; cbn [dict_set dict_keys map fst].
  - intros _. constructor; [intros []|constructor].
  - intro H. destruct (String.eqb k k') eqn:E; [exact H|].
    inversion H as [|? ? Hnotin Hrest]; subst.
    cbn [map fst]. constructor; [|now apply IH].
    intro Hin. apply dict_keys_set in Hin. destruct Hin as [->|Hin].
    + now rewrite String.eqb_refl in E.
    + now apply Hnotin.
Qed.

Lemma dict_get_In (V : Type) (d : dict V) (k : string) (v : V) :
  dict_get d k = Some v -> In (k, v) d.
Proof.
  induction d as [|[k' v'] d IH]; cbn [dict_get]; [discriminate|].
  destruct (String.eqb k k') eqn:E.
  - apply String.eqb_eq in E. subst k'. intro H. injection H as <-.
    now left.
  - intro H. right. now apply IH.
Qed.

Lemma cache_ok_set
    (cfg : Config) (d : dict VoiceEntry) (k : string) (e : VoiceEntry) :
  cache_ok cfg d -> entry_of cfg k e -> cache_ok cfg (dict_set d k e).
Proof.
  intros (Hnd & Hall) He. split; [now apply dict_set_NoDup|].
  intros x e' Hin.
  destruct (dict_set_In _ _ _ _ _ Hin) as [[-> ->]|Hd];
    [exact He|now apply Hall].
Qed.

(** A loop keeps what each of its iterations keeps, also when one of
    them raises. *)
Lemma for_each_preserves
    (A : Type) (P : State -> Prop) (body : A -> M unit) (l : list A) :
  (forall x s, In x l -> P s -> P (snd (body x s))) ->
  forall s, P s -> P (snd (for_each l body s)).
Proof.
  induction l as [|x l IH]; intros Hbody s Hs; [exact Hs|].
  cbn [for_each]. unfold bind.
  pose proof (Hbody x s (or_introl eq_refl) Hs) as H1.
  destruct (body x s) as [[u|e] s1]; cbn [snd] in *; [|exact H1].
  apply IH; [|exact H1].
  intros y s' Hy. apply Hbody. now right.
Qed.

Lemma load_builtin_ok
    (cfg : Config) (env : Env) (v f : string) (s : State) :
  In (v, f) builtin_voices ->
  cache_ok cfg (voice_cache s) ->
  cache_ok cfg (voice_cache (snd (load_builtin cfg env (v, f) s))).
Proof.
  intros Hin Hok.
  assert (Hset : forall rc t,
            cache_ok cfg (dict_set (voice_cache s) v
                            (builtin_entry cfg v f rc t))).
  { intros rc t. apply cache_ok_set; [exact Hok|].
    unfold entry_of. cbn [is_builtin builtin_entry wav_path name].
    exists f. auto. }
  unfold load_builtin.
  fold (builtin_wav cfg f) (builtin_txt cfg f) (builtin_pt cfg f).
  cbv [bind os_path_exists log ret try_except tts_encode_reference get
       raise lift alloc open_read torch_load_ cache_set].
  run_step.
  destruct (path_exists env (builtin_wav cfg f)); [|exact Hok].
  destruct (tts s) as [engine|] eqn:Etts; run_step; [|exact Hok].
  destruct (encode_reference engine env (builtin_wav cfg f));
    run_step; [|exact Hok].
  destruct (path_exists env (builtin_txt cfg f)).
  - destruct (read_text env (builtin_txt cfg f)); run_step;
      [apply Hset|exact Hok].
  - destruct (path_exists env (builtin_pt cfg f)).
    + destruct (torch_load env (builtin_pt cfg f)); run_step;
        [apply Hset|exact Hok].
    + apply Hset.
Qed.

Lemma load_builtins_ok (cfg : Config) (env : Env) (s : State) :
  cache_ok cfg (voice_cache s) ->
  cache_ok cfg (voice_cache (snd (_load_builtin_samples cfg env s))).
Proof.
  unfold _load_builtin_samples.
  apply (@for_each_preserves _ (fun s => cache_ok cfg (voice_cache s))).
  intros [v f] s' Hin. now apply load_builtin_ok.
Qed.

Lemma scan_custom_ok (cfg : Config) (env : Env) (p : string) (s : State) :
  cache_ok cfg (voice_cache s) ->
  cache_ok cfg (voice_cache (snd (scan_custom env p s))).
Proof.
  intro Hok.
  destruct (scan_custom_cases env p s) as (s' & Hrun & _ & Hc).
  rewrite Hrun. cbn [snd].
  destruct (dict_mem (stem p) (voice_cache s)) eqn:Emem;
    [now rewrite Hc|].
  destruct (custom_load env (tts s) p) as [ct|e]; rewrite Hc;
    [|exact Hok].
  rewrite <- (@dict_set_absent _ (voice_cache s) (stem p) _ Emem).
  apply cache_ok_set; [exact Hok|].
  unfold entry_of. cbn [is_builtin custom_entry wav_path name]. auto.
Qed.

Lemma scan_ok (cfg : Config) (env : Env) (s : State) :
  cache_ok cfg (voice_cache s) ->
  cache_ok cfg (voice_cache (snd (_scan_custom_voices cfg env s))).
Proof.
  intro Hok. rewrite scan_unfold.
  destruct (path_exists env (VOICES_DIR cfg)); [|exact Hok].
  apply (@for_each_preserves _ (fun s => cache_ok cfg (voice_cache s)));
    [|exact Hok].
  intros p s' _. apply scan_custom_ok.
Qed.

Section CacheInvariant.
Variable cfg : Config.
Variable P : dict VoiceEntry -> Prop.
Hypothesis P_scan :
  forall env s,
    P (voice_cache s) ->
    P (voice_cache (snd (_scan_custom_voices cfg env s))).

Lemma reload_preserves (env : Env) (s : State) :
  P (voice_cache s) ->
  P (voice_cache (snd (reload_custom_voices cfg env s))).
Proof.
  intro H. pose proof (P_scan env s H) as H1.
  destruct (scan_grows cfg env s) as (s' & Hrun & _).
  rewrite (reload_unfold _ _ _ Hrun). now rewrite Hrun in H1.
Qed.

Lemma lookup_preserves (env : Env) (voice_id : string) (s : State) :
  P (voice_cache s) ->
  P (voice_cache (snd (get_voice_data cfg env voice_id s))).
Proof.
  intro H.
  destruct (dict_get (voice_cache s) voice_id) as [e|] eqn:E.
  - now rewrite (get_voice_data_present cfg env _ _ E).
  - rewrite get_voice_data_absent by (unfold dict_mem; now rewrite E).
    cbn [snd]. now apply reload_preserves.
Qed.

Lemma synthesize_preserves
    (env : Env) (text voice_id : string) (s : State) :
  P (voice_cache s) ->
  P (voice_cache (snd (synthesize cfg env text voice_id s))).
Proof.
  intro H.
  assert (H1 : P (voice_cache
                    (snd (get_voice_data cfg env voice_id (tick s)))))
    by (apply lookup_preserves; exact H).
  unfold synthesize, time. cbv [bind]. fold (tick s).
  destruct (get_voice_data cfg env voice_id (tick s))
    as [[[[rc|] rt]|e] s1]; cbn [snd] in *; try exact H1.
  unfold tts_infer. cbv [bind get log lift ret raise].
  destruct (tts s1) as [engine|]; [|exact H1].
  destruct (infer engine text rc _) as [wav|e]; [|exact H1].
  destruct (_numpy_to_wav wav 24000) as [wav_data|e]; [|exact H1].
  destruct (len wav) as [n|e]; exact H1.
Qed.

Lemma streaming_preserves
    (env : Env) (text voice_id : string) (s : State) :
  P (voice_cache s) ->
  P (voice_cache (snd (synthesize_streaming cfg env text voice_id s))).
Proof.
  intro H.
  pose proof (lookup_preserves env voice_id s H) as Hk.
  destruct (get_voice_data_result cfg env voice_id s)
    as (s1 & n & _ & Hres).
  rewrite Hres in Hk. cbn [snd] in Hk.
  assert (Hfall : P (voice_cache
                       (snd (synthesize cfg env text voice_id s))))
    by now apply synthesize_preserves.
  destruct (dict_get (voice_cache s1) voice_id) as [e|].
  - rewrite (@synthesize_streaming_cases cfg env text voice_id s s1
               (ref_codes e) (ref_text e) Hres).
    destruct (tts s1) as [engine|];
      [|now rewrite fallback_outcome_state].
    destruct (infer_stream engine) as [f|];
      [|now rewrite fallback_outcome_state].
    cbv zeta.
    destruct (snd (f text (ref_codes e) (ref_text e))) as [err|];
      [|exact Hk].
    destruct (is_AttributeError err); [|exact Hk].
    rewrite fallback_outcome_state.
    now apply synthesize_preserves.
  - unfold synthesize_streaming.
    unfold gbind at 1. unfold glift at 1. rewrite Hres.
    exact Hk.
Qed.
End CacheInvariant.

Lemma initialize_ok (cfg : Config) (env : Env) (s : State) :
  cache_ok cfg (voice_cache s) ->
  cache_ok cfg (voice_cache (snd (initialize_tts cfg env s))).
Proof.
  intros Hok. unfold initialize_tts. cbv [bind get log lift set_tts ret].
  destruct (tts s) as [engine|] eqn:Etts; [exact Hok|].
  destruct (NeuTTS_new env) as [engine|e]; cbn [snd]; [|exact Hok].
  set (s0 := {| tts := Some engine; voice_cache := _ |}).
  assert (H1 : cache_ok cfg
                 (voice_cache (snd (_load_builtin_samples cfg env s0))))
    by (apply load_builtins_ok; exact Hok).
  destruct (_load_builtin_samples cfg env s0) as [[u|e] s1];
    cbn [snd] in *; [|exact H1].
  now apply scan_ok.
Qed.

(** Whatever calls were made on the service since its construction, its
    cache holds one entry per id, each of the shape of its id. *)
Lemma run_calls_ok (cfg : Config) (calls : list call) (s : State) :
  cache_ok cfg (voice_cache s) ->
  cache_ok cfg (voice_cache (run_calls cfg calls s)).
Proof.
  revert s. induction calls as [|c calls IH]; intros s Hok; [exact Hok|].
  cbn [run_calls fold_left]. apply IH.
  destruct c as [env|env| | |env v|env t v|env t v]; cbn [exec_call].
  - now apply initialize_ok.
  - apply reload_preserves; [apply scan_ok|exact Hok].
  - exact Hok.
  - exact Hok.
  - apply lookup_preserves; [apply scan_ok|exact Hok].
  - apply synthesize_preserves; [apply scan_ok|exact Hok].
  - apply streaming_preserves; [apply scan_ok|exact Hok].
Qed.

Lemma cache_ok_init (cfg : Config) :
  cache_ok cfg (voice_cache TTSService_init).
Proof. split; [constructor|intros k e []]. Qed.

Lemma fold_dict_set_fresh
    (A V : Type) (f : A -> V) (d : dict A) (acc : dict V) :
  NoDup (dict_keys acc ++ dict_keys d) ->
  fold_left (fun r kv => dict_set r (fst kv) (f (snd kv))) d acc =
  acc ++ map (fun kv => (fst kv, f (snd kv))) d.
Proof.
  revert acc. induction d as [|[k v] d IH]; intros acc Hnd.
  - cbn. now rewrite app_nil_r.
  - cbn [fold_left fst snd map].
    assert (Habs : dict_mem k acc = false).
    { destruct (dict_mem k acc) eqn:E; [|reflexivity].
      apply dict_mem_keys in E. cbn [dict_keys map fst] in Hnd.
      apply NoDup_remove_2 in Hnd. exfalso. apply Hnd.
      apply in_or_app. now left. }
    rewrite (@dict_set_absent _ acc k (f v) Habs), IH.
    + now rewrite <- app_assoc.
    + unfold dict_keys in *. rewrite map_app, <- app_assoc. exact Hnd.
Qed.

Lemma fold_append (A B : Type) (g : A -> B) (l : list A) (acc : list B) :
  fold_left (fun out x => out ++ [g x]) l acc = acc ++ map g l.
Proof.
  revert acc. induction l as [|x l IH]; intro acc; cbn.
  - now rewrite app_nil_r.
  - now rewrite IH, <- app_assoc.
Qed.

Lemma available_voices_of_cache (s : State) :
  NoDup (dict_keys (voice_cache s)) ->
  get_available_voices s =
  (Ok (map (fun kv => (fst kv, voice_info (snd kv))) (voice_cache s)), s).
Proof.
  intro Hnd. unfold get_available_voices. cbv [bind get ret].
  change (fun (result : dict VoiceInfo) (kv : string * VoiceEntry) =>
            dict_set result (fst kv)
              {| info_name := name (snd kv);
                 info_is_builtin := is_builtin (snd kv);
                 info_has_ref_text :=
                   negb (String.eqb (ref_text (snd kv)) "") |})
    with (fun (result : dict VoiceInfo) (kv : string * VoiceEntry) =>
            dict_set result (fst kv) (voice_info (snd kv))).
  now rewrite fold_dict_set_fresh.
Qed.

(** ** X16 *)

(** X16.  In every state the service can be in (after any sequence of
    calls since its construction), the listing shows the cache as it is:
    [get_available_voices] and the [/v1/voices] endpoint report one
    element per cached voice, in the order in which the voices were
    cached, with the entry's name and whether its transcript is
    non-empty, and [/health] reports the cached ids in that order and
    whether the engine exists.  None of the three changes the service. *)
Theorem listing_reports_cache (cfg : Config) (calls : list call) :
  let s := run_calls cfg calls TTSService_init in
  get_available_voices s =
    (Ok (map (fun kv => (fst kv, voice_info (snd kv))) (voice_cache s)),
     s) /\
  list_voices s = (Ok (map voice_item (voice_cache s)), s) /\
  health_check s =
    (Ok {| status := "healthy";
           tts_initialized :=
             match tts s with Some _ => true | None => false end;
           available_voices := dict_keys (voice_cache s) |}, s).
Proof.
  intro s.
  assert (Hav : get_available_voices s =
                (Ok (map (fun kv => (fst kv, voice_info (snd kv)))
                       (voice_cache s)), s)).
  { apply available_voices_of_cache.
    apply (@run_calls_ok cfg calls TTSService_init (cache_ok_init cfg)). }
  split; [exact Hav|]. split.
  - unfold list_voices. unfold bind. rewrite Hav. unfold ret.
    rewrite fold_append. cbn [app]. rewrite map_map. reflexivity.
  - unfold health_check, is_initialized. cbv [bind get ret].
    rewrite Hav. unfold dict_keys. rewrite map_map. reflexivity.
Qed.

(** ** X17 *)

(** X17.  In every state the service can be in, a cached voice flagged
    built-in has one of the three built-in ids, the sample path of that
    id and the name "German <Id> (built-in)", and a cached voice not
    flagged built-in has the id its file name gives and the name
    "Custom voice: <id>". *)
Theorem cached_entries_are_well_formed
    (cfg : Config) (calls : list call) (k : string) (e : VoiceEntry) :
  dict_get (voice_cache (run_calls cfg calls TTSService_init)) k = Some e ->
  if is_builtin e
  then In k ["greta"; "mateo"; "juliette"] /\
       wav_path e = os_path_join (SAMPLES_DIR cfg) (k ++ ".wav")%string /\
       name e = ("German " ++ str_title k ++ " (built-in)")%string
  else fst (os_path_splitext (os_path_basename (wav_path e))) = k /\
       name e = ("Custom voice: " ++ k)%string.
Proof.
  intro Hget.
  destruct (@run_calls_ok cfg calls TTSService_init (cache_ok_init cfg)) as (_ & Hall).
  specialize (Hall k e (dict_get_In _ _ Hget)).
  unfold entry_of in Hall. destruct (is_builtin e); [|exact Hall].
  destruct Hall as (f & Hin & Hwav & Hname).
  assert (Hf : f = k /\ In k ["greta"; "mateo"; "juliette"]).
  { cbn in Hin. destruct Hin as [H|[H|[H|[]]]];
      injection H as <- <-; cbn; auto. }
  destruct Hf as (-> & Hk). auto.
Qed.

Lemma cached_entries_are_well_formed_witness :
  In "greta" ["greta"; "mateo"; "juliette"] /\
  wav_path greta0 =
    os_path_join (SAMPLES_DIR cfg0) ("greta" ++ ".wav")%string /\
  name greta0 = ("German " ++ str_title "greta" ++ " (built-in)")%string.
Proof.
  assert (Hget : dict_get (voice_cache
                             (run_calls cfg0 [CallInitialize env0]
                                TTSService_init)) "greta" = Some greta0)
    by (vm_compute; reflexivity).
  exact (@cached_entries_are_well_formed
           cfg0 [CallInitialize env0] "greta" greta0 Hget).
Defined.

(* ================================================================== *)
(** * The id and the transcript of a voice file *)

Lemma rfind_from_absent (c : ascii) (s : string) (i found : Z) :
  no_char c s = true -> rfind_from c s i found = found.
Proof.
  revert i found. induction s as [|a s IH]; intros i found H;
    [reflexivity|].
  unfold no_char in H. cbn [string_forallb] in H.
  apply andb_prop in H. destruct H as [Ha Hs].
  apply negb_true_iff in Ha.
  cbn [rfind_from]. rewrite Ha. now apply IH.
Qed.

Lemma rfind_from_last (c : ascii) (a b : string) (i found : Z) :
  no_char c b = true ->
  rfind_from c (a ++ String c b) i found = i + Z.of_nat (String.length a).
Proof.
  intro Hb. revert i found.
  induction a as [|x a IH]; intros i found;
    cbn [append rfind_from String.length].
  - rewrite rfind_from_absent by exact Hb.
    unfold ascii_eqb. rewrite Ascii.eqb_refl. lia.
  - rewrite IH. lia.
Qed.

Lemma no_char_app (c : ascii) (a b : string) :
  no_char c (a ++ b) = no_char c a && no_char c b.
Proof.
  unfold no_char. induction a as [|x a IH]; cbn [append string_forallb];
    [reflexivity|].
  now rewrite IH, andb_assoc.
Qed.

Lemma substring_prefix (a b : string) :
  substring 0 (String.length a) (a ++ b) = a.
Proof.
  induction a as [|x a IH]; cbn [append String.length substring].
  - now destruct b.
  - now rewrite IH.
Qed.

Lemma substring_skip (a b : string) (n m : nat) :
  substring (String.length a + n) m (a ++ b) = substring n m b.
Proof.
  induction a as [|x a IH]; cbn [append String.length substring plus];
    [reflexivity|exact IH].
Qed.

Lemma string_length_app (a b : string) :
  String.length (a ++ b) = (String.length a + String.length b)%nat.
Proof.
  induction a as [|x a IH]; cbn [append String.length]; [reflexivity|].
  now rewrite IH.
Qed.

Lemma string_app_assoc (a b c : string) :
  ((a ++ b) ++ c = a ++ b ++ c)%string.
Proof.
  induction a as [|x a IH]; cbn [append]; [reflexivity|].
  now rewrite IH.
Qed.

Lemma string_app_nil_r (a : string) : (a ++ "")%string = a.
Proof.
  induction a as [|x a IH]; cbn [append]; [reflexivity|].
  now rewrite IH.
Qed.

Lemma slice_from_app (a b : string) :
  slice_from (a ++ b) (Z.of_nat (String.length a)) = b.
Proof.
  unfold slice_from. rewrite Nat2Z.id, string_length_app.
  replace (String.length a + String.length b - String.length a)%nat
    with (String.length b) by lia.
  rewrite <- (Nat.add_0_r (String.length a)) at 1.
  rewrite substring_skip.
  rewrite <- (string_app_nil_r b) at 2.
  rewrite substring_prefix. reflexivity.
Qed.

Lemma slice_to_app (a b : string) :
  slice_to (a ++ b) (Z.of_nat (String.length a)) = a.
Proof.
  unfold slice_to. rewrite Nat2Z.id. apply substring_prefix.
Qed.

(** [os.path.splitext] on a path whose last component is [base]
    followed by a dot and an extension. *)
Lemma splitext_last_component (pre base ext : string) :
  pre = "" \/ (exists d, pre = (d ++ "/")%string) ->
  no_char "/" base = true ->
  no_char "/" ext = true ->
  no_char "." ext = true ->
  all_dots base = false ->
  os_path_splitext (pre ++ base ++ String "." ext) =
  ((pre ++ base)%string, String "." ext).
Proof.
  intros Hpre Hbase Hext Hdot Hlead.
  set (p := (pre ++ base ++ String "." ext)%string).
  assert (Hsep : rfind "/" p = Z.of_nat (String.length pre) - 1).
  { unfold rfind, p. destruct Hpre as [->|(d & ->)].
    - cbn [append String.length]. apply rfind_from_absent.
      rewrite no_char_app, Hbase. cbn [andb].
      unfold no_char. cbn [string_forallb]. exact Hext.
    - rewrite string_app_assoc. cbn [append].
      rewrite rfind_from_last.
      + rewrite string_length_app. cbn [String.length]. lia.
      + rewrite no_char_app, Hbase. cbn [andb].
        unfold no_char. cbn [string_forallb]. exact Hext. }
  assert (Hp : p = ((pre ++ base) ++ String "." ext)%string)
    by (unfold p; now rewrite string_app_assoc).
  assert (Hd : rfind "." p = Z.of_nat (String.length (pre ++ base))).
  { rewrite Hp. unfold rfind. rewrite rfind_from_last by exact Hdot. lia. }
  unfold os_path_splitext. fold p. rewrite Hsep, Hd.
  rewrite string_length_app.
  replace (Z.of_nat (String.length pre) - 1 <?
           Z.of_nat (String.length pre + String.length base))
    with true by (symmetry; apply Z.ltb_lt; lia).
  replace (Z.to_nat (Z.of_nat (String.length pre) - 1 + 1))
    with (String.length pre + 0)%nat by lia.
  replace (Z.to_nat (Z.of_nat (String.length pre + String.length base) -
                     (Z.of_nat (String.length pre) - 1 + 1)))
    with (String.length base) by lia.
  unfold p at 1. rewrite substring_skip, substring_prefix.
  fold (all_dots base). rewrite Hlead.
  rewrite <- string_length_app, Hp.
  now rewrite slice_to_app, slice_from_app.
Qed.

(** ** X18 *)

(** X18.  The id of a custom voice is the name of its file without the
    [.wav] extension, and its transcript is looked for next to it under
    that name with the extension [.txt]: for a file [base.wav] in a
    directory, where [base] holds no slash and is not made of dots only
    (it may hold dots, as in [anna.v2.wav]), the scan computes the id
    [base] and the transcript path [dir/base.txt]. *)
Theorem voice_id_of_file (dir base : string) :
  no_char "/" base = true ->
  all_dots base = false ->
  fst (os_path_splitext
         (os_path_basename (dir ++ "/" ++ base ++ ".wav"))) = base /\
  (fst (os_path_splitext (dir ++ "/" ++ base ++ ".wav")) ++ ".txt"
   = dir ++ "/" ++ base ++ ".txt")%string.
Proof.
  intros Hbase Hlead.
  assert (Hwav : no_char "/" "wav" = true) by reflexivity.
  assert (Hdot : no_char "." "wav" = true) by reflexivity.
  split.
  - assert (Hb : os_path_basename (dir ++ "/" ++ base ++ ".wav")
                 = (base ++ ".wav")%string).
    { unfold os_path_basename, rfind. cbn [append].
      rewrite rfind_from_last.
      - replace (0 + Z.of_nat (String.length dir) + 1)
          with (Z.of_nat (String.length (dir ++ "/"))).
        + change (dir ++ String "/" (base ++ String "." "wav"))%string
            with (dir ++ "/" ++ (base ++ String "." "wav"))%string.
          rewrite <- string_app_assoc. apply slice_from_app.
        + rewrite string_length_app. cbn [String.length]. lia.
      - rewrite no_char_app, Hbase. reflexivity. }
    rewrite Hb.
    change (base ++ ".wav")%string
      with ("" ++ base ++ String "." "wav")%string.
    rewrite splitext_last_component; auto.
  - change (dir ++ "/" ++ base ++ ".wav")%string
      with (dir ++ "/" ++ (base ++ String "." "wav"))%string.
    rewrite <- string_app_assoc.
    rewrite splitext_last_component; eauto.
    cbn [fst]. now rewrite !string_app_assoc.
Qed.

Lemma voice_id_of_file_witness :
  fst (os_path_splitext
         (os_path_basename ("/app/voices" ++ "/" ++ "anna.v2" ++ ".wav")))
  = "anna.v2".
Proof.
  assert (Hbase : no_char "/" "anna.v2" = true) by reflexivity.
  assert (Hlead : all_dots "anna.v2" = false) by reflexivity.
  destruct (@voice_id_of_file "/app/voices" "anna.v2" Hbase Hlead)
    as [Hid _].
  exact Hid.
Defined.

(* ================================================================== *)
(** * When the WAV packaging fails *)

(** ** X19 *)

(** X19.  [_create_wav_header] returns a header, of 44 bytes, exactly
    when each of the values it packs fits the width of its field: the
    data size and the data size plus 36 in 32 bits, the number of
    channels, the block alignment and the bits per sample in 16 bits,
    the sample rate and the byte rate in 32 bits, none of them
    negative.  In every other case it raises [struct.error]. *)
Theorem wav_header_fails_exactly_on_overflow (sr ch bps ds : Z) :
  (header_fields_fit sr ch bps ds /\
   exists h, _create_wav_header sr ch bps ds = Ok h /\
             List.length h = 44%nat) \/
  (~ header_fields_fit sr ch bps ds /\
   exists m, _create_wav_header sr ch bps ds = Raise (StructError m)).
Proof.
  unfold header_fields_fit.
  destruct (struct_pack_I_cases (36 + ds)) as [[H1 _]|[H1 (m & E)]];
    [|right; split; [lia|];
      exists m; unfold _create_wav_header; now rewrite E].
  destruct (struct_pack_H_cases ch) as [[H2 _]|[H2 (m & E)]];
    [|right; split; [lia|]; exists m; unfold _create_wav_header;
      rewrite (struct_pack_I_ok (v := 36 + ds)) by lia;
      rewrite (struct_pack_I_ok (v := 16)) by lia;
      rewrite (struct_pack_H_ok (v := 1)) by lia;
      now rewrite E].
  destruct (struct_pack_I_cases sr) as [[H3 _]|[H3 (m & E)]];
    [|right; split; [lia|]; exists m; unfold _create_wav_header;
      rewrite (struct_pack_I_ok (v := 36 + ds)) by lia;
      rewrite (struct_pack_I_ok (v := 16)) by lia;
      rewrite (struct_pack_H_ok (v := 1)) by lia;
      rewrite (struct_pack_H_ok (v := ch)) by lia;
      now rewrite E].
  destruct (struct_pack_I_cases (sr * ch * bps / 8))
    as [[H4 _]|[H4 (m & E)]];
    [|right; split; [lia|]; exists m; unfold _create_wav_header;
      rewrite (struct_pack_I_ok (v := 36 + ds)) by lia;
      rewrite (struct_pack_I_ok (v := 16)) by lia;
      rewrite (struct_pack_H_ok (v := 1)) by lia;
      rewrite (struct_pack_H_ok (v := ch)) by lia;
      rewrite (struct_pack_I_ok (v := sr)) by lia;
      now rewrite E].
  destruct (struct_pack_H_cases (ch * bps / 8)) as [[H5 _]|[H5 (m & E)]];
    [|right; split; [lia|]; exists m; unfold _create_wav_header;
      rewrite (struct_pack_I_ok (v := 36 + ds)) by lia;
      rewrite (struct_pack_I_ok (v := 16)) by lia;
      rewrite (struct_pack_H_ok (v := 1)) by lia;
      rewrite (struct_pack_H_ok (v := ch)) by lia;
      rewrite (struct_pack_I_ok (v := sr)) by lia;
      rewrite (struct_pack_I_ok (v := sr * ch * bps / 8)) by lia;
      now rewrite E].
  destruct (struct_pack_H_cases bps) as [[H6 _]|[H6 (m & E)]];
    [|right; split; [lia|]; exists m; unfold _create_wav_header;
      rewrite (struct_pack_I_ok (v := 36 + ds)) by lia;
      rewrite (struct_pack_I_ok (v := 16)) by lia;
      rewrite (struct_pack_H_ok (v := 1)) by lia;
      rewrite (struct_pack_H_ok (v := ch)) by lia;
      rewrite (struct_pack_I_ok (v := sr)) by lia;
      rewrite (struct_pack_I_ok (v := sr * ch * bps / 8)) by lia;
      rewrite (struct_pack_H_ok (v := ch * bps / 8)) by lia;
      now rewrite E].
  destruct (struct_pack_I_cases ds) as [[H7 _]|[H7 (m & E)]];
    [|right; split; [lia|]; exists m; unfold _create_wav_header;
      rewrite (struct_pack_I_ok (v := 36 + ds)) by lia;
      rewrite (struct_pack_I_ok (v := 16)) by lia;
      rewrite (struct_pack_H_ok (v := 1)) by lia;
      rewrite (struct_pack_H_ok (v := ch)) by lia;
      rewrite (struct_pack_I_ok (v := sr)) by lia;
      rewrite (struct_pack_I_ok (v := sr * ch * bps / 8)) by lia;
      rewrite (struct_pack_H_ok (v := ch * bps / 8)) by lia;
      rewrite (struct_pack_H_ok (v := bps)) by lia;
      now rewrite E].
  left.
  assert (Hfit : header_fields_fit sr ch bps ds)
    by (unfold header_fields_fit; lia).
  split; [exact Hfit|].
  destruct (create_wav_header_parses Hfit) as (h & Hh & Hlen & _).
  eauto.
Qed.

(** ** X20 *)

(** X20.  [_numpy_to_wav] at the service's sample rate packages an
    array of any shape as long as it has at most 2147483629 samples, in
    44 bytes of header and two bytes per sample; with one sample more
    the RIFF size no longer fits its field and the call raises
    [struct.error]. *)
Theorem numpy_to_wav_length_limit (audio : ndarray) :
  let n := Z.of_nat (List.length (data audio)) in
  if n <=? 2147483629
  then exists wav,
         _numpy_to_wav audio 24000 = Ok wav /\
         Z.of_nat (List.length wav) = 44 + 2 * n
  else exists m, _numpy_to_wav audio 24000 = Raise (StructError m).
Proof.
  intro n.
  assert (Hq : quantize_array
                 (if 1 <? ndim audio then flatten audio else audio)
               = quantize_array audio)
    by (destruct (1 <? ndim audio); reflexivity).
  destruct (n <=? 2147483629) eqn:E.
  - apply Z.leb_le in E.
    assert (Hfit : header_fields_fit 24000 1 16 (2 * n)).
    { unfold header_fields_fit.
      change (24000 * 1 * 16 / 8) with 48000.
      change (1 * 16 / 8) with 2. subst n. lia. }
    destruct (numpy_to_wav_bytes audio Hfit) as (h & _ & Hlen & Hrun & _).
    eexists. split; [exact Hrun|].
    rewrite length_app, Nat2Z.inj_add, Hlen, length_int16_tobytes.
    unfold quantize_array. rewrite length_map. reflexivity.
  - apply Z.leb_gt in E.
    unfold _numpy_to_wav.
    rewrite Hq, length_int16_tobytes.
    unfold quantize_array at 1. rewrite length_map. fold n.
    destruct (struct_pack_I_cases (36 + 2 * n)) as [[H _]|[_ (m & Hm)]];
      [lia|].
    exists m. unfold _create_wav_header. now rewrite Hm.
Qed.

(* ================================================================== *)
(** * What a speech request depends on *)

(** ** X21 *)

(** X21.  The speech endpoint reads the input, the voice and the
    response format of a request and nothing else: two requests that
    agree on these three are answered alike and leave the service in the
    same state, whatever their model, instructions and speed. *)
Theorem speech_ignores_model_speed_instructions
    (cfg : Config) (lib : ServerLib) (env : Env)
    (r1 r2 : OpenAISpeechRequest) (s : State) :
  input r1 = input r2 ->
  voice r1 = voice r2 ->
  response_format r1 = response_format r2 ->
  openai_speech cfg lib env r1 s = openai_speech cfg lib env r2 s.
Proof.
  intros Hi Hv Hf. unfold openai_speech, speech_response.
  rewrite Hi, Hv, Hf. reflexivity.
Qed.

Lemma speech_ignores_model_speed_instructions_witness :
  openai_speech cfg0 lib0 env0 coral_request started0 =
  openai_speech cfg0 lib0 env0 fast_coral_request started0.
Proof.
  exact (@speech_ignores_model_speed_instructions
           cfg0 lib0 env0 coral_request fast_coral_request started0
           eq_refl eq_refl eq_refl).
Defined.

(** ** X22 *)

(** X22.  The speech endpoint validates the voice against the cache
    without scanning the directory.  For a voice file that was added
    after start-up and loads, a request for its id is answered 404 and
    the service is left untouched; after a call of [reload_voices] the
    same request passes the validation and is answered by the synthesis
    with that voice. *)
Theorem new_voice_needs_reload
    (cfg : Config) (lib : ServerLib) (env : Env)
    (request : OpenAISpeechRequest) (s : State) (engine : NeuTTS)
    (p : string) (ct : list Z * string) :
  tts s = Some engine ->
  path_exists env (VOICES_DIR cfg) = true ->
  In p (glob_glob env (voices_pattern cfg)) ->
  custom_load env (Some engine) p = Ok ct ->
  dict_mem (stem p) (voice_cache s) = false ->
  voice request = stem p ->
  stem p <> "coral" -> stem p <> "dave" ->
  openai_speech cfg lib env request s =
    (Raise (voice_404 (stem p) (voice_cache s)), s) /\
  let s' := snd (reload_voices cfg env s) in
  openai_speech cfg lib env request s' =
    speech_response cfg lib env request (stem p) s'.
Proof.
  intros Htts Hdir Hin Hload Hmiss Hvoice Hcoral Hdave.
  assert (Hmap : mapped_voice (voice request) = stem p).
  { rewrite Hvoice. now apply mapped_voice_cases. }
  split.
  - rewrite (@openai_speech_initialized cfg lib env request s engine Htts).
    now rewrite Hmap, Hmiss, Hvoice.
  - intro s'.
    assert (Hs' : s' = snd (_scan_custom_voices cfg env s)).
    { subst s'. unfold reload_voices. unfold bind at 1.
      destruct (scan_grows cfg env s) as (s1 & Hrun & _).
      now rewrite (reload_unfold _ _ _ Hrun), Hrun. }
    rewrite scan_unfold, Hdir in Hs'.
    set (s0 := add_events _ s) in Hs'.
    destruct (scan_loop env (glob_glob env (voices_pattern cfg)) s0)
      as (s1 & Hrun & Hg & Hcov).
    rewrite Hrun in Hs'. cbn [snd] in Hs'. subst s1.
    assert (Htts' : tts s' = Some engine).
    { destruct Hg as (Ht & _). now rewrite Ht. }
    assert (Hmem : dict_mem (stem p) (voice_cache s') = true).
    { destruct (Hcov p Hin) as [H|(e & He)]; [exact H|].
      subst s0. cbn [add_events tts] in He. rewrite Htts in He.
      congruence. }
    rewrite (@openai_speech_initialized cfg lib env request s' engine Htts').
    now rewrite Hmap, Hmem.
Qed.

Lemma new_voice_needs_reload_witness :
  openai_speech cfg0 lib0 env1 otto_request started0 =
    (Raise (voice_404 (stem "/app/voices/otto.wav")
              (voice_cache started0)), started0) /\
  let s' := snd (reload_voices cfg0 env1 started0) in
  openai_speech cfg0 lib0 env1 otto_request s' =
    speech_response cfg0 lib0 env1 otto_request
      (stem "/app/voices/otto.wav") s'.
Proof.
  assert (Htts : tts started0 = Some engine0) by (vm_compute; reflexivity).
  assert (Hdir : path_exists env1 (VOICES_DIR cfg0) = true)
    by (vm_compute; reflexivity).
  assert (Hin : In "/app/voices/otto.wav"
                  (glob_glob env1 (voices_pattern cfg0)))
    by (vm_compute; auto).
  assert (Hload : custom_load env1 (Some engine0) "/app/voices/otto.wav"
                  = Ok ([20], ""))
    by (vm_compute; reflexivity).
  assert (Hmiss : dict_mem (stem "/app/voices/otto.wav")
                    (voice_cache started0) = false)
    by (vm_compute; reflexivity).
  assert (Hvoice : voice otto_request = stem "/app/voices/otto.wav")
    by (vm_compute; reflexivity).
  assert (Hcoral : stem "/app/voices/otto.wav" <> "coral")
    by (vm_compute; discriminate).
  assert (Hdave : stem "/app/voices/otto.wav" <> "dave")
    by (vm_compute; discriminate).
  exact (@new_voice_needs_reload
           cfg0 lib0 env1 otto_request started0 engine0
           "/app/voices/otto.wav" ([20], "")
           Htts Hdir Hin Hload Hmiss Hvoice Hcoral Hdave).
Defined.
